(** * Teams-Genie relay: the poller, response assembly, table rendering,
      conversation routing, feedback and mention stripping

    A shallow embedding of [src/databricks/genie_client.py] and
    [src/bot/teams_bot.py], with the configuration of [src/config.py] and the
    message endpoints of [src/function_app.py] and [src/containerapp/app.py].

    Modelling conventions.
    - A Python [str] is a Rocq [string], one [ascii] per character.  Lengths,
      case mapping, whitespace and word characters are those of the ASCII
      range; literals of the source that contain other characters are carried
      as their UTF-8 bytes.
    - A value decoded from JSON is a [pyval]; numbers are integers (a
      non-integer JSON number is outside the model).
    - An exception is a value of [exn]; a computation that may raise returns
      [exc A].
    - The network is a script of outcomes that the requests consume in order;
      every request and every sleep is recorded in an event log.
    - The token cache behind [_get_headers] is taken to hold a valid token,
      and [send_activity] is taken to succeed.
    - The Bot Framework adapter is a parameter: an [Adapter] says what
      deserialization gives and what [process_activity] does with a turn.
      The constructors of the client and of the bot are taken to succeed.
    - An entity of an activity is an object of the class [Entity], as
      [Activity().deserialize] builds it, or a mapping; an [Entity] has no
      method [get].
    - The handlers of one bot interleave at the [await] of the client call:
      the binding is read before it and written after it.  The requests of
      a call are recorded when the call returns. *)

From Stdlib Require Import ZArith List String Ascii Bool Lia DecimalString.
From stdpp Require Import gmap strings list.

Open Scope string_scope.
Open Scope nat_scope.

(** ** Python values *)

#[local] Set Warnings "-register-all".

Inductive pyval : Type :=
| PNone
| PBool (b : bool)
| PInt (n : Z)
| PStr (s : string)
| PList (l : list pyval)
| PDict (d : list (string * pyval)).

(** An exception: the HTTP status and reason when it is aiohttp's
    [ClientResponseError], and the text [str(e)] gives. *)
Inductive exn : Type :=
| Exn (http : option (Z * string)) (text : string).

Inductive exc (A : Type) : Type :=
| Ok (a : A)
| Raise (e : exn).
Arguments Ok {A} a.
Arguments Raise {A} e.

Definition exc_bind {A B} (m : exc A) (k : A -> exc B) : exc B :=
  match m with
  | Ok a => k a
  | Raise e => Raise e
  end.

Declare Scope exc_scope.
Delimit Scope exc_scope with exc.
Notation "'let?' x ':=' e 'in' k" := (exc_bind e (fun x => k))
  (at level 10, x pattern, e at level 100, k at level 200) : exc_scope.

Definition exn_text (e : exn) : string :=
  match e with Exn _ t => t end.

(** ** Strings *)

Definition nl : string := String "010"%char "".
Definition dquote : ascii := "034"%char.

Definition str_of_Z (n : Z) : string := NilZero.string_of_int (Z.to_int n).
Definition str_of_nat (n : nat) : string := str_of_Z (Z.of_nat n).

Fixpoint repeat_char (c : ascii) (n : nat) : string :=
  match n with
  | O => ""
  | S k => String c (repeat_char c k)
  end.

(** [sep.join(parts)] *)
Fixpoint join (sep : string) (parts : list string) : string :=
  match parts with
  | [] => ""
  | [p] => p
  | p :: rest => p ++ sep ++ join sep rest
  end.

(** [s.ljust(width)] *)
Definition ljust (s : string) (width : nat) : string :=
  s ++ repeat_char " "%char (width - String.length s).

(** [sub in s] on two strings *)
Fixpoint contains (sub s : string) : bool :=
  String.prefix sub s ||
  match s with
  | "" => false
  | String _ s' => contains sub s'
  end.

(** [s[:n]] *)
Fixpoint str_take (n : nat) (s : string) : string :=
  match n, s with
  | S k, String c s' => String c (str_take k s')
  | _, _ => ""
  end.

(** The characters of a string, as iteration over it yields them. *)
Fixpoint chars (s : string) : list string :=
  match s with
  | "" => []
  | String c s' => String c "" :: chars s'
  end.

(** ** Built-in operations on values *)

Definition type_name (v : pyval) : string :=
  match v with
  | PNone => "NoneType"
  | PBool _ => "bool"
  | PInt _ => "int"
  | PStr _ => "str"
  | PList _ => "list"
  | PDict _ => "dict"
  end.

(** Interpreter errors; the wording is CPython 3.11's. *)
Definition no_attribute (v : pyval) (attr : string) : exn :=
  Exn None ("'" ++ type_name v ++ "' object has no attribute '" ++ attr ++ "'").
Definition not_iterable (v : pyval) : exn :=
  Exn None ("'" ++ type_name v ++ "' object is not iterable").
Definition no_len (v : pyval) : exn :=
  Exn None ("object of type '" ++ type_name v ++ "' has no len()").
Definition not_container (v : pyval) : exn :=
  Exn None ("argument of type '" ++ type_name v ++ "' is not iterable").
Definition not_subscriptable (v : pyval) : exn :=
  Exn None ("'" ++ type_name v ++ "' object is not subscriptable").
Definition bad_index (v : pyval) : exn :=
  Exn None (match v with
            | PStr _ => "string indices must be integers, not 'str'"
            | _ => "list indices must be integers or slices, not str"
            end).
Definition key_error (k : string) : exn :=
  Exn None ("'" ++ k ++ "'").
Definition unhashable (v : pyval) : exn :=
  Exn None ("unhashable type: '" ++ type_name v ++ "'").
Definition not_str_item (i : nat) (v : pyval) : exn :=
  Exn None ("sequence item " ++ str_of_nat i ++ ": expected str instance, "
            ++ type_name v ++ " found").

(** [bool(v)] *)
Definition truthy (v : pyval) : bool :=
  match v with
  | PNone => false
  | PBool b => b
  | PInt n => negb (n =? 0)%Z
  | PStr s => negb (String.eqb s "")
  | PList l => match l with [] => false | _ => true end
  | PDict d => match d with [] => false | _ => true end
  end.

Fixpoint dict_get (d : list (string * pyval)) (k : string) : option pyval :=
  match d with
  | [] => None
  | (k', v) :: d' => if String.eqb k' k then Some v else dict_get d' k
  end.

(** [a == b] *)
Fixpoint py_eq (a b : pyval) {struct a} : bool :=
  match a, b with
  | PNone, PNone => true
  | PBool x, PBool y => Bool.eqb x y
  | PBool x, PInt y => ((if x then 1 else 0) =? y)%Z
  | PInt x, PBool y => (x =? (if y then 1 else 0))%Z
  | PInt x, PInt y => (x =? y)%Z
  | PStr x, PStr y => String.eqb x y
  | PList la, PList lb =>
      (fix go (la lb : list pyval) : bool :=
         match la, lb with
         | [], [] => true
         | x :: la', y :: lb' => py_eq x y && go la' lb'
         | _, _ => false
         end) la lb
  | PDict da, PDict db =>
      (length da =? length db) &&
      (fix go (da : list (string * pyval)) : bool :=
         match da with
         | [] => true
         | (k, v) :: da' =>
             match dict_get db k with
             | Some w => py_eq v w && go da'
             | None => false
             end
         end) da
  | _, _ => false
  end.

(** [isinstance(v, dict)] and [isinstance(v, str)] *)
Definition is_dict (v : pyval) : bool :=
  match v with PDict _ => true | _ => false end.
Definition is_str (v : pyval) : bool :=
  match v with PStr _ => true | _ => false end.

(** [v.get(k)], [None] when the key is missing *)
Definition py_get (v : pyval) (k : string) : exc pyval :=
  match v with
  | PDict d => Ok (match dict_get d k with Some x => x | None => PNone end)
  | _ => Raise (no_attribute v "get")
  end.

(** [v.get(k, default)] *)
Definition py_get_default (v : pyval) (k : string) (default : pyval)
  : exc pyval :=
  match v with
  | PDict d => Ok (match dict_get d k with Some x => x | None => default end)
  | _ => Raise (no_attribute v "get")
  end.

(** [k in v] for a string [k] *)
Definition py_in (k : string) (v : pyval) : exc bool :=
  match v with
  | PDict d => Ok (match dict_get d k with Some _ => true | None => false end)
  | PList l => Ok (existsb (py_eq (PStr k)) l)
  | PStr s => Ok (contains k s)
  | _ => Raise (not_container v)
  end.

(** [v[k]] for a string [k] *)
Definition py_getitem (v : pyval) (k : string) : exc pyval :=
  match v with
  | PDict d =>
      match dict_get d k with
      | Some x => Ok x
      | None => Raise (key_error k)
      end
  | PList _ | PStr _ => Raise (bad_index v)
  | _ => Raise (not_subscriptable v)
  end.

(** The items a [for] loop over [v] sees. *)
Definition py_iter (v : pyval) : exc (list pyval) :=
  match v with
  | PList l => Ok l
  | PStr s => Ok (map PStr (chars s))
  | PDict d => Ok (map (fun kv => PStr (fst kv)) d)
  | _ => Raise (not_iterable v)
  end.

(** [len(v)] *)
Definition py_len (v : pyval) : exc nat :=
  match v with
  | PList l => Ok (length l)
  | PStr s => Ok (String.length s)
  | PDict d => Ok (length d)
  | _ => Raise (no_len v)
  end.

(** [v[0]] *)
Definition py_first (v : pyval) : exc pyval :=
  match v with
  | PList (x :: _) => Ok x
  | PList [] => Raise (Exn None "list index out of range")
  | PStr (String c _) => Ok (PStr (String c ""))
  | PStr "" => Raise (Exn None "string index out of range")
  | PDict _ => Raise (Exn None "0")
  | _ => Raise (not_subscriptable v)
  end.

(** [v[:n]] *)
Definition py_take (n : nat) (v : pyval) : exc pyval :=
  match v with
  | PList l => Ok (PList (firstn n l))
  | PStr s => Ok (PStr (str_take n s))
  | PDict _ => Raise (Exn None "unhashable type: 'slice'")
  | _ => Raise (not_subscriptable v)
  end.

(** [repr] of a string: single quotes unless the string has a single quote
    and no double quote. *)
Definition hex_digit (n : nat) : ascii :=
  nth n (list_ascii_of_string "0123456789abcdef") "0"%char.

Definition repr_char (q c : ascii) : string :=
  let n := nat_of_ascii c in
  if Ascii.eqb c "\"%char || Ascii.eqb c q then String "\"%char (String c "")
  else if n =? 9 then "\t"
  else if n =? 10 then "\n"
  else if n =? 13 then "\r"
  else if (n <? 32) || (n =? 127)
       then "\x" ++ String (hex_digit (n / 16)) (String (hex_digit (n mod 16)) "")
  else String c "".

Definition repr_str (s : string) : string :=
  let q := if contains "'" s && negb (contains (String dquote "") s)
           then dquote else "'"%char in
  String q (join "" (map (repr_char q) (list_ascii_of_string s))) ++ String q "".

Fixpoint py_repr (v : pyval) : string :=
  match v with
  | PNone => "None"
  | PBool true => "True"
  | PBool false => "False"
  | PInt n => str_of_Z n
  | PStr s => repr_str s
  | PList l => "[" ++ join ", " (map py_repr l) ++ "]"
  | PDict d =>
      "{" ++ join ", " (map (fun kv => repr_str (fst kv) ++ ": " ++ py_repr (snd kv)) d)
          ++ "}"
  end.

(** [str(v)], also what an f-string field renders *)
Definition py_str (v : pyval) : string :=
  match v with
  | PStr s => s
  | _ => py_repr v
  end.

(** ** Table rendering: [GenieClient._format_query_result] *)

Open Scope exc_scope.

(** [[col.get("name", f"col{i}") for i, col in enumerate(cols)]] *)
Fixpoint column_names (i : nat) (cols : list pyval) : exc (list pyval) :=
  match cols with
  | [] => Ok []
  | col :: rest =>
      let? name := py_get_default col "name" (PStr ("col" ++ str_of_nat i)) in
      let? names := column_names (S i) rest in
      Ok (name :: names)
  end.

(** [[f"Column {i+1}" for i in range(n)]] *)
Definition fallback_columns (n : nat) : list pyval :=
  map (fun i => PStr ("Column " ++ str_of_nat (i + 1))) (seq 0 n).

(** [len(str(val)) if val is not None else 4] *)
Definition cell_width (val : pyval) : nat :=
  match val with
  | PNone => 4
  | _ => String.length (py_str val)
  end.

(** [str(val) if val is not None else "NULL"] *)
Definition cell_text (val : pyval) : string :=
  match val with
  | PNone => "NULL"
  | _ => py_str val
  end.

(** The inner width loop over [enumerate(row)], from index [i] on. *)
Fixpoint widen_row (i : nat) (row : list pyval) (col_widths : list nat)
  : list nat :=
  match row with
  | [] => col_widths
  | val :: rest =>
      widen_row (S i) rest
        (if i <? length col_widths
         then <[i := Nat.max (nth i col_widths 0) (cell_width val)]> col_widths
         else col_widths)
  end.

(** The outer width loop, over [rows[:10]]. *)
Fixpoint widen (rows : list pyval) (col_widths : list nat) : exc (list nat) :=
  match rows with
  | [] => Ok col_widths
  | row :: rest =>
      let? cells := py_iter row in
      widen rest (widen_row 0 cells col_widths)
  end.

(** [formatted_row] of one data row, from index [i] on. *)
Fixpoint format_cells (i : nat) (row : list pyval) (col_widths : list nat)
  : list string :=
  match row with
  | [] => []
  | val :: rest =>
      ((if i <? length col_widths
        then [ljust (cell_text val) (nth i col_widths 0)]
        else [])
       ++ format_cells (S i) rest col_widths)%list
  end.

(** The data-row loop, over [rows[:10]]. *)
Fixpoint format_rows (rows : list pyval) (col_widths : list nat)
  : exc (list string) :=
  match rows with
  | [] => Ok []
  | row :: rest =>
      let? cells := py_iter row in
      let? lines := format_rows rest col_widths in
      Ok (join " | " (format_cells 0 cells col_widths) :: lines)
  end.

Definition format_header (columns : list pyval) (col_widths : list nat)
  : string :=
  join " | " (imap (fun i col => ljust (py_str col) (nth i col_widths 0)) columns).

Definition format_separator (col_widths : list nat) : string :=
  join "-+-" (map (repeat_char "-"%char) col_widths).

Definition more_rows (k : nat) : string :=
  nl ++ "(" ++ str_of_nat k ++ " more rows...)".

(** From [if not columns:] to the final [return], given the column names read
    from the manifest and the truthy [data_array]. *)
Definition format_table (columns : list pyval) (rows : pyval) : exc string :=
  let? columns :=
    match columns with
    | [] => let? row0 := py_first rows in
            let? n := py_len row0 in
            Ok (fallback_columns n)
    | _ => Ok columns
    end in
  let col_widths := map (fun col => String.length (py_str col)) columns in
  let? shown := py_take 10 rows in
  let? shown := py_iter shown in
  let? col_widths := widen shown col_widths in
  let? body := format_rows shown col_widths in
  let? total := py_len rows in
  let output_lines :=
    ([nl +:+ "```"; format_header columns col_widths; format_separator col_widths]
     ++ body ++ ["```"]
     ++ (if 10 <? total then [more_rows (total - 10)] else []))%list in
  Ok (join nl output_lines).

(** The body of the [try] block. *)
Definition format_query_result_body (result_data : pyval) : exc string :=
  let? has_stmt := py_in "statement_response" result_data in
  if negb has_stmt then Ok "" else
  let? stmt := py_getitem result_data "statement_response" in
  let? columns :=
    let? has_manifest := py_in "manifest" stmt in
    if negb has_manifest then Ok [] else
    let? manifest := py_getitem stmt "manifest" in
    let? has_schema := py_in "schema" manifest in
    if negb has_schema then Ok [] else
    let? manifest_schema := py_getitem manifest "schema" in
    let? has_columns := py_in "columns" manifest_schema in
    if negb has_columns then Ok [] else
    let? cols := py_getitem manifest_schema "columns" in
    if negb (truthy cols) then Ok [] else
    let? cols := py_iter cols in
    column_names 0 cols in
  let? has_result := py_in "result" stmt in
  if negb has_result then Ok "" else
  let? result := py_getitem stmt "result" in
  if negb (truthy result) then Ok "" else
  let? has_data := py_in "data_array" result in
  if negb has_data then Ok "" else
  let? rows := py_getitem result "data_array" in
  if negb (truthy rows) then Ok "" else
  format_table columns rows.

Definition _format_query_result (result_data : pyval) : string :=
  match format_query_result_body result_data with
  | Ok text => text
  | Raise _ => ""
  end.

(** ** The remote service *)

(** The client's configuration: [self.host], [self.space_id],
    [self.client_id]. *)
Record GenieClient : Type := {
  host : string;
  space_id : string;
  client_id : string
}.

(** The requests the client sends, with the identifiers as the URL holds
    them. *)
Inductive request : Type :=
| StartConversation (content : string)
| CreateMessage (conversation_id content : string)
| GetMessage (conversation_id message_id : string)
| GetQueryResult (conversation_id message_id attachment_id : string)
| PostFeedback (conversation_id message_id rating : string).

Definition url (self : GenieClient) (r : request) : string :=
  let space := host self ++ "/api/2.0/genie/spaces/" ++ space_id self in
  match r with
  | StartConversation _ => space ++ "/start-conversation"
  | CreateMessage c _ => space ++ "/conversations/" ++ c ++ "/messages"
  | GetMessage c m => space ++ "/conversations/" ++ c ++ "/messages/" ++ m
  | GetQueryResult c m a =>
      space ++ "/conversations/" ++ c ++ "/messages/" ++ m
            ++ "/attachments/" ++ a ++ "/query-result"
  | PostFeedback c m _ =>
      space ++ "/conversations/" ++ c ++ "/messages/" ++ m ++ "/feedback"
  end.

(** An HTTP response: its status and reason, its body as text, what
    [json.loads] makes of that text ([None] for a [JSONDecodeError]) and what
    [response.json()] gives. *)
Record response : Type := {
  status : Z;
  reason : string;
  text : string;
  loads : option pyval;
  json : exc pyval
}.

(** What the network does with one request: it fails, or it answers. *)
Inductive outcome : Type :=
| NetFail (e : exn)
| Answer (r : response).

Inductive event : Type :=
| Sent (r : request)
| Slept.

(** The network: the outcomes still to come and the log of what happened.
    A script that has run out fails every further request. *)
Record net : Type := {
  pending : list outcome;
  log : list event
}.

Definition M (A : Type) : Type := net -> exc A * net.

Definition ret {A} (a : A) : M A := fun n => (Ok a, n).
Definition raise {A} (e : exn) : M A := fun n => (Raise e, n).
Definition bind {A B} (m : M A) (k : A -> M B) : M B :=
  fun n => match m n with
           | (Ok a, n') => k a n'
           | (Raise e, n') => (Raise e, n')
           end.
(** [try: m  except Exception as e: h e] *)
Definition catch {A} (m : M A) (h : exn -> M A) : M A :=
  fun n => match m n with
           | (Ok a, n') => (Ok a, n')
           | (Raise e, n') => h e n'
           end.
Definition lift {A} (x : exc A) : M A := fun n => (x, n).
(** A function whose [except] clauses all return: it never raises. *)
Definition handle {A} (m : M A) (h : exn -> A) : net -> A * net :=
  fun n => match m n with
           | (Ok a, n') => (a, n')
           | (Raise e, n') => (h e, n')
           end.

Declare Scope net_scope.
Delimit Scope net_scope with net.
Notation "'let*' x ':=' e 'in' k" := (bind e (fun x => k))
  (at level 10, x pattern, e at level 100, k at level 200) : net_scope.
Notation "e ';;' k" := (bind e (fun _ => k))
  (at level 100, k at level 200, right associativity) : net_scope.

Definition connection_closed : exn := Exn None "Connection closed".

(** [session.get(url)] / [session.post(url, json=payload)] *)
Definition send (r : request) : M response :=
  fun n =>
    let log' := (log n ++ [Sent r])%list in
    match pending n with
    | [] => (Raise connection_closed, {| pending := []; log := log' |})
    | NetFail e :: rest => (Raise e, {| pending := rest; log := log' |})
    | Answer a :: rest => (Ok a, {| pending := rest; log := log' |})
    end.

(** [await asyncio.sleep(delay)] *)
Definition sleep : M unit :=
  fun n => (Ok tt, {| pending := pending n; log := (log n ++ [Slept])%list |}).

(** aiohttp's [ClientResponseError] for a response, as [raise_for_status]
    builds it. *)
Definition client_response_error (self : GenieClient) (r : request)
  (a : response) : exn :=
  Exn (Some (status a, reason a))
      (str_of_Z (status a) ++ ", message=" ++ repr_str (reason a)
       ++ ", url=URL(" ++ repr_str (url self r) ++ ")").

(** [response.raise_for_status()] *)
Definition raise_for_status (self : GenieClient) (r : request) (a : response)
  : M unit :=
  if (400 <=? status a)%Z then raise (client_response_error self r a)
  else ret tt.

(** ** Response assembly: [GenieClient._extract_response_with_attachments] *)

Open Scope net_scope.

Fixpoint str_items (i : nat) (parts : list pyval) : exc (list string) :=
  match parts with
  | [] => Ok []
  | PStr s :: rest => let? l := str_items (S i) rest in Ok (s :: l)
  | v :: _ => Raise (not_str_item i v)
  end.

(** [sep.join(parts)] on a list of values *)
Definition py_join (sep : string) (parts : list pyval) : exc string :=
  let? l := str_items 0 parts in Ok (join sep l).

Definition apology : string :=
  "Sorry, I couldn't extract Genie's response. Please try again.".

(** [text_content] of one attachment (a dict): [query.description], then the
    [text] field as a fallback. *)
Definition explanation (attachment : pyval) : exc pyval :=
  let? text_content :=
    let? has_query := py_in "query" attachment in
    if negb has_query then Ok PNone else
    let? query_obj := py_getitem attachment "query" in
    if negb (is_dict query_obj) then Ok PNone else
    let? has_description := py_in "description" query_obj in
    if negb has_description then Ok PNone else
    let? description := py_getitem query_obj "description" in
    Ok (if truthy description then description else PNone) in
  if truthy text_content then Ok text_content else
  let? has_text := py_in "text" attachment in
  if negb has_text then Ok text_content else
  let? text_obj := py_getitem attachment "text" in
  if is_dict text_obj then
    let? has_content := py_in "content" text_obj in
    if has_content then py_getitem text_obj "content" else Ok text_content
  else if is_str text_obj then Ok text_obj
  else Ok text_content.

(** [text_content and text_content != user_question and len(text_content) > 10] *)
Definition keep_explanation (text_content user_question : pyval) : exc bool :=
  if negb (truthy text_content) then Ok false else
  if py_eq text_content user_question then Ok false else
  let? n := py_len text_content in
  Ok (10 <? n).

(** The [try] block that fetches and renders one query result; what it
    appends to [parts]. *)
Definition fetch_query_result (self : GenieClient)
  (conversation_id message_id attachment_id : pyval) : M (list pyval) :=
  catch
    (let* result_response :=
       send (GetQueryResult (py_str conversation_id) (py_str message_id)
                            (py_str attachment_id)) in
     if (status result_response =? 200)%Z then
       let* result_data := lift (json result_response) in
       let query_result_text := _format_query_result result_data in
       ret (if String.eqb query_result_text "" then []
            else [PStr query_result_text])
     else ret [])
    (fun _ => ret []).

(** The loop over the attachments, [parts] being the list built so far. *)
Fixpoint attachments_loop (self : GenieClient)
  (conversation_id message_id user_question : pyval)
  (attachments parts : list pyval) : M (list pyval) :=
  match attachments with
  | [] => ret parts
  | attachment :: rest =>
      if negb (is_dict attachment)
      then attachments_loop self conversation_id message_id user_question
             rest parts
      else
        let* text_content := lift (explanation attachment) in
        let* keep := lift (keep_explanation text_content user_question) in
        let parts := if keep then (parts ++ [text_content])%list else parts in
        let* id1 := lift (py_get attachment "attachment_id") in
        let* attachment_id :=
          if truthy id1 then ret id1 else lift (py_get attachment "id") in
        let* fetched :=
          if truthy attachment_id
          then fetch_query_result self conversation_id message_id attachment_id
          else ret [] in
        attachments_loop self conversation_id message_id user_question
          rest (parts ++ fetched)%list
  end.

Definition _extract_response_with_attachments (self : GenieClient)
  (conversation_id message_id message_data : pyval) : M string :=
  let* user_question := lift (py_get_default message_data "content" (PStr "")) in
  let* has_attachments := lift (py_in "attachments" message_data) in
  let* parts :=
    if negb has_attachments then ret [] else
    let* attachments := lift (py_getitem message_data "attachments") in
    if negb (truthy attachments) then ret [] else
    let* attachments := lift (py_iter attachments) in
    attachments_loop self conversation_id message_id user_question
      attachments [] in
  match parts with
  | [] => ret apology
  | _ => lift (py_join (nl ++ nl) parts)
  end.

(** ** The poller: [GenieClient._poll_for_response] *)

Definition success_statuses : list string := ["COMPLETED"; "SUCCESS"; "FINISHED"].
Definition failure_statuses : list string := ["FAILED"; "ERROR"].
Definition progress_statuses : list string :=
  ["EXECUTING"; "QUERYING_HISTORY"; "RUNNING"; "PENDING"].

(** [v in [s1, s2, ...]] *)
Definition in_list (v : pyval) (l : list string) : bool :=
  existsb (fun s => py_eq v (PStr s)) l.

Definition timeout_message : string :=
  "Sorry, Genie is taking too long to respond. Please try again.".

Definition failure_message (error_msg : pyval) : string :=
  "Sorry, Genie encountered an error: " ++ py_str error_msg.

Definition default_max_attempts : nat := 30.

(** The [try] block of one iteration: [Some text] when it returns [text],
    [None] when it reaches [continue]. *)
Definition poll_once (self : GenieClient) (conversation_id message_id : pyval)
  : M (option string) :=
  let r := GetMessage (py_str conversation_id) (py_str message_id) in
  let* a := send r in
  raise_for_status self r a ;;
  let* data := lift (json a) in
  let* st := lift (py_get_default data "status" (PStr "")) in
  if in_list st success_statuses then
    let* response_text :=
      _extract_response_with_attachments self conversation_id message_id data in
    ret (Some response_text)
  else if in_list st failure_statuses then
    let* err := lift (py_get_default data "error" (PDict [])) in
    let* error_msg := lift (py_get_default err "message" (PStr "Unknown error")) in
    ret (Some (failure_message error_msg))
  else if in_list st progress_statuses then
    sleep ;; ret None
  else
    sleep ;; ret None.

(** The [for attempt in range(max_attempts)] loop with [remaining]
    iterations to go, and the code after it. *)
Fixpoint poll_loop (self : GenieClient) (conversation_id message_id : pyval)
  (max_attempts remaining : nat) : M string :=
  match remaining with
  | O => ret timeout_message
  | S remaining' =>
      let attempt := max_attempts - remaining in
      let* r :=
        catch (poll_once self conversation_id message_id)
              (fun e => if attempt <? max_attempts - 1
                        then sleep ;; ret None
                        else raise e) in
      match r with
      | Some response_text => ret response_text
      | None => poll_loop self conversation_id message_id max_attempts remaining'
      end
  end.

Definition _poll_for_response (self : GenieClient)
  (conversation_id message_id : pyval) (max_attempts : nat) : M string :=
  poll_loop self conversation_id message_id max_attempts max_attempts.

(** ** Starting and continuing a conversation, and feedback *)

Definition error_result (error response_text : string) : pyval :=
  PDict [("status", PStr "error"); ("error", PStr error);
         ("response", PStr response_text)].

Definition success_result (conversation_id message_id : pyval)
  (response_text : string) : pyval :=
  PDict [("conversation_id", conversation_id); ("message_id", message_id);
         ("response", PStr response_text); ("status", PStr "success")].

Definition genie_error (st : Z) (detail : string) : string :=
  "❌ Databricks Genie Error (" ++ str_of_Z st ++ "):" ++ nl ++ nl ++ detail.

(** The [except] clauses of [ask_question]. *)
Definition ask_question_failed (e : exn) : pyval :=
  match e with
  | Exn (Some (st, message)) _ =>
      error_result ("HTTP " ++ str_of_Z st ++ ": " ++ message)
        "Sorry, I encountered an error contacting Databricks Genie. Please try again."
  | Exn None t =>
      error_result t ("Sorry, I encountered an error: " ++ t)
  end.

(** The [if response.status >= 400:] branch of [ask_question]. *)
Definition start_conversation_rejected (self : GenieClient) (a : response)
  : exc pyval :=
  match loads a with
  | Some error_json =>
      let? error_msg := py_get_default error_json "message" (PStr (text a)) in
      let? error_code := py_get_default error_json "error_code" (PStr "") in
      let error_msg := py_str error_msg in
      if (status a =? 400)%Z then
        Ok (error_result ("Bad Request: " ++ error_msg)
              ("❌ Databricks Genie Error:" ++ nl ++ nl
               ++ error_msg ++ nl ++ nl
               ++ "**Possible causes:**" ++ nl
               ++ "• The Genie space ID '" ++ space_id self ++ "' may be invalid" ++ nl
               ++ "• The service principal may not have access to this space" ++ nl
               ++ "• The request format may be incorrect" ++ nl ++ nl
               ++ "Please verify:" ++ nl
               ++ "1. Space ID is correct in your Function App settings" ++ nl
               ++ "2. Service principal is registered in Databricks Admin Console" ++ nl
               ++ "3. Service principal has 'Can use' permission on the Genie space"))
      else if (status a =? 401)%Z then
        Ok (error_result ("Unauthorized: " ++ error_msg)
              ("❌ Authentication failed:" ++ nl ++ nl
               ++ error_msg ++ nl ++ nl
               ++ "Please verify:" ++ nl
               ++ "• Service principal credentials (CLIENT_ID, CLIENT_SECRET, TENANT_ID) are correct" ++ nl
               ++ "• Service principal has 'Azure Databricks' API permission" ++ nl
               ++ "• Admin consent has been granted for the API permission"))
      else if (status a =? 403)%Z then
        Ok (error_result ("Forbidden: " ++ error_msg)
              ("❌ Access denied:" ++ nl ++ nl
               ++ error_msg ++ nl ++ nl
               ++ "The service principal does not have permission to access this Genie space."
               ++ nl ++ nl
               ++ "Please:" ++ nl
               ++ "1. Go to Databricks Admin Console → Service Principals" ++ nl
               ++ "2. Find or add service principal: " ++ client_id self ++ nl
               ++ "3. Go to Genie space settings and grant 'Can use' permission"))
      else if (status a =? 404)%Z then
        Ok (error_result ("Not Found: " ++ error_msg)
              ("❌ Resource not found:" ++ nl ++ nl
               ++ error_msg ++ nl ++ nl
               ++ "The Genie space '" ++ space_id self ++ "' was not found." ++ nl
               ++ "Please verify the DATABRICKS_GENIE_SPACE_ID in your Function App settings."))
      else
        Ok (error_result ("HTTP " ++ str_of_Z (status a) ++ ": " ++ error_msg)
              (genie_error (status a) error_msg))
  | None =>
      Ok (error_result ("HTTP " ++ str_of_Z (status a) ++ ": " ++ text a)
            (genie_error (status a) (str_take 500 (text a))))
  end.

Definition ask_question (self : GenieClient) (question : string)
  : net -> pyval * net :=
  handle
    (let r := StartConversation question in
     let* a := send r in
     if (400 <=? status a)%Z then lift (start_conversation_rejected self a)
     else
       raise_for_status self r a ;;
       let* data := lift (json a) in
       let* conv_id := lift (py_get_default data "conversation_id" (PStr "")) in
       let* msg_id := lift (py_get_default data "message_id" (PStr "")) in
       if negb (truthy conv_id) || negb (truthy msg_id) then
         ret (error_result "Invalid response from Genie API"
                "Sorry, I couldn't start a conversation with Genie.")
       else
         let* response_text :=
           _poll_for_response self conv_id msg_id default_max_attempts in
         ret (success_result conv_id msg_id response_text))
    ask_question_failed.

(** The [except] clause of [continue_conversation]. *)
Definition continue_conversation_failed (e : exn) : pyval :=
  error_result (exn_text e) ("Sorry, I encountered an error: " ++ exn_text e).

(** The [if response.status >= 400:] branch of [continue_conversation]. *)
Definition create_message_rejected (a : response) : exc pyval :=
  match loads a with
  | Some error_json =>
      let? error_msg := py_get_default error_json "message" (PStr (text a)) in
      let? error_code := py_get_default error_json "error_code" (PStr "") in
      let error_msg := py_str error_msg in
      if (status a =? 400)%Z then
        Ok (error_result ("Bad Request: " ++ error_msg)
              ("❌ Error continuing conversation:" ++ nl ++ nl ++ error_msg))
      else if (status a =? 404)%Z then
        Ok (error_result ("Not Found: " ++ error_msg)
              ("❌ Conversation not found:" ++ nl ++ nl
               ++ "The conversation may have expired or been deleted." ++ nl
               ++ "Please start a new conversation."))
      else
        Ok (error_result ("HTTP " ++ str_of_Z (status a) ++ ": " ++ error_msg)
              (genie_error (status a) error_msg))
  | None =>
      Ok (error_result ("HTTP " ++ str_of_Z (status a) ++ ": " ++ text a)
            (genie_error (status a) (str_take 500 (text a))))
  end.

Definition continue_conversation (self : GenieClient) (conversation_id : pyval)
  (question : string) : net -> pyval * net :=
  handle
    (let r := CreateMessage (py_str conversation_id) question in
     let* a := send r in
     if (400 <=? status a)%Z then lift (create_message_rejected a)
     else
       raise_for_status self r a ;;
       let* data := lift (json a) in
       let* msg_id := lift (py_get_default data "message_id" (PStr "")) in
       let* response_text :=
         _poll_for_response self conversation_id msg_id default_max_attempts in
       ret (success_result conversation_id msg_id response_text))
    continue_conversation_failed.

(** [c.upper()] *)
Definition upper_char (c : ascii) : ascii :=
  let n := nat_of_ascii c in
  if (97 <=? n) && (n <=? 122) then ascii_of_nat (n - 32) else c.

Definition lower_char (c : ascii) : ascii :=
  let n := nat_of_ascii c in
  if (65 <=? n) && (n <=? 90) then ascii_of_nat (n + 32) else c.

Fixpoint upper (s : string) : string :=
  match s with
  | "" => ""
  | String c s' => String (upper_char c) (upper s')
  end.

(** [v.upper()] *)
Definition py_upper (v : pyval) : exc string :=
  match v with
  | PStr s => Ok (upper s)
  | _ => Raise (no_attribute v "upper")
  end.

Definition send_feedback (self : GenieClient)
  (conversation_id message_id rating : pyval) : net -> pyval * net :=
  handle
    (let* rating_upper := lift (py_upper rating) in
     let r := PostFeedback (py_str conversation_id) (py_str message_id)
                           rating_upper in
     let* a := send r in
     raise_for_status self r a ;;
     ret (PDict [("status", PStr "success")]))
    (fun e => PDict [("status", PStr "error"); ("error", PStr (exn_text e))]).

(** ** Text normalisation: [TeamsBot._extract_user_message] *)

(** [c.isspace()], which is also the regular expression class [\s] *)
Definition is_space (c : ascii) : bool :=
  let n := nat_of_ascii c in
  ((9 <=? n) && (n <=? 13)) || ((28 <=? n) && (n <=? 32)).

(** The regular expression class [\w] *)
Definition is_word (c : ascii) : bool :=
  let n := nat_of_ascii c in
  ((48 <=? n) && (n <=? 57)) || ((65 <=? n) && (n <=? 90))
  || ((97 <=? n) && (n <=? 122)) || (n =? 95).

Fixpoint lstrip (s : string) : string :=
  match s with
  | "" => ""
  | String c s' => if is_space c then lstrip s' else s
  end.

Fixpoint rstrip (s : string) : string :=
  match s with
  | "" => ""
  | String c s' =>
      match rstrip s' with
      | "" => if is_space c then "" else String c ""
      | t => String c t
      end
  end.

(** [s.strip()] *)
Definition strip (s : string) : string := rstrip (lstrip s).

(** The scan of [s.replace(old, new)] for a non-empty [old]: [skip] is the
    number of characters of a match still to pass over. *)
Fixpoint replace_scan (old new s : string) (skip : nat) : string :=
  match s with
  | "" => ""
  | String c s' =>
      match skip with
      | S k => replace_scan old new s' k
      | O =>
          if String.prefix old s
          then new ++ replace_scan old new s' (String.length old - 1)
          else String c (replace_scan old new s' 0)
      end
  end.

(** [s.replace(old, new)]; an empty [old] matches before every character and
    at the end. *)
Definition replace (old new s : string) : string :=
  match old with
  | "" => new ++ join "" (map (fun c => c ++ new) (chars s))
  | _ => replace_scan old new s 0
  end.

(** [message.replace(v, new)] for a value [v] *)
Definition py_replace (v : pyval) (new s : string) : exc string :=
  match v with
  | PStr old => Ok (replace old new s)
  | _ => Raise (Exn None ("replace() argument 1 must be str, not " ++ type_name v))
  end.

(** The pattern [^\s*@?NAME\b[:,-]*] with [re.IGNORECASE], piece by piece.
    [match_name] matches the escaped name and gives the last character it
    matched and the rest of the text. *)
Fixpoint match_name (name s : string) (last : option ascii)
  : option (option ascii * string) :=
  match name with
  | "" => Some (last, s)
  | String c name' =>
      match s with
      | "" => None
      | String d s' =>
          if Ascii.eqb (lower_char c) (lower_char d)
          then match_name name' s' (Some d)
          else None
      end
  end.

(** [\b] between [prev] and the start of [rest] *)
Definition word_boundary (prev : option ascii) (rest : string) : bool :=
  xorb (match prev with Some c => is_word c | None => false end)
       (match rest with String c _ => is_word c | "" => false end).

(** [[:,-]*], greedy *)
Fixpoint skip_punctuation (s : string) : string :=
  match s with
  | "" => ""
  | String c s' =>
      if Ascii.eqb c ":" || Ascii.eqb c "," || Ascii.eqb c "-"
      then skip_punctuation s' else s
  end.

(** [NAME\b[:,-]*] at the start of [s]: the text after the match. *)
Definition match_name_tail (name s : string) : option string :=
  match match_name name s None with
  | Some (prev, rest) =>
      if word_boundary prev rest then Some (skip_punctuation rest) else None
  | None => None
  end.

(** [@?NAME\b[:,-]*], the [@] taken first and given back on failure *)
Definition match_at_name (name s : string) : option string :=
  match s with
  | String "@" s' =>
      match match_name_tail name s' with
      | Some rest => Some rest
      | None => match_name_tail name s
      end
  | _ => match_name_tail name s
  end.

(** [\s*@?NAME\b[:,-]*], the longest run of whitespace tried first *)
Fixpoint match_pattern (name s : string) : option string :=
  match s with
  | String c s' =>
      if is_space c
      then match match_pattern name s' with
           | Some rest => Some rest
           | None => match_at_name name s
           end
      else match_at_name name s
  | "" => match_at_name name s
  end.

(** [re.sub(pattern, ' ', message, flags=re.IGNORECASE)]: the pattern is
    anchored, so it matches at most once, at the start. *)
Definition sub_name (name message : string) : string :=
  match match_pattern name message with
  | Some rest => " " ++ rest
  | None => message
  end.

(** An entity of an activity.  [Activity().deserialize] makes objects of the
    class [Entity] of the entities of a request: the type is an attribute, the
    other properties are kept aside, and the class has no method [get].  An
    activity that is built by hand may hold mappings instead. *)
Inductive entity_value : Type :=
| Entity (type : pyval) (additional_properties : list (string * pyval))
| Mapping (v : pyval).

Definition no_get : exn :=
  Exn None "'Entity' object has no attribute 'get'".

(** [entity.get(k)] *)
Definition entity_get (entity : entity_value) (k : string) : exc pyval :=
  match entity with
  | Entity _ _ => Raise no_get
  | Mapping v => py_get v k
  end.

(** [entity.get(k, default)] *)
Definition entity_get_default (entity : entity_value) (k : string)
  (default : pyval) : exc pyval :=
  match entity with
  | Entity _ _ => Raise no_get
  | Mapping v => py_get_default v k default
  end.

(** The incoming activity, as far as the bot reads it.  [value_loads] is what
    [json.loads] makes of [value] when [value] is a string. *)
Record Activity : Type := {
  activity_text : option string;
  entities : list entity_value;
  recipient_name : option string;
  conversation : option string;
  value : pyval;
  value_loads : option pyval
}.

(** The loop that collects mention texts and names; an exception ends it and
    keeps what was collected. *)
Fixpoint collect_mentions (ents : list entity_value)
  (mention_texts mention_names : list pyval) : list pyval * list pyval :=
  match ents with
  | [] => (mention_texts, mention_names)
  | entity :: rest =>
      match entity_get entity "type" with
      | Raise _ => (mention_texts, mention_names)
      | Ok ty =>
          if negb (py_eq ty (PStr "mention"))
          then collect_mentions rest mention_texts mention_names
          else
            match entity_get entity "text" with
            | Raise _ => (mention_texts, mention_names)
            | Ok mention_text =>
                let mention_texts :=
                  if truthy mention_text
                  then (mention_texts ++ [mention_text])%list
                  else mention_texts in
                match (let? mentioned :=
                         entity_get_default entity "mentioned" (PDict []) in
                       py_get mentioned "name") with
                | Raise _ => (mention_texts, mention_names)
                | Ok name =>
                    collect_mentions rest mention_texts
                      (if truthy name then (mention_names ++ [name])%list
                       else mention_names)
                end
            end
      end
  end.

(** [for mention_text in mention_texts: message = message.replace(mention_text, ' ')] *)
Fixpoint remove_mentions (mention_texts : list pyval) (message : string)
  : exc string :=
  match mention_texts with
  | [] => Ok message
  | mention_text :: rest =>
      let? message := py_replace mention_text " " message in
      remove_mentions rest message
  end.

(** The names as strings; a name that is no string makes [set(...)] or
    [re.escape] raise. *)
Fixpoint str_names (names : list pyval) : exc (list string) :=
  match names with
  | [] => Ok []
  | PStr s :: rest => let? l := str_names rest in Ok (s :: l)
  | (PList _ | PDict _) as v :: _ => Raise (unhashable v)
  | v :: _ =>
      Raise (Exn None ("decoding to str: need a bytes-like object, "
                       ++ type_name v ++ " found"))
  end.

(** [for name in possible_names: ... message = re.sub(...)] *)
Fixpoint strip_names (names : list string) (message : string) : string :=
  match names with
  | [] => message
  | name :: rest =>
      strip_names rest
        (if String.eqb name "" then message else sub_name name message)
  end.

(** [order] is the order in which a set of strings is iterated. *)
Definition _extract_user_message (order : list string -> list string)
  (activity : Activity) : exc string :=
  match activity_text activity with
  | None | Some "" => Ok ""
  | Some message =>
      let '(mention_texts, mention_names) :=
        collect_mentions (entities activity) [] [] in
      let? message := remove_mentions mention_texts message in
      let message := replace "<at>Databricks Genie</at>" "" message in
      let? possible_names := str_names mention_names in
      let possible_names :=
        match recipient_name activity with
        | None | Some "" => possible_names
        | Some name => (possible_names ++ [name])%list
        end in
      Ok (strip (strip_names (order possible_names) message))
  end.

(** ** The bot: [TeamsBot] *)

(** What the bot sends to the chat. *)
Inductive sent_activity : Type :=
| Message (text : pyval)
| Typing
| FeedbackCard (conversation_id message_id : pyval).

(** The bot's state: [self.conversations], the network, and what was sent. *)
Record TeamsBot : Type := {
  conversations : gmap string pyval;
  wire : net;
  outbox : list sent_activity
}.

(** [await turn_context.send_activity(a)] *)
Definition send_activity (a : sent_activity) (bot : TeamsBot) : TeamsBot :=
  {| conversations := conversations bot;
     wire := wire bot;
     outbox := (outbox bot ++ [a])%list |}.

Definition say (t : string) (bot : TeamsBot) : TeamsBot :=
  send_activity (Message (PStr t)) bot.

(** Runs a client call on the bot's network. *)
Definition call (f : net -> pyval * net) (bot : TeamsBot) : pyval * TeamsBot :=
  let '(result, n) := f (wire bot) in
  (result, {| conversations := conversations bot; wire := n;
              outbox := outbox bot |}).

(** [self.conversations[conversation_id] = v] *)
Definition bind_conversation (conversation_id : string) (v : pyval)
  (bot : TeamsBot) : TeamsBot :=
  {| conversations := <[conversation_id := v]> (conversations bot);
     wire := wire bot;
     outbox := outbox bot |}.

Definition _send_response_with_feedback
  (response_text conversation_id message_id : pyval) (bot : TeamsBot)
  : TeamsBot :=
  let bot := send_activity (Message response_text) bot in
  if negb (truthy conversation_id) || negb (truthy message_id) then bot
  else send_activity (FeedbackCard conversation_id message_id) bot.

(** The [except] clause of [_handle_feedback]. *)
Definition feedback_failed (bot : TeamsBot) : TeamsBot :=
  say "Sorry, an error occurred while recording feedback." bot.

Definition _handle_feedback (self : GenieClient) (feedback_data : pyval)
  (bot : TeamsBot) : TeamsBot :=
  match (let? rating := py_get feedback_data "rating" in
         let? conversation_id := py_get feedback_data "conversation_id" in
         let? message_id := py_get feedback_data "message_id" in
         Ok (rating, conversation_id, message_id)) with
  | Raise _ => feedback_failed bot
  | Ok (rating, conversation_id, message_id) =>
      if negb (truthy rating && truthy conversation_id && truthy message_id)
      then say "Sorry, couldn't record your feedback." bot
      else
        let '(result, bot) :=
          call (send_feedback self conversation_id message_id rating) bot in
        match py_get result "status" with
        | Raise _ => feedback_failed bot
        | Ok st =>
            if py_eq st (PStr "success")
            then say "Thanks for your feedback!" bot
            else say "Sorry, couldn't record feedback." bot
        end
  end.

(** The feedback data of an activity whose [value] is truthy: the value
    itself when it is a dict, what [json.loads] gives otherwise; [None] when
    the [try] block raises or the action is not [feedback]. *)
Definition feedback_of (activity : Activity) : option pyval :=
  if negb (truthy (value activity)) then None else
  let loaded :=
    match value activity with
    | PDict _ => Some (value activity)
    | PStr _ => value_loads activity
    | _ => None
    end in
  match loaded with
  | Some feedback_data =>
      match py_get feedback_data "action" with
      | Ok action =>
          if py_eq action (PStr "feedback") then Some feedback_data else None
      | Raise _ => None
      end
  | None => None
  end.

(** The outer [except] clause of [_on_message_activity]. *)
Definition message_failed (bot : TeamsBot) : TeamsBot :=
  say "Sorry, I encountered an unexpected error. Please try again." bot.

(** [if genie_conversation_id:] on [self.conversations.get(conversation_id)] *)
Definition bound_conversation (bot : TeamsBot) (conversation_id : string)
  : option pyval :=
  match conversations bot !! conversation_id with
  | Some genie_conversation_id =>
      if truthy genie_conversation_id then Some genie_conversation_id else None
  | None => None
  end.

(** Sending the result back to the user. *)
Definition deliver (result : pyval) (bot : TeamsBot) : TeamsBot :=
  if negb (truthy result) then
    say "Sorry, I didn't get a response. Please try again." bot
  else
    match py_get result "status" with
    | Raise _ => message_failed bot
    | Ok st =>
        if py_eq st (PStr "success") then
          match (let? response_text :=
                   py_get_default result "response"
                     (PStr "I received your question but got no response.") in
                 let? genie_conversation_id := py_get result "conversation_id" in
                 let? genie_message_id := py_get result "message_id" in
                 Ok (response_text, genie_conversation_id, genie_message_id)) with
          | Raise _ => message_failed bot
          | Ok (response_text, genie_conversation_id, genie_message_id) =>
              _send_response_with_feedback response_text genie_conversation_id
                genie_message_id bot
          end
        else
          match py_get_default result "error" (PStr "Unknown error") with
          | Raise _ => message_failed bot
          | Ok error_message =>
              say ("Sorry, I encountered an error: " ++ py_str error_message
                   ++ nl ++ nl
                   ++ "Please make sure your Databricks Genie Space is properly configured.")
                bot
          end
    end.

(** From the lookup in [self.conversations] to the end of the handler. *)
Definition route_message (self : GenieClient)
  (conversation_id user_message : string) (bot : TeamsBot) : TeamsBot :=
  match bound_conversation bot conversation_id with
  | Some genie_conversation_id =>
      let '(result, bot) :=
        call (continue_conversation self genie_conversation_id user_message) bot in
      deliver result bot
  | None =>
      let '(result, bot) := call (ask_question self user_message) bot in
      if negb (truthy result) then deliver result bot else
      match py_get result "conversation_id" with
      | Raise _ => message_failed bot
      | Ok stored =>
          deliver result
            (if truthy stored then bind_conversation conversation_id stored bot
             else bot)
      end
  end.

(** [conversation_id]: the activity's conversation id, ["default"] without
    one. *)
Definition local_conversation_id (activity : Activity) : string :=
  match conversation activity with
  | None | Some "" => "default"
  | Some id => id
  end.

Definition _on_message_activity (self : GenieClient)
  (order : list string -> list string) (activity : Activity) (bot : TeamsBot)
  : TeamsBot :=
  match feedback_of activity with
  | Some feedback_data => _handle_feedback self feedback_data bot
  | None =>
      match _extract_user_message order activity with
      | Raise _ => message_failed bot
      | Ok "" => say "Please send me a question about your data." bot
      | Ok user_message =>
          let conversation_id := local_conversation_id activity in
          let bot := send_activity Typing bot in
          route_message self conversation_id user_message bot
      end
  end.

(** A fresh bot on a network with the given script. *)
Definition new_bot (script : list outcome) : TeamsBot :=
  {| conversations := ∅;
     wire := {| pending := script; log := [] |};
     outbox := [] |}.

(** The network's outcomes for the time to come are [script]. *)
Definition supply (script : list outcome) (bot : TeamsBot) : TeamsBot :=
  {| conversations := conversations bot;
     wire := {| pending := script; log := log (wire bot) |};
     outbox := outbox bot |}.

(** The states a bot goes through: it starts fresh and handles one message
    activity after the other, on whatever the network does. *)
Inductive reachable : TeamsBot -> Prop :=
| reachable_new script : reachable (new_bot script)
| reachable_supply script bot :
    reachable bot -> reachable (supply script bot)
| reachable_message self order activity bot :
    reachable bot -> reachable (_on_message_activity self order activity bot).

(** ** Turns: [TeamsBot._on_turn] and [TeamsBot._on_conversation_update] *)

(** [activity.type], as far as [_on_turn] tells the types apart. *)
Inductive activity_type : Type :=
| MessageType
| ConversationUpdateType
| OtherType (name : string).

(** A turn: the activity with its type, the ids of the members added, the
    id of the recipient ([None] when the activity has no recipient), and the
    channel. *)
Record Turn : Type := {
  turn_type : activity_type;
  turn_activity : Activity;
  members_added : list (option string);
  recipient_id : option (option string);
  channel_id : option string
}.

(** The greeting of [_on_conversation_update]. *)
Definition welcome : string :=
  "Hello! I'm your Databricks Genie assistant. "
  ++ "Ask me questions about your data, and I'll help you find insights!".

(** The loop over the members added, [recipient] being the id of the
    recipient. *)
Fixpoint welcome_loop (members : list (option string))
  (recipient : option string) (bot : TeamsBot) : TeamsBot :=
  match members with
  | [] => bot
  | member :: rest =>
      welcome_loop rest recipient
        (if decide (member = recipient) then bot else say welcome bot)
  end.

(** Without a recipient the first comparison raises, and the [except] clause
    ends the handler. *)
Definition _on_conversation_update (turn : Turn) (bot : TeamsBot) : TeamsBot :=
  match members_added turn with
  | [] => bot
  | members =>
      match recipient_id turn with
      | None => bot
      | Some recipient => welcome_loop members recipient bot
      end
  end.

(** The dispatch on the type of the activity.  Neither handler raises, so
    the [except] clause of [_on_turn] is never entered. *)
Definition _on_turn (self : GenieClient) (order : list string -> list string)
  (turn : Turn) (bot : TeamsBot) : TeamsBot :=
  match turn_type turn with
  | MessageType => _on_message_activity self order (turn_activity turn) bot
  | ConversationUpdateType => _on_conversation_update turn bot
  | OtherType _ => bot
  end.

(** ** Requests: [TeamsBot.handle_request] *)

(** An exception as the entry points tell them apart: a [ValueError], a
    [KeyError] or any other [Exception], with [str(e)]. *)
Inductive raised : Type :=
| ValueError (message : string)
| KeyError (message : string)
| OtherException (message : string).

(** [str(e)] *)
Definition raised_text (e : raised) : string :=
  match e with
  | ValueError m | KeyError m | OtherException m => m
  end.

(** What [adapter.process_activity] does with an activity: whether it runs
    the bot's logic, and the exception it raises, if any. *)
Record adapter_outcome : Type := {
  runs_logic : bool;
  raises : option raised
}.

(** The Bot Framework adapter, as far as the handler depends on it:
    [Activity().deserialize(req_body)] gives a turn or raises, and
    [process_activity] has an outcome for a turn and an authorization
    header. *)
Record Adapter : Type := {
  deserialize : pyval -> raised + Turn;
  process_activity : Turn -> string -> adapter_outcome
}.

(** What [handle_request] returns when nothing was raised. *)
Definition activity_processed : pyval :=
  PDict [("status", PStr "ok"); ("message", PStr "Activity processed")].

(** The outer [except] clause of [handle_request]. *)
Definition request_failed (e : raised) : pyval :=
  let error_msg := raised_text e in
  if contains "access_token" error_msg || contains "KeyError" error_msg then
    PDict [("status", PStr "error");
           ("error",
            PStr ("Bot authentication failed. Please verify your "
                  ++ "MICROSOFT_APP_ID and MICROSOFT_APP_PASSWORD are correct."));
           ("details", PStr error_msg)]
  else
    PDict [("status", PStr "error"); ("error", PStr error_msg)].

(** [activity.channel_id == 'emulator' or activity.channel_id == 'webchat'] *)
Definition test_channel (turn : Turn) : bool :=
  match channel_id turn with
  | Some c => String.eqb c "emulator" || String.eqb c "webchat"
  | None => false
  end.

(** [bot_logic] is [_on_turn], which does not raise.  A [KeyError] that
    names [access_token] is passed over on the two test channels, where the
    logic is run without the adapter; every other exception reaches the outer
    [except] clause. *)
Definition handle_request (self : GenieClient)
  (order : list string -> list string) (adapter : Adapter)
  (req_body : pyval) (auth_header : string) (bot : TeamsBot)
  : pyval * TeamsBot :=
  match deserialize adapter req_body with
  | inl e => (request_failed e, bot)
  | inr turn =>
      let bot_logic := _on_turn self order turn in
      let outcome := process_activity adapter turn auth_header in
      let bot := if runs_logic outcome then bot_logic bot else bot in
      match raises outcome with
      | None => (activity_processed, bot)
      | Some (KeyError m) =>
          if contains "access_token" m then
            if test_channel turn then (activity_processed, bot_logic bot)
            else (request_failed (KeyError m), bot)
          else (request_failed (KeyError m), bot)
      | Some e => (request_failed e, bot)
      end
  end.

(** ** Configuration: [Config.validate] *)

(** The class attributes of [Config], read from the environment when the
    module is loaded; a variable that is not set gives the empty string. *)
Record Config : Type := {
  DATABRICKS_HOST : string;
  DATABRICKS_CLIENT_ID : string;
  DATABRICKS_CLIENT_SECRET : string;
  DATABRICKS_TENANT_ID : string;
  DATABRICKS_GENIE_SPACE_ID : string;
  MICROSOFT_APP_ID : string;
  MICROSOFT_APP_PASSWORD : string;
  MICROSOFT_APP_TENANT_ID : string;
  LOG_LEVEL : string
}.

(** The list [required] of [Config.validate]. *)
Definition required (cls : Config) : list (string * string) :=
  [("DATABRICKS_HOST", DATABRICKS_HOST cls);
   ("DATABRICKS_CLIENT_ID", DATABRICKS_CLIENT_ID cls);
   ("DATABRICKS_CLIENT_SECRET", DATABRICKS_CLIENT_SECRET cls);
   ("DATABRICKS_TENANT_ID", DATABRICKS_TENANT_ID cls);
   ("DATABRICKS_GENIE_SPACE_ID", DATABRICKS_GENIE_SPACE_ID cls);
   ("MICROSOFT_APP_ID", MICROSOFT_APP_ID cls);
   ("MICROSOFT_APP_PASSWORD", MICROSOFT_APP_PASSWORD cls)].

(** [[name for name, value in required if not value]] *)
Fixpoint missing_names (required : list (string * string)) : list string :=
  match required with
  | [] => []
  | (name, value) :: rest =>
      if String.eqb value "" then name :: missing_names rest
      else missing_names rest
  end.

(** [Config.validate()] *)
Definition validate (cls : Config) : raised + bool :=
  match missing_names (required cls) with
  | [] => inr true
  | missing =>
      inl (ValueError ("Missing required configuration: " ++ join ", " missing))
  end.

(** ** The client: [GenieClient.__init__] *)

(** [host.rstrip("/")] *)
Fixpoint rstrip_slash (s : string) : string :=
  match s with
  | "" => ""
  | String c s' =>
      match rstrip_slash s' with
      | "" => if Ascii.eqb c "/" then "" else String c ""
      | t => String c t
      end
  end.

(** The fields of the client that the requests are built from. *)
Definition new_client (host client_id space_id : string) : GenieClient :=
  {| host := rstrip_slash host; space_id := space_id; client_id := client_id |}.

(** ** The entry points: [function_app.py] and [containerapp/app.py] *)

(** The response of an endpoint: its status code and its JSON body. *)
Record http_response : Type := {
  status_code : Z;
  content : pyval
}.

(** The two [except] clauses of [messages]. *)
Definition error_response (e : raised) : http_response :=
  match e with
  | ValueError m =>
      {| status_code := 400;
         content := PDict [("error", PStr "Invalid request");
                           ("details", PStr m)] |}
  | _ =>
      {| status_code := 500;
         content := PDict [("error", PStr "Internal server error");
                           ("details", PStr (raised_text e))] |}
  end.

(** The response of [messages] when the handler has returned. *)
Definition ok_response (result : pyval) : http_response :=
  {| status_code := 200;
     content := PDict [("status", PStr "ok"); ("result", result)] |}.

(** [get_bot()]: the bot of the process, created on first use from the
    configuration; [server] is the global [_bot]. *)
Definition get_bot (cls : Config) (server : option (GenieClient * TeamsBot))
  : raised + GenieClient * TeamsBot :=
  match server with
  | Some bot => inr bot
  | None =>
      match validate cls with
      | inl e => inl e
      | inr _ =>
          inr (new_client (DATABRICKS_HOST cls) (DATABRICKS_CLIENT_ID cls)
                          (DATABRICKS_GENIE_SPACE_ID cls),
               new_bot [])
      end
  end.

(** [messages] of the Function App: the bot first, then the body.  [body] is
    what [req.get_json()] gives, [script] what the network does while the
    request is handled. *)
Definition function_app_messages (cls : Config)
  (order : list string -> list string) (adapter : Adapter)
  (script : list outcome) (body : raised + pyval) (auth_header : string)
  (server : option (GenieClient * TeamsBot))
  : http_response * option (GenieClient * TeamsBot) :=
  match get_bot cls server with
  | inl e => (error_response e, server)
  | inr (genie, bot) =>
      match body with
      | inl e => (error_response e, Some (genie, bot))
      | inr req_body =>
          let '(result, bot) :=
            handle_request genie order adapter req_body auth_header
              (supply script bot) in
          (ok_response result, Some (genie, bot))
      end
  end.

(** [messages] of the Container App: the body first, then the bot. *)
Definition containerapp_messages (cls : Config)
  (order : list string -> list string) (adapter : Adapter)
  (script : list outcome) (body : raised + pyval) (auth_header : string)
  (server : option (GenieClient * TeamsBot))
  : http_response * option (GenieClient * TeamsBot) :=
  match body with
  | inl e => (error_response e, server)
  | inr req_body =>
      match get_bot cls server with
      | inl e => (error_response e, server)
      | inr (genie, bot) =>
          let '(result, bot) :=
            handle_request genie order adapter req_body auth_header
              (supply script bot) in
          (ok_response result, Some (genie, bot))
      end
  end.

(** * Specification vocabulary *)

(** ** Tables *)

(** A query result with the given column names and rows, as the remote
    service sends it. *)
Definition query_result (columns : list string) (rows : list (list pyval))
  : pyval :=
  PDict [("statement_response",
          PDict [("manifest",
                  PDict [("schema",
                          PDict [("columns",
                                  PList (map (fun c => PDict [("name", PStr c)])
                                             columns))])]);
                 ("result", PDict [("data_array", PList (map PList rows))])])].

(** The widths of the cells that the rows have in column [i]. *)
Definition column_cells (i : nat) (rows : list (list pyval)) : list nat :=
  omap (fun row : list pyval => cell_width <$> row !! i) rows.

(** The width of column [i]: the largest of the header and the cells. *)
Definition column_width (i : nat) (header : string) (rows : list (list pyval))
  : nat :=
  Nat.max (String.length header) (max_list (column_cells i rows)).

(** The column names: those of the schema, [Column 1..N] from the arity of
    the first row when the schema has none. *)
Definition header_names (cols : list string) (rows : list (list pyval))
  : list string :=
  match cols with
  | [] => map (fun i => "Column " ++ str_of_nat (i + 1))
              (seq 0 (length (hd [] rows)))
  | _ => cols
  end.

(** The table as the specification describes it: a fenced block with the
    header, the rule and one line per row shown, every cell left-justified to
    the width of its column, and the lines of [suffix] after the fence. *)
Definition rendered_table (names : list string) (shown : list (list pyval))
  (suffix : list string) : string :=
  let widths := imap (fun i name => column_width i name shown) names in
  join nl
    ([nl +:+ "```";
      join " | " (zip_with ljust names widths);
      join "-+-" (map (repeat_char "-"%char) widths)]
     ++ map (fun row =>
               join " | " (zip_with (fun v w => ljust (cell_text v) w) row widths))
            shown
     ++ ["```"] ++ suffix)%list.

(** ** Response assembly *)

(** The filter of the source on two strings, as a boolean. *)
Definition kept (question t : string) : bool :=
  negb (String.eqb t "") && negb (String.eqb t question)
  && (10 <? String.length t).

(** The explanatory text [t] passes the filter, [question] being the user's
    question. *)
Definition passes (question t : string) : Prop :=
  t <> "" /\ t <> question /\ 10 < String.length t.

#[local] Instance passes_dec question t : Decision (passes question t).
Proof. unfold passes. apply _. Defined.

(** A string or [None]. *)
Definition text_or_none (v : pyval) : Prop :=
  v = PNone \/ exists t, v = PStr t.

(** An attachment as the data model has it: when it is an object, its
    explanatory text is a string or absent. *)
Definition conforming_attachment (attachment : pyval) : Prop :=
  is_dict attachment = true ->
  exists v, explanation attachment = Ok v /\ text_or_none v.

(** A message payload as the data model has it: a dict whose attachments, if
    it has any, are a list of such attachments. *)
Definition conforming (data : pyval) : Prop :=
  exists d,
    data = PDict d /\
    match dict_get d "attachments" with
    | None => True
    | Some attachments =>
        exists l, attachments = PList l /\ Forall conforming_attachment l
    end.

(** ** Polling *)

(** The request one polling attempt sends. *)
Definition get_message (conversation_id message_id : pyval) : request :=
  GetMessage (py_str conversation_id) (py_str message_id).

(** The network after a request [r] was answered from a script [o :: rest]. *)
Definition answered (r : request) (rest : list outcome) (lg : list event) : net :=
  {| pending := rest; log := (lg ++ [Sent r])%list |}.

(** The network after a sleep. *)
Definition slept (n : net) : net :=
  {| pending := pending n; log := (log n ++ [Slept])%list |}.

(** A polled answer that carries the status [st] in the payload [data]. *)
Definition polled (a : response) (data st : pyval) : Prop :=
  (status a < 400)%Z /\
  json a = Ok data /\
  py_get_default data "status" (PStr "") = Ok st.

(** An attempt whose request fails, whose answer is an HTTP error, or whose
    payload has no readable status: the [try] block raises. *)
Definition transient (o : outcome) : bool :=
  match o with
  | NetFail _ => true
  | Answer a =>
      (400 <=? status a)%Z ||
      match json a with
      | Raise _ => true
      | Ok data =>
          match py_get_default data "status" (PStr "") with
          | Raise _ => true
          | Ok _ => false
          end
      end
  end.

(** An attempt that observes a status outside the two terminal sets. *)
Definition non_terminal (o : outcome) : bool :=
  match o with
  | NetFail _ => false
  | Answer a =>
      (status a <? 400)%Z &&
      match json a with
      | Raise _ => false
      | Ok data =>
          match py_get_default data "status" (PStr "") with
          | Raise _ => false
          | Ok st =>
              negb (in_list st success_statuses)
              && negb (in_list st failure_statuses)
          end
      end
  end.

(** A run of attempts none of which observes a terminal status: every one
    is non-terminal or, unless it is the last, transient. *)
Fixpoint never_terminal (os : list outcome) : bool :=
  match os with
  | [] => true
  | [o] => non_terminal o
  | o :: os' => (non_terminal o || transient o) && never_terminal os'
  end.

(** The events of [k] attempts that each send [r] and sleep. *)
Definition attempts (r : request) (k : nat) : list event :=
  concat (replicate k [Sent r; Slept]).

(** ** The event log *)

(** The events of polling and response assembly. *)
Definition polling (e : event) : Prop :=
  match e with
  | Sent (GetMessage _ _) | Sent (GetQueryResult _ _ _) | Slept => True
  | _ => False
  end.

(** [n'] has the log of [n] and then events that all satisfy [P]. *)
Definition extends (P : event -> Prop) (n n' : net) : Prop :=
  exists evs, log n' = (log n ++ evs)%list /\ Forall P evs.

(** A computation that only adds events that satisfy [P] to the log. *)
Definition emits {A} (P : event -> Prop) (m : M A) : Prop :=
  forall n, extends P n (snd (m n)).

(** The handler starts a conversation when its new events hold a
    start-conversation request. *)
Definition starts (evs : list event) : Prop :=
  exists content, Sent (StartConversation content) ∈ evs.

(** ** Results and bindings *)

(** A result built by [error_result]: it has no [conversation_id]. *)
Definition is_error_result (result : pyval) : Prop :=
  exists e t, result = error_result e t.

(** The start-conversation call errors: the request fails, the answer is an
    HTTP error, its body is no JSON, or an id is missing from it. *)
Definition start_errors (script : list outcome) : bool :=
  match script with
  | [] | NetFail _ :: _ => true
  | Answer a :: _ =>
      (400 <=? status a)%Z ||
      match json a with
      | Raise _ => true
      | Ok data =>
          match py_get_default data "conversation_id" (PStr ""),
                py_get_default data "message_id" (PStr "") with
          | Ok conv, Ok msg => negb (truthy conv) || negb (truthy msg)
          | _, _ => true
          end
      end
  end.

(** The answer to the start-conversation call carries both ids. *)
Definition starts_with (a : response) (conv msg : pyval) : Prop :=
  (status a < 400)%Z /\
  exists data,
    json a = Ok data /\
    py_get_default data "conversation_id" (PStr "") = Ok conv /\
    py_get_default data "message_id" (PStr "") = Ok msg /\
    truthy conv = true /\ truthy msg = true.

(** Every binding holds a truthy remote id. *)
Definition bindings_truthy (bot : TeamsBot) : Prop :=
  forall cid rid, conversations bot !! cid = Some rid -> truthy rid = true.

(** ** Feedback *)

(** [feedback_data.get(k)] *)
Definition field (d : list (string * pyval)) (k : string) : pyval :=
  match dict_get d k with
  | Some v => v
  | None => PNone
  end.

(** A field is missing or empty. *)
Definition missing (d : list (string * pyval)) (k : string) : bool :=
  match dict_get d k with
  | Some v => negb (truthy v)
  | None => true
  end.

(** The requests a feedback event leads to: one, when all three fields are
    there and the rating is a string. *)
Definition feedback_requests (d : list (string * pyval)) : list event :=
  match dict_get d "rating", dict_get d "conversation_id",
        dict_get d "message_id" with
  | Some (PStr rating), Some conv, Some msg =>
      if negb (String.eqb rating "") && truthy conv && truthy msg
      then [Sent (PostFeedback (py_str conv) (py_str msg) (upper rating))]
      else []
  | _, _, _ => []
  end.

(** A lower-case letter. *)
Definition is_lower (c : ascii) : bool :=
  (97 <=? nat_of_ascii c) && (nat_of_ascii c <=? 122).

(** The capital of a letter, read off the two alphabets; any other
    character is its own capital. *)
Fixpoint capital_in (small capitals : string) (c : ascii) : ascii :=
  match small, capitals with
  | String l small', String u capitals' =>
      if Ascii.eqb c l then u else capital_in small' capitals' c
  | _, _ => c
  end.

Definition capital (c : ascii) : ascii :=
  capital_in "abcdefghijklmnopqrstuvwxyz" "ABCDEFGHIJKLMNOPQRSTUVWXYZ" c.

(** The text in upper case: every letter replaced by its capital. *)
Definition capitals (t : string) : string :=
  string_of_list_ascii (map capital (list_ascii_of_string t)).

(** ** Text normalisation *)

(** An iteration order of sets: each element once, in some order. *)
Definition set_order (order : list string -> list string) : Prop :=
  forall l, order l ≡ₚ remove_dups l.

(** The activity comes from [Activity().deserialize]: its entities are
    objects of the class [Entity]. *)
Definition deserialized (activity : Activity) : Prop :=
  Forall (fun entity => exists type properties, entity = Entity type properties)
         (entities activity).

(** Two strings that differ in the case of their letters only. *)
Definition same_letters (name shown : string) : Prop :=
  map lower_char (list_ascii_of_string name)
  = map lower_char (list_ascii_of_string shown).

(** The last character of [s], [before] when [s] is empty. *)
Fixpoint last_char (s : string) (before : option ascii) : option ascii :=
  match s with
  | "" => before
  | String c s' => last_char s' (Some c)
  end.

(** The recipient's name, when the activity has one. *)
Definition recipient_names (activity : Activity) : list string :=
  match recipient_name activity with
  | None | Some "" => []
  | Some name => [name]
  end.

(** ** Tables, line by line *)

(** [statement_response.result.data_array] of a payload, when every step of
    the path is a dict that has the next key. *)
Definition data_array (result_data : pyval) : option pyval :=
  match result_data with
  | PDict d =>
      match dict_get d "statement_response" with
      | Some (PDict stmt) =>
          match dict_get stmt "result" with
          | Some (PDict result) => dict_get result "data_array"
          | _ => None
          end
      | _ => None
      end
  | _ => None
  end.

(** The widths, the header line, the rule and the row lines of a table. *)
Definition table_widths (names : list string) (shown : list (list pyval))
  : list nat :=
  imap (fun i name => column_width i name shown) names.

Definition table_header (names : list string) (shown : list (list pyval))
  : string :=
  join " | " (zip_with ljust names (table_widths names shown)).

Definition table_rule (names : list string) (shown : list (list pyval))
  : string :=
  join "-+-" (map (repeat_char "-"%char) (table_widths names shown)).

Definition table_body (names : list string) (shown : list (list pyval))
  : list string :=
  map (fun row =>
         join " | " (zip_with (fun v w => ljust (cell_text v) w) row
                       (table_widths names shown)))
      shown.

(** The length every line of a table with these column widths has. *)
Definition line_length (widths : list nat) : nat :=
  sum_list widths + 3 * (length widths - 1).

(** ** Query results in the answer *)

(** [attachment.get("attachment_id") or attachment.get("id")] *)
Definition attachment_id (attachment : pyval) : exc pyval :=
  let? id1 := py_get attachment "attachment_id" in
  if truthy id1 then Ok id1 else py_get attachment "id".



(** The request that fetches the query result of an attachment. *)
Definition query_result_request (conversation_id message_id attachment_id : pyval)
  : event :=
  Sent (GetQueryResult (py_str conversation_id) (py_str message_id)
                       (py_str attachment_id)).

(** The attachments of a message payload. *)
Definition attachments_of (message_data : pyval) : list pyval :=
  match message_data with
  | PDict d =>
      match dict_get d "attachments" with
      | Some (PList l) => l
      | _ => []
      end
  | _ => []
  end.

(** The ids of the attachments that have one, in order. *)
Definition query_ids (attachments : list pyval) : list pyval :=
  omap (fun attachment =>
          if is_dict attachment then
            match attachment_id attachment with
            | Ok id => if truthy id then Some id else None
            | Raise _ => None
            end
          else None)
       attachments.

(** The answer assembled from the parts [parts]. *)
Definition assembled (parts : list string) : string :=
  match parts with
  | [] => apology
  | _ => join (nl ++ nl) parts
  end.

(** An attachment as the assembly reads it: [None] for a value that is no
    dict, else the explanatory text, when there is one, and the id. *)
Definition viewed (attachment : pyval) (view : option (option string * pyval))
  : Prop :=
  match view with
  | None => is_dict attachment = false
  | Some (text, id) =>
      is_dict attachment = true /\
      explanation attachment
        = Ok (match text with Some t => PStr t | None => PNone end) /\
      attachment_id attachment = Ok id
  end.

(** What an explanatory text adds to the answer: itself when it passes the
    filter, nothing otherwise. *)
Definition included (question : string) (text : option string) : list string :=
  match text with
  | Some t => if decide (passes question t) then [t] else []
  | None => []
  end.

(** What the outcome of a query-result request adds to the answer: the
    table that the payload renders as, when the status is 200 and there is
    one. *)
Definition table_of (o : outcome) : list string :=
  match o with
  | NetFail _ => []
  | Answer a =>
      if (status a =? 200)%Z then
        match json a with
        | Ok result_data =>
            if String.eqb (_format_query_result result_data) "" then []
            else [_format_query_result result_data]
        | Raise _ => []
        end
      else []
  end.

(** The parts of the answer: for every attachment its text, when it passes
    the filter, and then the table of its query result, the requests taking
    their outcomes from [script] in order. *)
Fixpoint answer_parts (question : string)
  (views : list (option (option string * pyval))) (script : list outcome)
  : list string :=
  match views with
  | [] => []
  | None :: rest => answer_parts question rest script
  | Some (text, id) :: rest =>
      (included question text
       ++ if truthy id then
            match script with
            | [] => answer_parts question rest []
            | o :: script' => table_of o ++ answer_parts question rest script'
            end
          else answer_parts question rest script)%list
  end.

(** ** The budget of the poller *)

(** The number of events of [evs] that satisfy [f]. *)
Fixpoint count_events (f : event -> bool) (evs : list event) : nat :=
  match evs with
  | [] => 0
  | e :: evs' => (if f e then 1 else 0) + count_events f evs'
  end.

(** A polling request; a sleep; a fetch of a query result. *)
Definition is_poll (e : event) : bool :=
  match e with Sent (GetMessage _ _) => true | _ => false end.

Definition is_sleep (e : event) : bool :=
  match e with Slept => true | _ => false end.

Definition fetching (e : event) : Prop :=
  match e with Sent (GetQueryResult _ _ _) => True | _ => False end.

(** The exception one polling attempt raises on the outcome [o], if it
    raises before it reads a status. *)
Definition attempt_error (self : GenieClient) (r : request) (o : outcome)
  : option exn :=
  match o with
  | NetFail e => Some e
  | Answer a =>
      if (400 <=? status a)%Z then Some (client_response_error self r a)
      else match json a with
           | Raise e => Some e
           | Ok data =>
               match py_get_default data "status" (PStr "") with
               | Raise e => Some e
               | Ok _ => None
               end
           end
  end.

(** An attempt that does not end the polling when others remain. *)
Definition keeps_polling (o : outcome) : Prop :=
  non_terminal o || transient o = true.

(** ** Replies and runs of the bot *)

(** The handlers of one bot interleave: a handler that has a question
    reads the binding of its local id, awaits the call of the client and
    goes on when the call returns, and other handlers run in between.  A
    [flight] is such a handler at its [await]: it awaits
    [ask_question], having found no binding, or [continue_conversation] on
    the remote id it has read. *)
Inductive flight : Type :=
| Starting (self : GenieClient) (conversation_id user_message : string)
| Continuing (self : GenieClient) (conversation_id : string)
    (genie_conversation_id : pyval) (user_message : string).

(** The lookup in [self.conversations] and the call that the handler
    awaits. *)
Definition await_call (self : GenieClient)
  (conversation_id user_message : string) (bot : TeamsBot) : flight :=
  match bound_conversation bot conversation_id with
  | Some genie_conversation_id =>
      Continuing self conversation_id genie_conversation_id user_message
  | None => Starting self conversation_id user_message
  end.

(** The rest of the handler, from the return of the call: the binding is
    written when a start returns a conversation id, and the result is
    delivered.  The requests of the call are logged when it returns. *)
Definition resume (f : flight) (bot : TeamsBot) : TeamsBot :=
  match f with
  | Continuing self _ genie_conversation_id user_message =>
      let '(result, bot) :=
        call (continue_conversation self genie_conversation_id user_message) bot in
      deliver result bot
  | Starting self conversation_id user_message =>
      let '(result, bot) := call (ask_question self user_message) bot in
      if negb (truthy result) then deliver result bot else
      match py_get result "conversation_id" with
      | Raise _ => message_failed bot
      | Ok stored =>
          deliver result
            (if truthy stored then bind_conversation conversation_id stored bot
             else bot)
      end
  end.

(** The local id of a start in flight. *)
Definition starting (f : flight) : option string :=
  match f with
  | Starting _ conversation_id _ => Some conversation_id
  | Continuing _ _ _ _ => None
  end.

(** No start is in flight for the local id [cid]. *)
Definition none_starting (cid : string) (flights : list flight) : Prop :=
  Forall (fun f => starting f <> Some cid) flights.

(** The question of a message activity: what the handler sends to the
    client; [None] for a feedback event, a blank message and a message whose
    normalisation raises. *)
Definition asks (order : list string -> list string) (activity : Activity)
  : option string :=
  match feedback_of activity with
  | Some _ => None
  | None =>
      match _extract_user_message order activity with
      | Ok "" | Raise _ => None
      | Ok user_message => Some user_message
      end
  end.

(** The interleaved runs of a bot with the flights [flights]: the network
    is given new outcomes; a question arrives, the typing indicator is sent,
    the binding read and the call goes in flight; a call in flight returns
    and its handler goes on; an activity without a question, whose handler
    neither reads nor writes a binding, is handled. *)
Inductive interleaved (bot : TeamsBot) (flights : list flight)
  : TeamsBot -> list flight -> Prop :=
| interleaved_refl : interleaved bot flights bot flights
| interleaved_supply script bot' flights' :
    interleaved bot flights bot' flights' ->
    interleaved bot flights (supply script bot') flights'
| interleaved_arrive self order activity user_message bot' flights' :
    interleaved bot flights bot' flights' ->
    asks order activity = Some user_message ->
    interleaved bot flights (send_activity Typing bot')
      (flights'
       ++ [await_call self (local_conversation_id activity) user_message
             (send_activity Typing bot')])%list
| interleaved_resume f before after bot' :
    interleaved bot flights bot' (before ++ f :: after)%list ->
    interleaved bot flights (resume f bot') (before ++ after)%list
| interleaved_other self order activity bot' flights' :
    interleaved bot flights bot' flights' ->
    asks order activity = None ->
    interleaved bot flights (_on_message_activity self order activity bot')
      flights'.

(** What the user reads when a call returns an error result. *)
Definition error_reply (error : string) : sent_activity :=
  Message
    (PStr ("Sorry, I encountered an error: " ++ error ++ nl ++ nl
           ++ "Please make sure your Databricks Genie Space is "
           ++ "properly configured.")).

(** The call a question leads to: a follow-up on a bound conversation, a
    start otherwise. *)
Definition question_call (self : GenieClient) (bot : TeamsBot)
  (conversation_id question : string) : pyval * net :=
  match bound_conversation bot conversation_id with
  | Some genie_conversation_id =>
      continue_conversation self genie_conversation_id question (wire bot)
  | None => ask_question self question (wire bot)
  end.

(** The feedback request is sent and answered without an HTTP error. *)
Definition feedback_accepted (d : list (string * pyval))
  (script : list outcome) : Prop :=
  feedback_requests d <> [] /\
  exists a rest, script = Answer a :: rest /\ (status a < 400)%Z.

(** The value of a button of the feedback card, before [json.dumps]. *)
Definition button_value (rating : string) (conversation_id message_id : pyval)
  : pyval :=
  PDict [("action", PStr "feedback"); ("rating", PStr rating);
         ("conversation_id", conversation_id); ("message_id", message_id)].

(** The activity is a click on a button with that value: the value comes
    back as it is, or as the JSON text of it. *)
Definition clicks (activity : Activity) (button : pyval) : Prop :=
  truthy button = true /\
  (value activity = button \/
   exists s, value activity = PStr s /\ s <> "" /\
             value_loads activity = Some button).

(** A feedback card carries two truthy ids. *)
Definition card_has_ids (a : sent_activity) : Prop :=
  match a with
  | FeedbackCard conversation_id message_id =>
      truthy conversation_id = true /\ truthy message_id = true
  | _ => True
  end.

(** ** Blank messages *)

(** A string of whitespace only. *)
Definition blank (s : string) : Prop :=
  Forall (fun c => is_space c = true) (list_ascii_of_string s).

(** An activity without text, or with a text of whitespace only. *)
Definition blank_text (activity : Activity) : Prop :=
  match activity_text activity with
  | None => True
  | Some raw => blank raw
  end.

(** What the bot answers to a message without a question. *)
Definition prompt : string := "Please send me a question about your data.".

(** ** Turns *)

(** The members a conversation update welcomes: all but the bot itself. *)
Definition newcomers (turn : Turn) : list (option string) :=
  match recipient_id turn with
  | None => []
  | Some recipient =>
      filter (fun member => member <> recipient) (members_added turn)
  end.

(** ** Worked examples *)

(** The result of the example: two columns, two rows, one missing cell. *)
Definition example_result : pyval :=
  query_result ["id"; "name"] [[PInt 1; PStr "a"]; [PInt 2; PNone]].

(** Fifteen rows of two cells. *)
Definition fifteen : list (list pyval) :=
  map (fun i => [PInt (Z.of_nat i); PStr "x"]) (seq 1 15).

(** A client, a well-formed answer and a plain question for the worked
    runs. *)
Definition genie : GenieClient :=
  {| host := "https://adb.example.net"; space_id := "sales"; client_id := "app-1" |}.

Definition ok_json (v : pyval) : response :=
  {| status := 200; reason := "OK"; text := ""; loads := None; json := Ok v |}.

Definition question (cid t : string) : Activity :=
  {| activity_text := Some t; entities := []; recipient_name := Some "Bot";
     conversation := Some cid; value := PNone; value_loads := None |}.

Definition started_c1_response : response :=
  ok_json (PDict [("conversation_id", PStr "c1"); ("message_id", PStr "m1")]).

Definition started_c1 : outcome := Answer started_c1_response.

Definition completed_response (t : string) : response :=
  ok_json (PDict [("status", PStr "COMPLETED");
                  ("attachments",
                   PList [PDict [("text", PDict [("content", PStr t)])]])]).

Definition completed (t : string) : outcome := Answer (completed_response t).

(** The bot after a first question on [thread-1] was answered, and the
    script for a second one. *)
Definition after_first_message : TeamsBot :=
  _on_message_activity genie remove_dups (question "thread-1" "what is revenue?")
    (new_bot [started_c1; completed "Revenue was 10 in total."]).

Definition second_script : list outcome :=
  [Answer (ok_json (PDict [("message_id", PStr "m2")]));
   completed "Costs were 4 in total."].

(** The answer to a second start, and the script of a start that it
    answers. *)
Definition started_c2 : outcome :=
  Answer (ok_json (PDict [("conversation_id", PStr "c2");
                          ("message_id", PStr "m9")])).

Definition other_script : list outcome :=
  [started_c2; completed "Costs were 4 in total."].

(** The start of the first question on [thread-1] has returned; then a
    question on [thread-2] has arrived and its start has returned. *)
Definition first_returned : TeamsBot :=
  resume (Starting genie "thread-1" "what is revenue?")
    (send_activity Typing
       (new_bot [started_c1; completed "Revenue was 10 in total."])).

Definition both_returned : TeamsBot :=
  supply second_script
    (resume (Starting genie "thread-2" "what are the costs?")
       (supply other_script (send_activity Typing first_returned))).

(** An HTTP error without a JSON body. *)
Definition rejected (st : Z) : outcome :=
  Answer {| status := st; reason := "Forbidden"; text := "denied";
            loads := None; json := Raise (Exn None "not JSON") |}.

(** A poll that finds the work in progress. *)
Definition still_running : outcome :=
  Answer (ok_json (PDict [("status", PStr "EXECUTING")])).

(** A bot whose start is answered and whose thirty polls all find the work
    in progress. *)
Definition slow_bot : TeamsBot :=
  new_bot (Answer started_c1_response :: repeat still_running 30).

(** A request that fails on the network. *)
Definition connection_reset : outcome :=
  NetFail (Exn None "Connection reset by peer").

(** A bot whose start is answered and whose thirty polls all fail. *)
Definition unreachable_bot : TeamsBot :=
  new_bot (Answer started_c1_response :: repeat connection_reset 30).

(** Outside the data model: a COMPLETED payload whose explanation is a
    number.  Assembly raises on it, and the poller handles that like any
    error of the attempt: it sleeps and polls again. *)
Definition malformed_completed : response :=
  ok_json (PDict [("status", PStr "COMPLETED");
                  ("attachments",
                   PList [PDict [("query", PDict [("description", PInt 42)])]])]).

(** Two answers with a failure status: one with an error message, one
    without. *)
Definition failed_response : response :=
  ok_json (PDict [("status", PStr "FAILED");
                  ("error",
                   PDict [("message", PStr "The warehouse is stopped.")])]).

Definition error_response_without_text : response :=
  ok_json (PDict [("status", PStr "ERROR")]).

(** Two more attempts without terminal status: an HTTP error and a status
    the poller does not know. *)
Definition server_error : outcome :=
  Answer {| status := 503; reason := "Service Unavailable"; text := "";
            loads := None; json := Raise (Exn None "no body") |}.

Definition unknown_status : outcome :=
  Answer (ok_json (PDict [("status", PStr "SUBMITTED")])).

(** The mention of the example: its properties, the entity as
    [Activity().deserialize] gives it, and the activity of the example. *)
Definition bot_mention : list (string * pyval) :=
  [("text", PStr "<at>Bot</at>");
   ("mentioned", PDict [("id", PStr "28:bot"); ("name", PStr "Bot")])].

Definition revenue_activity : Activity :=
  {| activity_text := Some "<at>Bot</at> what is revenue?";
     entities := [Entity (PStr "mention") bot_mention];
     recipient_name := Some "Bot";
     conversation := Some "thread-1";
     value := PNone;
     value_loads := None |}.

(** The same activity built by hand, with the entity as a mapping. *)
Definition revenue_activity_by_hand : Activity :=
  {| activity_text := Some "<at>Bot</at> what is revenue?";
     entities := [Mapping (PDict (("type", PStr "mention") :: bot_mention))];
     recipient_name := Some "Bot";
     conversation := Some "thread-1";
     value := PNone;
     value_loads := None |}.

(** A message that begins with the name of the bot. *)
Definition named_activity : Activity :=
  {| activity_text := Some "Bot: what is revenue?";
     entities := [];
     recipient_name := Some "Bot";
     conversation := Some "thread-1";
     value := PNone;
     value_loads := None |}.

(** A question on the web chat channel, and an adapter that reads that
    question from every body and refuses it for want of a token. *)
Definition webchat_question : Turn :=
  {| turn_type := MessageType;
     turn_activity := question "thread-1" "what is revenue?";
     members_added := [];
     recipient_id := Some (Some "28:bot");
     channel_id := Some "webchat" |}.

Definition no_token_adapter : Adapter :=
  {| deserialize := fun _ => inr webchat_question;
     process_activity := fun _ _ =>
       {| runs_logic := false; raises := Some (KeyError "'access_token'") |} |}.

(** A configuration that lacks the two secrets, and a complete one. *)
Definition incomplete_config : Config :=
  {| DATABRICKS_HOST := "https://adb.example.net/";
     DATABRICKS_CLIENT_ID := "app-1";
     DATABRICKS_CLIENT_SECRET := "";
     DATABRICKS_TENANT_ID := "tenant";
     DATABRICKS_GENIE_SPACE_ID := "sales";
     MICROSOFT_APP_ID := "bot-1";
     MICROSOFT_APP_PASSWORD := "";
     MICROSOFT_APP_TENANT_ID := "";
     LOG_LEVEL := "INFO" |}.

Definition complete_config : Config :=
  {| DATABRICKS_HOST := "https://adb.example.net/";
     DATABRICKS_CLIENT_ID := "app-1";
     DATABRICKS_CLIENT_SECRET := "secret";
     DATABRICKS_TENANT_ID := "tenant";
     DATABRICKS_GENIE_SPACE_ID := "sales";
     MICROSOFT_APP_ID := "bot-1";
     MICROSOFT_APP_PASSWORD := "password";
     MICROSOFT_APP_TENANT_ID := "";
     LOG_LEVEL := "INFO" |}.

(** * Lemmas and theorems *)

(** ** Strings *)

Lemma append_cons x (a b : string) : String x a +:+ b = String x (a +:+ b).
Proof. reflexivity. Qed.

Lemma append_assoc (a b c : string) : (a +:+ b) +:+ c = a +:+ (b +:+ c).
Proof.
  induction a as [|x a IH]; [done|]. rewrite !append_cons. by f_equal.
Qed.

Lemma length_append (a b : string) :
  String.length (a +:+ b) = String.length a + String.length b.
Proof.
  induction a as [|x a IH]; [done|]. rewrite append_cons. cbn [String.length].
  by rewrite IH.
Qed.

Lemma join_cons sep p q ps :
  join sep (p :: q :: ps) = p +:+ sep +:+ join sep (q :: ps).
Proof. reflexivity. Qed.

Lemma join_snoc sep (l : list string) x :
  l <> [] -> join sep (l ++ [x]) = join sep l +:+ sep +:+ x.
Proof.
  induction l as [|p l IH]; intros Hne; [done|].
  destruct l as [|q l]; [done|].
  change (join sep ((p :: q :: l) ++ [x]))
    with (p +:+ sep +:+ join sep ((q :: l) ++ [x])).
  rewrite IH by done.
  change (join sep (p :: q :: l)) with (p +:+ sep +:+ join sep (q :: l)).
  by rewrite !append_assoc.
Qed.

(** ** Table rendering *)

(** What the inner width loop leaves at index [j]. *)
Lemma widen_row_lookup row : forall i ws j,
  widen_row i row ws !! j =
  (fun w => if decide (i <= j) then
              match row !! (j - i) with
              | Some v => Nat.max w (cell_width v)
              | None => w
              end
            else w) <$> ws !! j.
Proof.
  induction row as [|v row IH]; intros i ws j; simpl.
  - destruct (ws !! j); simpl; [|done]. by case_decide.
  - rewrite IH. destruct (Nat.ltb_spec i (length ws)) as [Hlt|Hge].
    + destruct (decide (i = j)) as [->|Hne].
      * rewrite list_lookup_insert_eq by done.
        destruct (lookup_lt_is_Some_2 ws j Hlt) as [w Hw]. rewrite Hw. simpl.
        rewrite (nth_lookup_Some _ _ _ _ Hw).
        rewrite decide_False by lia. rewrite decide_True by lia.
        by rewrite Nat.sub_diag.
      * rewrite list_lookup_insert_ne by done.
        destruct (ws !! j) as [w|]; simpl; [|done]. f_equal.
        destruct (decide (S i <= j)), (decide (i <= j)); try lia; try done.
        by replace (j - i) with (S (j - S i)) by lia.
    + destruct (ws !! j) as [w|] eqn:Hw; simpl; [|done].
      apply lookup_lt_Some in Hw. by rewrite !decide_False by lia.
Qed.

Lemma widen_rows rows : forall ws,
  widen (map PList rows) ws =
  Ok (fold_left (fun ws row => widen_row 0 row ws) rows ws).
Proof. induction rows as [|row rows IH]; intros ws; simpl; [done|apply IH]. Qed.

Lemma widen_fold_lookup rows : forall ws j,
  fold_left (fun ws row => widen_row 0 row ws) rows ws !! j =
  (fun w => Nat.max w (max_list (column_cells j rows))) <$> ws !! j.
Proof.
  induction rows as [|row rows IH]; intros ws j; simpl.
  - destruct (ws !! j); simpl; [|done]. by rewrite Nat.max_0_r.
  - rewrite IH, widen_row_lookup. destruct (ws !! j) as [w|]; simpl; [|done].
    f_equal. rewrite Nat.sub_0_r.
    destruct (row !! j) as [v|]; simpl; [lia|done].
Qed.

(** The width loops compute the width of every column. *)
Lemma widen_widths (names : list string) rows :
  fold_left (fun ws row => widen_row 0 row ws) rows (map String.length names)
  = imap (fun i name => column_width i name rows) names.
Proof.
  apply list_eq. intros j.
  rewrite widen_fold_lookup, list_lookup_imap, list_lookup_fmap.
  by destruct (names !! j).
Qed.

Lemma format_cells_zip row : forall i ws,
  format_cells i row ws =
  zip_with (fun v w => ljust (cell_text v) w) row (drop i ws).
Proof.
  induction row as [|v row IH]; intros i ws; simpl; [done|].
  rewrite IH. destruct (Nat.ltb_spec i (length ws)) as [Hlt|Hge].
  - destruct (lookup_lt_is_Some_2 ws i Hlt) as [w Hw].
    rewrite (drop_S _ _ _ Hw). simpl. by rewrite (nth_lookup_Some _ _ _ _ Hw).
  - rewrite (drop_ge ws i) by done. rewrite (drop_ge ws (S i)) by lia.
    simpl. by destruct row.
Qed.

Lemma format_rows_map rows ws :
  format_rows (map PList rows) ws =
  Ok (map (fun row => join " | " (zip_with (fun v w => ljust (cell_text v) w) row ws))
          rows).
Proof.
  induction rows as [|row rows IH]; simpl; [done|].
  rewrite IH. simpl. by rewrite format_cells_zip.
Qed.

Lemma header_zip (names : list string) : forall ws,
  length ws = length names ->
  imap (fun i col => ljust (py_str col) (nth i ws 0)) (map PStr names)
  = zip_with ljust names ws.
Proof.
  induction names as [|name names IH]; intros [|w ws] Hlen; simpl in *;
    try done.
  f_equal. rewrite <- IH by lia. by apply imap_ext.
Qed.

Lemma column_names_map cols : forall i,
  column_names i (map (fun c => PDict [("name", PStr c)]) cols)
  = Ok (map PStr cols).
Proof.
  induction cols as [|c cols IH]; intros i; simpl; [done|].
  by rewrite IH.
Qed.

Lemma format_table_rows cols rows :
  rows <> [] ->
  format_table (map PStr cols) (PList (map PList rows)) =
  Ok (rendered_table (header_names cols rows) (firstn 10 rows)
        (if 10 <? length rows then [more_rows (length rows - 10)] else [])).
Proof.
  intros Hrows. unfold format_table.
  set (names := header_names cols rows).
  assert (Hnames :
    match map PStr cols with
    | [] => exc_bind (py_first (PList (map PList rows)))
              (fun row0 => exc_bind (py_len row0)
                 (fun n => Ok (fallback_columns n)))
    | _ => Ok (map PStr cols)
    end = Ok (map PStr names)).
  { subst names. destruct cols as [|c cols]; [|done].
    destruct rows as [|row rows]; [done|]. cbn.
    unfold fallback_columns. by rewrite map_map. }
  rewrite Hnames. clear Hnames.
  cbn [exc_bind py_take py_iter py_len].
  rewrite firstn_map, widen_rows. cbn [exc_bind].
  rewrite map_map. cbn [py_str].
  rewrite widen_widths, format_rows_map. cbn [exc_bind].
  rewrite length_map. unfold rendered_table, format_header, format_separator.
  rewrite header_zip by (by rewrite length_imap).
  done.
Qed.

(** The rendering of a result with rows: the table of the first ten rows,
    and the suffix when there are more. *)
Lemma format_query_result_rows cols rows :
  rows <> [] ->
  _format_query_result (query_result cols rows) =
  rendered_table (header_names cols rows) (firstn 10 rows)
    (if 10 <? length rows then [more_rows (length rows - 10)] else []).
Proof.
  intros Hrows. unfold _format_query_result, format_query_result_body, query_result.
  cbn [py_in py_getitem dict_get String.eqb Ascii.eqb Bool.eqb negb exc_bind].
  replace (truthy (PList (map PList rows))) with true
    by (by destruct rows).
  cbn [negb truthy].
  assert (Hcols :
    (if negb (truthy (PList (map (fun c => PDict [("name", PStr c)]) cols)))
     then Ok []
     else exc_bind (py_iter (PList (map (fun c => PDict [("name", PStr c)]) cols)))
            (fun cols0 => column_names 0 cols0)) = Ok (map PStr cols)).
  { destruct cols as [|c cols]; [done|].
    cbn [map truthy negb py_iter exc_bind].
    apply (column_names_map (c :: cols)). }
  cbn [truthy] in Hcols. rewrite Hcols. cbn [exc_bind].
  by rewrite format_table_rows.
Qed.

Lemma rendered_table_suffix names shown x :
  rendered_table names shown [x] = rendered_table names shown [] +:+ nl +:+ x.
Proof.
  unfold rendered_table. cbv zeta.
  set (widths := imap _ names). set (body := map _ shown).
  replace ([nl +:+ "```"; join " | " (zip_with ljust names widths);
            join "-+-" (map (repeat_char "-"%char) widths)]
           ++ body ++ ["```"] ++ [x])%list
    with (([nl +:+ "```"; join " | " (zip_with ljust names widths);
            join "-+-" (map (repeat_char "-"%char) widths)]
           ++ body ++ ["```"] ++ []) ++ [x])%list
    by (by rewrite <- !app_assoc).
  by rewrite join_snoc.
Qed.

(** C7.  A query result with more than ten rows renders as the table of its
    first ten rows, the column widths computed over those ten rows, followed
    by the suffix that counts the rows left out; fifteen rows give
    [(5 more rows...)]. *)
Theorem truncated_table (cols : list string) (rows : list (list pyval)) :
  10 < length rows ->
  _format_query_result (query_result cols rows) =
    rendered_table (header_names cols rows) (firstn 10 rows) []
    +:+ nl +:+ nl +:+ "(" +:+ str_of_nat (length rows - 10) +:+ " more rows...)"
  /\ length (firstn 10 rows) = 10
  /\ (length rows = 15 ->
      _format_query_result (query_result cols rows) =
        rendered_table (header_names cols rows) (firstn 10 rows) []
        +:+ nl +:+ nl +:+ "(5 more rows...)").
Proof.
  intros Hlen.
  assert (Hrows : rows <> []) by (intros ->; simpl in Hlen; lia).
  rewrite (format_query_result_rows _ _ Hrows).
  destruct (Nat.ltb_spec 10 (length rows)) as [_|?]; [|lia].
  rewrite rendered_table_suffix. unfold more_rows.
  split; [done|]. split; [rewrite length_take; lia|].
  by intros ->.
Qed.

Lemma truncated_table_witness :
  10 < length fifteen /\
  _format_query_result (query_result ["n"; "tag"] fifteen) =
    rendered_table ["n"; "tag"] (firstn 10 fifteen) []
    +:+ nl +:+ nl +:+ "(5 more rows...)".
Proof.
  split; [vm_compute; lia|].
  refine (proj2 (proj2 (truncated_table ["n"; "tag"] fifteen _)) _);
    [vm_compute; lia|reflexivity].
Defined.

(** The rows of the example do not appear unpadded in the output: every
    cell is padded to the width of its column. *)
Lemma example_rows_are_padded :
  contains "1 | a" (_format_query_result example_result) = false /\
  contains "2 | NULL" (_format_query_result example_result) = false.
Proof. split; vm_compute; reflexivity. Qed.

(** C6, as amended.  The example result renders as a header, a separator
    whose segments have the column widths 2 and 4, and the two rows with their
    cells left-justified to those widths, the missing cell as NULL; there is
    no suffix about more rows. *)
Theorem example_table :
  _format_query_result example_result =
    join nl [nl +:+ "```"; "id | name"; "---+-----"; "1  | a   "; "2  | NULL";
             "```"]
  /\ contains "more rows" (_format_query_result example_result) = false
  /\ imap (fun i name => column_width i name [[PInt 1; PStr "a"]; [PInt 2; PNone]])
          ["id"; "name"] = [2; 4]
  /\ format_separator [2; 4] = "---+-----"
  /\ cell_text PNone = "NULL".
Proof. repeat split; vm_compute; reflexivity. Qed.

(** ** Response assembly *)

Lemma str_items_map (l : list string) : forall i,
  str_items i (map PStr l) = Ok l.
Proof.
  induction l as [|s l IH]; intros i; simpl; [done|]. by rewrite IH.
Qed.

Lemma py_join_map sep (l : list string) :
  py_join sep (map PStr l) = Ok (join sep l).
Proof. unfold py_join. by rewrite str_items_map. Qed.

Lemma keep_explanation_str t q :
  keep_explanation (PStr t) (PStr q) = Ok (kept q t).
Proof.
  unfold keep_explanation, kept. cbn [truthy py_eq py_len exc_bind].
  destruct (String.eqb t ""); [done|]. by destruct (String.eqb t q).
Qed.

Lemma kept_passes q t : kept q t = true <-> passes q t.
Proof.
  unfold kept, passes. rewrite !andb_true_iff, !negb_true_iff.
  rewrite Nat.ltb_lt, <- !not_true_iff_false, !String.eqb_eq. tauto.
Qed.

Lemma keep_explanation_view text q :
  keep_explanation (match text with Some t => PStr t | None => PNone end)
                   (PStr q)
  = Ok (bool_decide (included q text <> [])).
Proof.
  destruct text as [t|]; [|done]. rewrite keep_explanation_str.
  cbn [included]. f_equal.
  destruct (decide (passes q t)) as [Hp|Hp].
  - apply kept_passes in Hp. rewrite Hp. by rewrite bool_decide_true.
  - rewrite bool_decide_false by (by intros ?).
    apply not_true_is_false. by intros ?%kept_passes.
Qed.

(** A query-result request takes the next outcome and adds its table. *)
Lemma fetch_query_result_parts self conv msg id n :
  fst (fetch_query_result self conv msg id n)
  = Ok (map PStr match pending n with
                 | [] => []
                 | o :: _ => table_of o
                 end) /\
  pending (snd (fetch_query_result self conv msg id n)) = tail (pending n).
Proof.
  unfold fetch_query_result, catch, bind, send.
  destruct (pending n) as [|[e|a] rest]; try done. cbn [table_of].
  destruct (status a =? 200)%Z; [|done].
  unfold lift. destruct (json a) as [data|]; [|done].
  unfold ret. by destruct (String.eqb _ "").
Qed.

Lemma attachments_loop_parts self conv msg q atts views :
  Forall2 viewed atts views ->
  forall parts n,
    fst (attachments_loop self conv msg (PStr q) atts parts n)
    = Ok (parts ++ map PStr (answer_parts q views (pending n)))%list.
Proof.
  induction 1 as [|att view atts views Hv _ IH]; intros parts n.
  { cbn. by rewrite app_nil_r. }
  cbn [attachments_loop answer_parts].
  destruct view as [[text id]|]; cbn [viewed] in Hv;
    [|rewrite Hv; cbn [negb]; apply IH].
  destruct Hv as (Hd & He & Hid). rewrite Hd. cbn [negb].
  unfold bind at 1, lift at 1. rewrite He.
  unfold bind at 1, lift at 1. rewrite keep_explanation_view.
  destruct att as [| | | | |d]; try done.
  unfold attachment_id in Hid. cbn [py_get exc_bind] in Hid.
  cbn [py_get]. unfold bind at 1, lift at 1. unfold bind at 1.
  set (parts1 := if bool_decide (included q text <> []) then _ else parts).
  assert (Hparts1 : parts1 = (parts ++ map PStr (included q text))%list).
  { subst parts1. destruct text as [t|]; cbn [included];
      [|by rewrite app_nil_r].
    destruct (decide (passes q t)).
    - by rewrite bool_decide_true.
    - rewrite bool_decide_false by (by intros ?). by rewrite app_nil_r. }
  rewrite Hparts1. clear parts1 Hparts1.
  assert (Hfetch : forall parts0,
    fst (bind (if truthy id
               then fetch_query_result self conv msg id
               else ret [])
              (fun fetched =>
                 attachments_loop self conv msg (PStr q) atts
                   (parts0 ++ fetched)%list) n)
    = Ok (parts0
          ++ map PStr
               (if truthy id then
                  match pending n with
                  | [] => answer_parts q views []
                  | o :: script' => table_of o ++ answer_parts q views script'
                  end
                else answer_parts q views (pending n)))%list).
  { intros parts0. unfold bind. destruct (truthy id).
    - destruct (fetch_query_result_parts self conv msg id n) as [Hf Hp].
      destruct (fetch_query_result self conv msg id n) as [[fetched|e] n1];
        cbn [fst snd] in Hf, Hp; [|done].
      injection Hf as ->. rewrite IH, Hp.
      destruct (pending n) as [|o script']; cbn [tail map];
        by rewrite ?app_nil_r, ?map_app, <- ?app_assoc.
    - unfold ret. by rewrite IH, app_nil_r. }
  destruct (truthy match dict_get d "attachment_id" with
                   | Some x => x | None => PNone end) eqn:H1.
  - injection Hid as <-. unfold ret at 1.
    rewrite Hfetch. by rewrite map_app, <- app_assoc.
  - unfold lift at 1. cbv beta iota.
    assert (id = match dict_get d "id" with Some x => x | None => PNone end)
      as <- by congruence.
    rewrite Hfetch. by rewrite map_app, <- app_assoc.
Qed.

Lemma included_passes q t : included q (Some t) = [t] <-> passes q t.
Proof.
  cbn [included]. destruct (decide (passes q t)); split; try done.
Qed.

Lemma answer_parts_texts q script (texts : list string) :
  answer_parts q (map (fun t => Some (Some t, PNone)) texts) script
  = filter (passes q) texts.
Proof.
  induction texts as [|t texts IH]; [done|].
  cbn [map answer_parts included truthy]. rewrite IH, filter_cons.
  by destruct (decide (passes q t)).
Qed.

(** C5, as amended.  The explanatory text of an attachment is in the
    assembled answer exactly when it is non-empty, differs from the user's
    question and is longer than 10 characters.  The answer is made of the
    texts that pass, each followed by the table of its attachment's query
    result when the attachment has an id and the result is fetched, in the
    order of the attachments and joined by blank lines; it is the apology when
    there is no part.  Without ids the answer is the texts that pass. *)
Theorem explanatory_text_filter self conv msg (q : string)
  (d : list (string * pyval)) (atts : list pyval)
  (views : list (option (option string * pyval))) (n : net) :
  match dict_get d "content" with Some v => v | None => PStr "" end = PStr q ->
  dict_get d "attachments" = Some (PList atts) ->
  Forall2 viewed atts views ->
  fst (_extract_response_with_attachments self conv msg (PDict d) n)
  = Ok (assembled (answer_parts q views (pending n)))
  /\ (forall t,
        included q (Some t) = [t] <->
        t <> "" /\ t <> q /\ 10 < String.length t)
  /\ (forall t,
        included q (Some t) = [] <->
        t = "" \/ t = q \/ String.length t <= 10)
  /\ (forall texts script,
        answer_parts q (map (fun t => Some (Some t, PNone)) texts) script
        = filter (passes q) texts).
Proof.
  intros Hq Ha Hv. split; [|split; [|split]].
  - unfold _extract_response_with_attachments.
    cbn [py_get_default py_in py_getitem]. rewrite Hq, Ha.
    unfold bind at 1, lift at 1. unfold bind at 1, lift at 1. cbn [negb].
    unfold bind at 1. unfold bind at 1, lift at 1.
    destruct atts as [|att atts].
    { inversion Hv; subst. reflexivity. }
    cbn [truthy negb]. unfold bind at 1, lift at 1. cbn [py_iter].
    pose proof (attachments_loop_parts self conv msg q _ _ Hv [] n) as Hl.
    destruct (attachments_loop _ _ _ _ _ _ n) as [[parts|e] n1];
      cbn [fst] in Hl; [|done].
    injection Hl as ->. cbn [app].
    destruct (answer_parts q views (pending n)) as [|p ps]; [done|].
    unfold lift. change (PStr p :: map PStr ps) with (map PStr (p :: ps)).
    by rewrite py_join_map.
  - intros t. apply included_passes.
  - intros t. cbn [included]. unfold passes.
    destruct (decide (t <> "" /\ t <> q /\ 10 < String.length t))
      as [Hp|Hp].
    + split; [done|]. intros [->|[->|?]]; destruct Hp as (? & ? & ?);
        try done. lia.
    + split; [|done]. intros _.
      destruct (decide (t = "")); [by left|].
      destruct (decide (t = q)); [by right; left|].
      right. right. apply not_and_l in Hp as [?|Hp]; [done|].
      apply not_and_l in Hp as [?|?]; [done|lia].
  - intros texts script. apply answer_parts_texts.
Qed.

Lemma explanatory_text_filter_witness :
  fst (_extract_response_with_attachments genie (PStr "c1") (PStr "m1")
         (PDict [("id", PStr "m1"); ("status", PStr "COMPLETED");
                 ("content", PStr "How many?");
                 ("attachments",
                  PList [PDict [("text", PStr "Ten chars!");
                                ("attachment_id", PStr "a1")];
                         PDict [("query",
                                 PDict [("description",
                                         PStr "Customers by id.")]);
                                ("attachment_id", PStr "a2")];
                         PDict [("text", PDict [("content", PStr "How many?")])]])])
         {| pending := [connection_reset; Answer (ok_json example_result)];
            log := [] |})
  = Ok ("Customers by id." +:+ nl +:+ nl
        +:+ join nl [nl +:+ "```"; "id | name"; "---+-----"; "1  | a   ";
                     "2  | NULL"; "```"]).
Proof.
  pose proof (explanatory_text_filter genie (PStr "c1") (PStr "m1") "How many?"
                [("id", PStr "m1"); ("status", PStr "COMPLETED");
                 ("content", PStr "How many?");
                 ("attachments",
                  PList [PDict [("text", PStr "Ten chars!");
                                ("attachment_id", PStr "a1")];
                         PDict [("query",
                                 PDict [("description",
                                         PStr "Customers by id.")]);
                                ("attachment_id", PStr "a2")];
                         PDict [("text", PDict [("content", PStr "How many?")])]])]
                [PDict [("text", PStr "Ten chars!");
                        ("attachment_id", PStr "a1")];
                 PDict [("query",
                         PDict [("description", PStr "Customers by id.")]);
                        ("attachment_id", PStr "a2")];
                 PDict [("text", PDict [("content", PStr "How many?")])]]
                [Some (Some "Ten chars!", PStr "a1");
                 Some (Some "Customers by id.", PStr "a2");
                 Some (Some "How many?", PNone)]
                {| pending := [connection_reset; Answer (ok_json example_result)];
                   log := [] |}
                eq_refl eq_refl) as H.
  destruct H as [H _].
  - repeat constructor.
  - rewrite H. vm_compute. reflexivity.
Defined.

(** A text of exactly ten characters, not the question: the source drops
    it. *)
Lemma ten_characters_dropped :
  String.length "Ten chars!" = 10 /\
  "Ten chars!" <> "" /\ "Ten chars!" <> "How many?" /\
  keep_explanation (PStr "Ten chars!") (PStr "How many?") = Ok false /\
  fst (_extract_response_with_attachments genie (PStr "c1") (PStr "m1")
         (PDict [("content", PStr "How many?");
                 ("attachments", PList [PDict [("text", PStr "Ten chars!")]])])
         {| pending := []; log := [] |}) = Ok apology.
Proof. repeat split; done. Qed.

Lemma keep_explanation_total v q :
  text_or_none v -> exists b, keep_explanation v q = Ok b.
Proof.
  intros [->|[t ->]]; [by exists false|].
  unfold keep_explanation. destruct (negb (truthy (PStr t))); [by eexists|].
  destruct (py_eq (PStr t) q); by eexists.
Qed.

Lemma fetch_query_result_total self conv msg att n :
  exists l n',
    fetch_query_result self conv msg att n = (Ok l, n') /\
    Forall (fun p => is_str p = true) l.
Proof.
  unfold fetch_query_result, catch, bind.
  destruct (send _ n) as [[a|e] n0]; [|by exists [], n0].
  destruct (status a =? 200)%Z; [|by exists [], n0].
  unfold lift. destruct (json a) as [data|e]; [|by exists [], n0].
  unfold ret. destruct (String.eqb _ ""); eexists _, n0; split; try done.
  by repeat constructor.
Qed.

Lemma attachments_loop_total self conv msg q atts :
  Forall conforming_attachment atts ->
  forall parts n,
    Forall (fun p => is_str p = true) parts ->
    exists parts' n',
      attachments_loop self conv msg q atts parts n = (Ok parts', n') /\
      Forall (fun p => is_str p = true) parts'.
Proof.
  induction 1 as [|att atts Hatt _ IH]; intros parts n Hparts.
  - by exists parts, n.
  - cbn [attachments_loop]. destruct (is_dict att) eqn:Hd; cbn [negb];
      [|by apply IH].
    destruct (Hatt Hd) as (v & Hv & Htext).
    destruct (keep_explanation_total v q Htext) as [keep Hk].
    unfold bind at 1, lift at 1. rewrite Hv.
    unfold bind at 1, lift at 1. rewrite Hk.
    destruct att as [| | | | |d]; try done. cbn [py_get].
    unfold bind at 1, lift at 1. unfold bind at 1.
    set (parts1 := if keep then (parts ++ [v])%list else parts).
    assert (Hparts1 : Forall (fun p => is_str p = true) parts1).
    { subst parts1. destruct keep; [|done]. apply Forall_app. split; [done|].
      constructor; [|done]. destruct Htext as [->|[t ->]]; [|done].
      by cbn in Hk. }
    set (id := (if truthy _ then ret _ else lift _) n).
    assert (Hid : exists a, id = (Ok a, n)).
    { subst id. destruct (truthy _); by eexists. }
    destruct Hid as [a ->].
    unfold bind at 1.
    destruct (truthy a).
    + destruct (fetch_query_result_total self conv msg a n) as (l & n' & -> & Hl).
      apply IH. by apply Forall_app.
    + unfold ret at 1. apply IH. by rewrite app_nil_r.
Qed.

Lemma str_items_total parts : forall i,
  Forall (fun p => is_str p = true) parts ->
  exists l, str_items i parts = Ok l.
Proof.
  induction parts as [|p parts IH]; intros i HF; [by exists []|].
  apply Forall_cons in HF as [Hp HF]. destruct p; try done.
  cbn [str_items]. destruct (IH (S i) HF) as [l ->]. by eexists.
Qed.

(** On a payload of the data model the assembly returns. *)
Lemma extract_total self conv msg data n :
  conforming data ->
  exists t n1,
    _extract_response_with_attachments self conv msg data n = (Ok t, n1).
Proof.
  intros (d & -> & Hatts). unfold _extract_response_with_attachments.
  cbn [py_get_default py_in py_getitem]. unfold bind at 1, lift at 1.
  unfold bind at 1, lift at 1. unfold bind at 1.
  destruct (dict_get d "attachments") as [atts|]; cbn [negb];
    [|by exists apology, n].
  destruct Hatts as (l & -> & HF).
  unfold bind at 1, lift at 1. destruct l as [|att l]; cbn [truthy negb];
    [by exists apology, n|].
  unfold bind at 1, lift at 1. cbn [py_iter].
  destruct (attachments_loop_total self conv msg
              (match dict_get d "content" with Some x => x | None => PStr "" end)
              (att :: l) HF [] n) as (parts & n' & -> & Hparts); [done|].
  destruct parts as [|p parts]; [by exists apology, n'|].
  unfold lift, py_join.
  destruct (str_items_total (p :: parts) 0 Hparts) as [strs ->].
  by eexists _, n'.
Qed.

(** ** The poller *)

Lemma in_success_statuses st :
  in_list st success_statuses = true <->
  st = PStr "COMPLETED" \/ st = PStr "SUCCESS" \/ st = PStr "FINISHED".
Proof.
  unfold in_list, success_statuses. cbn [existsb].
  rewrite orb_false_r, !orb_true_iff.
  assert (Heq : forall s, py_eq st (PStr s) = true <-> st = PStr s).
  { intros s. destruct st; cbn [py_eq]; try (split; [discriminate|discriminate]).
    rewrite String.eqb_eq. split; [by intros ->|by intros [= ->]]. }
  rewrite !Heq. tauto.
Qed.

(** One attempt on a polled answer: the dispatch on the status. *)
Lemma poll_once_polled self conversation_id message_id a data st rest lg :
  polled a data st ->
  poll_once self conversation_id message_id
    {| pending := Answer a :: rest; log := lg |} =
  let n0 := answered (get_message conversation_id message_id) rest lg in
  if in_list st success_statuses then
    match _extract_response_with_attachments self conversation_id message_id
            data n0 with
    | (Ok t, n1) => (Ok (Some t), n1)
    | (Raise e, n1) => (Raise e, n1)
    end
  else if in_list st failure_statuses then
    match (exc_bind (py_get_default data "error" (PDict []))
             (fun err => py_get_default err "message" (PStr "Unknown error"))) with
    | Ok error_msg => (Ok (Some (failure_message error_msg)), n0)
    | Raise e => (Raise e, n0)
    end
  else (Ok None, slept n0).
Proof.
  intros (Hst & Hjson & Hget). unfold poll_once, get_message.
  unfold bind at 1, send at 1. cbn [pending log].
  unfold bind at 1, raise_for_status.
  destruct (Z.leb_spec 400 (status a)) as [?|_]; [lia|].
  unfold ret at 1. unfold bind at 1, lift at 1. rewrite Hjson.
  unfold bind at 1, lift at 1. rewrite Hget. cbv zeta.
  fold (answered (get_message conversation_id message_id) rest lg).
  destruct (in_list st success_statuses).
  { unfold bind. by destruct (_extract_response_with_attachments _ _ _ _ _) as [[t|e] n1]. }
  destruct (in_list st failure_statuses).
  { unfold bind at 1, lift at 1.
    destruct (py_get_default data "error" (PDict [])) as [err|e]; [|done].
    cbn [exc_bind]. unfold bind at 1, lift at 1.
    by destruct (py_get_default err "message" (PStr "Unknown error")). }
  by destruct (in_list st progress_statuses).
Qed.

Lemma poll_loop_returns self conversation_id message_id mx rem a data st rest lg t n1 :
  polled a data st ->
  in_list st success_statuses = true ->
  _extract_response_with_attachments self conversation_id message_id data
    (answered (get_message conversation_id message_id) rest lg) = (Ok t, n1) ->
  poll_loop self conversation_id message_id mx (S rem)
    {| pending := Answer a :: rest; log := lg |} = (Ok t, n1).
Proof.
  intros Hp Hs He. cbn [poll_loop]. unfold bind, catch.
  rewrite (poll_once_polled _ _ _ _ _ _ _ _ Hp). cbv zeta.
  by rewrite Hs, He.
Qed.

Lemma poll_loop_retries self conversation_id message_id mx rem a data st rest lg :
  polled a data st ->
  in_list st success_statuses = false ->
  in_list st failure_statuses = false ->
  poll_loop self conversation_id message_id mx (S rem)
    {| pending := Answer a :: rest; log := lg |} =
  poll_loop self conversation_id message_id mx rem
    (slept (answered (get_message conversation_id message_id) rest lg)).
Proof.
  intros Hp Hs Hf. cbn [poll_loop]. unfold bind, catch.
  rewrite (poll_once_polled _ _ _ _ _ _ _ _ Hp). cbv zeta.
  by rewrite Hs, Hf.
Qed.

Lemma poll_loop_fails self conversation_id message_id mx rem a data st rest lg :
  polled a data st ->
  in_list st failure_statuses = true ->
  poll_loop self conversation_id message_id mx (S rem)
    {| pending := Answer a :: rest; log := lg |} =
  match (exc_bind (py_get_default data "error" (PDict []))
           (fun err => py_get_default err "message" (PStr "Unknown error"))) with
  | Ok error_msg =>
      (Ok (failure_message error_msg),
       answered (get_message conversation_id message_id) rest lg)
  | Raise e =>
      if mx - S rem <? mx - 1
      then poll_loop self conversation_id message_id mx rem
             (slept (answered (get_message conversation_id message_id) rest lg))
      else (Raise e, answered (get_message conversation_id message_id) rest lg)
  end.
Proof.
  intros Hp Hf. cbn [poll_loop]. unfold bind at 1, catch.
  rewrite (poll_once_polled _ _ _ _ _ _ _ _ Hp). cbv zeta.
  assert (Hs : in_list st success_statuses = false).
  { destruct (in_list st success_statuses) eqn:Hs; [|done].
    apply in_success_statuses in Hs.
    destruct Hs as [-> | [-> | ->]]; discriminate Hf. }
  rewrite Hs, Hf.
  destruct (exc_bind _ _) as [error_msg|e]; [done|].
  by destruct (mx - S rem <? mx - 1).
Qed.

Lemma poll_once_transient self conv msg o rest lg :
  transient o = true ->
  exists e,
    poll_once self conv msg {| pending := o :: rest; log := lg |} =
    (Raise e, answered (get_message conv msg) rest lg).
Proof.
  intros Ht. unfold poll_once, answered.
  destruct o as [e|a]; [by exists e|].
  unfold bind at 1, send at 1. cbn [pending log].
  unfold bind at 1, raise_for_status. cbn [transient] in Ht.
  destruct (400 <=? status a)%Z; [by eexists|]. cbn [orb] in Ht.
  unfold ret at 1. unfold bind at 1, lift at 1.
  destruct (json a) as [data|e]; [|by exists e].
  unfold bind at 1, lift at 1.
  destruct (py_get_default data "status" (PStr "")) as [st|e]; [done|by exists e].
Qed.

Lemma non_terminal_polled o :
  non_terminal o = true ->
  exists a data st,
    o = Answer a /\ polled a data st /\
    in_list st success_statuses = false /\
    in_list st failure_statuses = false.
Proof.
  destruct o as [e|a]; [done|]. cbn [non_terminal].
  intros [Hst H]%andb_true_iff.
  destruct (json a) as [data|] eqn:Hj; [|done].
  destruct (py_get_default data "status" (PStr "")) as [st|] eqn:Hg; [|done].
  apply andb_true_iff in H as [Hs Hf].
  exists a, data, st. repeat split; try done.
  - by apply Z.ltb_lt.
  - by destruct (in_list st success_statuses).
  - by destruct (in_list st failure_statuses).
Qed.

(** A run of attempts without terminal status uses up the budget. *)
Lemma poll_loop_never_terminal self conv msg mx os : forall rest lg,
  length os <= mx ->
  never_terminal os = true ->
  poll_loop self conv msg mx (length os) {| pending := os ++ rest; log := lg |}
  = (Ok timeout_message,
     {| pending := rest;
        log := lg ++ attempts (get_message conv msg) (length os) |}).
Proof.
  induction os as [|o os IH]; intros rest lg Hlen Hnt.
  - cbn. by rewrite app_nil_r.
  - assert (Hos : never_terminal os = true).
    { cbn [never_terminal] in Hnt. destruct os; [done|].
      by apply andb_true_iff in Hnt as [_ ?]. }
    cbn [length] in *.
    assert (Hstep :
      poll_loop self conv msg mx (S (length os))
        {| pending := (o :: os) ++ rest; log := lg |} =
      poll_loop self conv msg mx (length os)
        (slept (answered (get_message conv msg) (os ++ rest) lg))).
    { destruct (non_terminal o) eqn:Hn.
      - apply non_terminal_polled in Hn as (a & data & st & -> & Hp & Hs & Hf).
        by apply poll_loop_retries with data st.
      - destruct os as [|o' os]; [cbn in Hnt; congruence|].
        assert (Ht : transient o = true).
        { cbn [never_terminal] in Hnt. rewrite Hn in Hnt.
          by apply andb_true_iff in Hnt as [? _]. }
        destruct (poll_once_transient self conv msg o ((o' :: os) ++ rest) lg Ht)
          as [e He].
        cbn [poll_loop]. unfold bind at 1, catch. cbn [app].
        cbn [app] in He. rewrite He.
        cbn [length] in *.
        destruct (Nat.ltb_spec (mx - S (S (length os))) (mx - 1)); [|lia].
        done. }
    rewrite Hstep. unfold slept, answered. cbn [pending log].
    rewrite IH by (done || lia). f_equal. f_equal.
    unfold attempts. cbn [replicate concat].
    by rewrite <- !app_assoc.
Qed.

(** C1.  On a polled payload the poller treats exactly the statuses
    COMPLETED, SUCCESS and FINISHED as terminal success: it returns the
    assembled answer on that attempt and polls no more, and on a payload of
    the data model the assembly does return.  On a status outside the two
    terminal sets, known or unknown, it sleeps and goes on with the attempts
    that remain; with none left it returns the timeout message. *)
Theorem poll_status_dispatch self conv msg mx rem a data st rest lg :
  polled a data st ->
  let n := {| pending := Answer a :: rest; log := lg |} in
  let n0 := answered (get_message conv msg) rest lg in
  (in_list st success_statuses = true <->
   st = PStr "COMPLETED" \/ st = PStr "SUCCESS" \/ st = PStr "FINISHED") /\
  (in_list st success_statuses = true ->
   (forall t n1,
      _extract_response_with_attachments self conv msg data n0 = (Ok t, n1) ->
      poll_loop self conv msg mx (S rem) n = (Ok t, n1)) /\
   (conforming data ->
    exists t n1,
      _extract_response_with_attachments self conv msg data n0 = (Ok t, n1) /\
      poll_loop self conv msg mx (S rem) n = (Ok t, n1))) /\
  (in_list st success_statuses = false ->
   in_list st failure_statuses = false ->
   poll_loop self conv msg mx (S rem) n = poll_loop self conv msg mx rem (slept n0) /\
   (rem = 0 ->
    poll_loop self conv msg mx (S rem) n = (Ok timeout_message, slept n0))).
Proof.
  intros Hp n n0. split; [apply in_success_statuses|]. split.
  - intros Hs. split.
    + intros t n1 He. by apply poll_loop_returns with data st.
    + intros Hc. destruct (extract_total self conv msg data n0 Hc) as (t & n1 & He).
      exists t, n1. split; [done|]. by apply poll_loop_returns with data st.
  - intros Hs Hf.
    assert (Hstep : poll_loop self conv msg mx (S rem) n =
                    poll_loop self conv msg mx rem (slept n0))
      by (by apply poll_loop_retries with data st).
    split; [done|]. intros ->. by rewrite Hstep.
Qed.

Lemma poll_status_dispatch_witness :
  poll_loop genie (PStr "c1") (PStr "m1") 30 30
    {| pending := [Answer (completed_response "Revenue was 10 in total.")];
       log := [] |}
  = (Ok "Revenue was 10 in total.",
     {| pending := []; log := [Sent (GetMessage "c1" "m1")] |}).
Proof.
  refine (proj1 (proj1 (proj2 (poll_status_dispatch genie (PStr "c1") (PStr "m1") 30 29
                          (completed_response "Revenue was 10 in total.")
                          (PDict [("status", PStr "COMPLETED");
                                  ("attachments",
                                   PList [PDict [("text",
                                     PDict [("content",
                                             PStr "Revenue was 10 in total.")])]])])
                          (PStr "COMPLETED") [] [] _)) _) _ _ _).
  - split; [vm_compute; reflexivity|]. split; reflexivity.
  - reflexivity.
  - vm_compute. reflexivity.
Defined.

Remark nonconforming_completed_is_polled_again :
  polled malformed_completed
    (PDict [("status", PStr "COMPLETED");
            ("attachments",
             PList [PDict [("query", PDict [("description", PInt 42)])]])])
    (PStr "COMPLETED") /\
  _poll_for_response genie (PStr "c1") (PStr "m1") 30
    {| pending := [Answer malformed_completed;
                   Answer (completed_response "Revenue was 10 in total.")];
       log := [] |}
  = (Ok "Revenue was 10 in total.",
     {| pending := [];
        log := [Sent (GetMessage "c1" "m1"); Slept; Sent (GetMessage "c1" "m1")] |}).
Proof.
  split; [|vm_compute; reflexivity].
  split; [vm_compute; reflexivity|]. split; reflexivity.
Qed.

(** C2.  When none of the [max_attempts] attempts observes a terminal
    status, the poller returns the timeout text; the default budget is 30; a
    FAILED or ERROR status gives the remote-failure text, which is the fixed
    prefix followed by the error message of the payload, [Unknown error] when
    the payload has none; and the timeout text differs from every
    remote-failure text. *)
Theorem poll_timeout self conv msg os rest lg :
  never_terminal os = true ->
  _poll_for_response self conv msg (length os)
    {| pending := (os ++ rest)%list; log := lg |}
  = (Ok "Sorry, Genie is taking too long to respond. Please try again.",
     {| pending := rest;
        log := (lg ++ attempts (get_message conv msg) (length os))%list |})
  /\ default_max_attempts = 30
  /\ (forall mx rem a data st more lg' err,
        polled a data st ->
        st = PStr "FAILED" \/ st = PStr "ERROR" ->
        py_get_default data "error" (PDict []) = Ok (PDict err) ->
        poll_loop self conv msg mx (S rem)
          {| pending := Answer a :: more; log := lg' |}
        = (Ok ("Sorry, Genie encountered an error: "
               +:+ py_str match dict_get err "message" with
                          | Some m => m
                          | None => PStr "Unknown error"
                          end),
           answered (get_message conv msg) more lg'))
  /\ (forall error_text,
        "Sorry, Genie is taking too long to respond. Please try again."
        <> "Sorry, Genie encountered an error: " +:+ error_text).
Proof.
  intros Hnt. split; [|split; [done|split]].
  - by apply poll_loop_never_terminal.
  - intros mx rem a data st more lg' err Hp Hst He.
    assert (Hf : in_list st failure_statuses = true)
      by (by destruct Hst as [-> | ->]).
    rewrite (poll_loop_fails _ _ _ _ _ _ _ _ _ _ Hp Hf), He. reflexivity.
  - intros error_text H. apply (f_equal (String.get 13)) in H. discriminate H.
Qed.

Lemma poll_timeout_witness :
  _poll_for_response genie (PStr "c1") (PStr "m1") 4
    {| pending := [still_running; server_error; connection_reset; unknown_status];
       log := [] |}
  = (Ok "Sorry, Genie is taking too long to respond. Please try again.",
     {| pending := [];
        log := attempts (GetMessage "c1" "m1") 4 |})
  /\ poll_loop genie (PStr "c1") (PStr "m1") default_max_attempts (S 29)
       {| pending := [Answer failed_response; still_running]; log := [] |}
     = (Ok "Sorry, Genie encountered an error: The warehouse is stopped.",
        answered (get_message (PStr "c1") (PStr "m1")) [still_running] [])
  /\ poll_loop genie (PStr "c1") (PStr "m1") default_max_attempts (S 29)
       {| pending := [Answer error_response_without_text]; log := [] |}
     = (Ok "Sorry, Genie encountered an error: Unknown error",
        answered (get_message (PStr "c1") (PStr "m1")) [] []).
Proof.
  pose proof (poll_timeout genie (PStr "c1") (PStr "m1")
                [still_running; server_error; connection_reset; unknown_status]
                [] [] eq_refl) as (Htimeout & _ & Hfailed & _).
  split; [exact Htimeout|]. split.
  - refine (Hfailed default_max_attempts 29 failed_response
              (PDict [("status", PStr "FAILED");
                      ("error",
                       PDict [("message", PStr "The warehouse is stopped.")])])
              (PStr "FAILED") [still_running] []
              [("message", PStr "The warehouse is stopped.")] _ _ _).
    + split; [simpl; lia|]. split; reflexivity.
    + by left.
    + reflexivity.
  - refine (Hfailed default_max_attempts 29 error_response_without_text
              (PDict [("status", PStr "ERROR")])
              (PStr "ERROR") [] [] [] _ _ _).
    + split; [simpl; lia|]. split; reflexivity.
    + by right.
    + reflexivity.
Defined.

(** ** What a computation adds to the log *)

Section Log.

Variable P : event -> Prop.

Lemma extends_refl n : extends P n n.
Proof. exists []. by rewrite app_nil_r. Qed.

Lemma extends_trans n1 n2 n3 :
  extends P n1 n2 -> extends P n2 n3 -> extends P n1 n3.
Proof.
  intros (e1 & H1 & F1) (e2 & H2 & F2). exists (e1 ++ e2)%list.
  split; [by rewrite H2, H1, app_assoc|by apply Forall_app].
Qed.

Lemma emits_ret {A} (a : A) : emits P (ret a).
Proof. intros n. apply extends_refl. Qed.

Lemma emits_raise {A} e : emits P (raise (A:=A) e).
Proof. intros n. apply extends_refl. Qed.

Lemma emits_lift {A} (x : exc A) : emits P (lift x).
Proof. intros n. apply extends_refl. Qed.

Lemma emits_bind {A B} (m : M A) (k : A -> M B) :
  emits P m -> (forall a, emits P (k a)) -> emits P (bind m k).
Proof.
  intros Hm Hk n. unfold bind. specialize (Hm n).
  destruct (m n) as [[a|e] n1]; [|done].
  eapply extends_trans; [exact Hm|apply Hk].
Qed.

Lemma emits_catch {A} (m : M A) (h : exn -> M A) :
  emits P m -> (forall e, emits P (h e)) -> emits P (catch m h).
Proof.
  intros Hm Hh n. unfold catch. specialize (Hm n).
  destruct (m n) as [[a|e] n1]; [done|].
  eapply extends_trans; [exact Hm|apply Hh].
Qed.

Lemma emits_send r : P (Sent r) -> emits P (send r).
Proof.
  intros HP n. exists [Sent r]. unfold send.
  split; [by destruct (pending n) as [|[e|a] rest]|by constructor].
Qed.

Lemma emits_sleep : P Slept -> emits P sleep.
Proof. intros HP n. exists [Slept]. split; [done|by constructor]. Qed.

End Log.

Create HintDb emits discriminated.
#[local] Hint Resolve emits_ret emits_raise emits_lift emits_bind emits_catch
  emits_send emits_sleep : emits.
#[local] Hint Extern 1 (polling _) => exact I : emits.

Lemma emits_fetch_query_result self conv msg att :
  emits polling (fetch_query_result self conv msg att).
Proof.
  unfold fetch_query_result. apply emits_catch; [|auto with emits].
  apply emits_bind; [auto with emits|]. intros a.
  destruct (status a =? 200)%Z; auto with emits.
Qed.

Lemma emits_attachments_loop self conv msg q atts : forall parts,
  emits polling (attachments_loop self conv msg q atts parts).
Proof.
  induction atts as [|att atts IH]; intros parts; cbn [attachments_loop];
    [auto with emits|].
  destruct (negb (is_dict att)); [apply IH|].
  repeat (apply emits_bind; [solve [auto with emits]|intros ?]).
  apply emits_bind.
  { destruct (truthy _); auto with emits. }
  intros id. apply emits_bind; [|intros ?; apply IH].
  destruct (truthy id); [apply emits_fetch_query_result|auto with emits].
Qed.

Lemma emits_extract self conv msg data :
  emits polling (_extract_response_with_attachments self conv msg data).
Proof.
  unfold _extract_response_with_attachments.
  repeat (apply emits_bind; [solve [auto with emits]|intros ?]).
  apply emits_bind.
  - destruct (negb _); [auto with emits|].
    apply emits_bind; [auto with emits|intros ?].
    destruct (negb _); [auto with emits|].
    apply emits_bind; [auto with emits|intros ?].
    apply emits_attachments_loop.
  - intros [|p ps]; auto with emits.
Qed.

Lemma emits_poll_once self conv msg :
  emits polling (poll_once self conv msg).
Proof.
  unfold poll_once. cbv zeta.
  apply emits_bind; [auto with emits|intros a].
  apply emits_bind.
  { unfold raise_for_status. destruct (400 <=? status a)%Z; auto with emits. }
  intros _.
  repeat (apply emits_bind; [solve [auto with emits]|intros ?]).
  destruct (in_list _ success_statuses).
  { apply emits_bind; [apply emits_extract|auto with emits]. }
  destruct (in_list _ failure_statuses).
  { repeat (apply emits_bind; [solve [auto with emits]|intros ?]). auto with emits. }
  destruct (in_list _ progress_statuses); auto with emits.
Qed.

Lemma emits_poll_loop self conv msg mx rem :
  emits polling (poll_loop self conv msg mx rem).
Proof.
  induction rem as [|rem IH]; cbn [poll_loop]; [auto with emits|].
  apply emits_bind.
  - apply emits_catch; [apply emits_poll_once|]. intros e.
    destruct (_ <? _); auto with emits.
  - intros [t|]; auto with emits.
Qed.

Lemma emits_poll_for_response self conv msg mx :
  emits polling (_poll_for_response self conv msg mx).
Proof. apply emits_poll_loop. Qed.

(** A computation that begins with the request [r]. *)
Lemma sends_first {A} P r (k : response -> M A) n :
  (forall a, emits P (k a)) ->
  exists evs,
    log (snd (bind (send r) k n)) = (log n ++ Sent r :: evs)%list /\
    Forall P evs.
Proof.
  intros Hk. unfold bind, send.
  destruct (pending n) as [|[e|a] rest]; cbn [snd log];
    try (exists []; split; [done|constructor]).
  destruct (Hk a {| pending := rest; log := (log n ++ [Sent r])%list |})
    as (evs & Hl & HP).
  exists evs. split; [|done]. cbn [log] in Hl.
  destruct (k a _) as [x n1]. cbn [snd] in *. by rewrite Hl, <- app_assoc.
Qed.

Lemma snd_handle {A} (m : M A) h n : snd (handle m h n) = snd (m n).
Proof. unfold handle. by destruct (m n) as [[a|e] n1]. Qed.

Lemma continue_conversation_log self rid q n :
  exists evs,
    log (snd (continue_conversation self rid q n)) =
      (log n ++ Sent (CreateMessage (py_str rid) q) :: evs)%list /\
    Forall polling evs.
Proof.
  unfold continue_conversation. rewrite snd_handle. cbv zeta.
  apply sends_first. intros a.
  destruct (400 <=? status a)%Z eqn:Hs; [auto with emits|].
  apply emits_bind.
  { unfold raise_for_status. rewrite Hs. auto with emits. }
  intros _.
  repeat (apply emits_bind; [solve [auto with emits]|intros ?]).
  apply emits_bind; [apply emits_poll_for_response|auto with emits].
Qed.

Lemma ask_question_log self q n :
  exists evs,
    log (snd (ask_question self q n)) =
      (log n ++ Sent (StartConversation q) :: evs)%list /\
    Forall polling evs.
Proof.
  unfold ask_question. rewrite snd_handle. cbv zeta.
  apply sends_first. intros a.
  destruct (400 <=? status a)%Z eqn:Hs; [auto with emits|].
  apply emits_bind.
  { unfold raise_for_status. rewrite Hs. auto with emits. }
  intros _.
  repeat (apply emits_bind; [solve [auto with emits]|intros ?]).
  destruct (_ || _); [auto with emits|].
  apply emits_bind; [apply emits_poll_for_response|auto with emits].
Qed.

Lemma polling_not_starts evs : Forall polling evs -> ~ starts evs.
Proof.
  intros HF [c Hin]. rewrite Forall_forall in HF.
  by apply HF in Hin.
Qed.

(** ** The results of [ask_question] *)

Lemma start_conversation_rejected_error self a result :
  start_conversation_rejected self a = Ok result -> is_error_result result.
Proof.
  unfold start_conversation_rejected, is_error_result.
  destruct (loads a) as [error_json|]; [|intros [= <-]; eauto].
  destruct (py_get_default error_json "message" _) as [m|]; [|done].
  cbn [exc_bind].
  destruct (py_get_default error_json "error_code" _) as [c|]; [|done].
  cbn [exc_bind].
  repeat (destruct (status a =? _)%Z; [intros [= <-]; eauto|]).
  intros [= <-]; eauto.
Qed.

Lemma ask_question_failed_error e : is_error_result (ask_question_failed e).
Proof. destruct e as [[[st m]|] t]; cbn; unfold is_error_result; eauto. Qed.

(** The two shapes of a result of [ask_question]. *)
Lemma ask_question_result self q n result n' :
  ask_question self q n = (result, n') ->
  is_error_result result \/
  exists conv msg t,
    truthy conv = true /\ truthy msg = true /\
    result = success_result conv msg t.
Proof.
  unfold ask_question, handle. cbv zeta.
  unfold bind at 1.
  destruct (send _ n) as [[a|e] n0];
    [|intros [= <- _]; left; apply ask_question_failed_error].
  destruct (400 <=? status a)%Z eqn:Hs.
  { unfold lift.
    destruct (start_conversation_rejected self a) as [res|e] eqn:Hr;
      intros [= <- _]; left.
    - by apply start_conversation_rejected_error in Hr.
    - apply ask_question_failed_error. }
  unfold bind at 1, raise_for_status. rewrite Hs. unfold ret at 1.
  unfold bind at 1, lift at 1.
  destruct (json a) as [data|e];
    [|intros [= <- _]; left; apply ask_question_failed_error].
  unfold bind at 1, lift at 1.
  destruct (py_get_default data "conversation_id" _) as [conv|e];
    [|intros [= <- _]; left; apply ask_question_failed_error].
  unfold bind at 1, lift at 1.
  destruct (py_get_default data "message_id" _) as [msg|e];
    [|intros [= <- _]; left; apply ask_question_failed_error].
  destruct (truthy conv) eqn:Hc; cbn [negb orb];
    [|intros [= <- _]; left; unfold is_error_result; eauto].
  destruct (truthy msg) eqn:Hm; cbn [negb orb];
    [|intros [= <- _]; left; unfold is_error_result; eauto].
  unfold bind.
  destruct (_poll_for_response _ _ _ _ _) as [[t|e] n1];
    intros [= <- _]; [|left; apply ask_question_failed_error].
  right. by exists conv, msg, t.
Qed.

Lemma ask_question_start_errors self q n :
  start_errors (pending n) = true ->
  is_error_result (fst (ask_question self q n)).
Proof.
  intros He. unfold ask_question, handle. cbv zeta.
  unfold bind at 1, send. unfold start_errors in He.
  destruct (pending n) as [|[e|a] rest]; cbn [fst];
    try apply ask_question_failed_error.
  destruct (400 <=? status a)%Z eqn:Hs.
  { unfold lift.
    destruct (start_conversation_rejected self a) as [res|e] eqn:Hr; cbn [fst].
    - by apply start_conversation_rejected_error in Hr.
    - apply ask_question_failed_error. }
  cbn [orb] in He.
  unfold bind at 1, raise_for_status. rewrite Hs. unfold ret at 1.
  unfold bind at 1, lift at 1.
  destruct (json a) as [data|e]; [|apply ask_question_failed_error].
  unfold bind at 1, lift at 1.
  destruct (py_get_default data "conversation_id" _) as [conv|e];
    [|apply ask_question_failed_error].
  unfold bind at 1, lift at 1.
  destruct (py_get_default data "message_id" _) as [msg|e];
    [|apply ask_question_failed_error].
  rewrite He. unfold ret, is_error_result. cbn [fst]. eauto.
Qed.

Lemma ask_question_started self q a rest lg conv msg :
  starts_with a conv msg ->
  ask_question self q {| pending := Answer a :: rest; log := lg |} =
  match _poll_for_response self conv msg default_max_attempts
          (answered (StartConversation q) rest lg) with
  | (Ok t, n1) => (success_result conv msg t, n1)
  | (Raise e, n1) => (ask_question_failed e, n1)
  end.
Proof.
  intros (Hs & data & Hj & Hc & Hm & Htc & Htm).
  unfold ask_question, handle. cbv zeta.
  unfold bind at 1, send. cbn [pending log].
  destruct (Z.leb_spec 400 (status a)) as [?|_]; [lia|].
  unfold bind at 1, raise_for_status.
  destruct (Z.leb_spec 400 (status a)) as [?|_]; [lia|].
  unfold ret at 1. unfold bind at 1, lift at 1. rewrite Hj.
  unfold bind at 1, lift at 1. rewrite Hc.
  unfold bind at 1, lift at 1. rewrite Hm.
  rewrite Htc, Htm. cbn [negb orb]. unfold bind, answered.
  by destruct (_poll_for_response _ _ _ _ _) as [[t|e] n1].
Qed.

(** ** The bot and its bindings *)

Lemma send_response_with_feedback_state t c m bot :
  conversations (_send_response_with_feedback t c m bot) = conversations bot /\
  wire (_send_response_with_feedback t c m bot) = wire bot.
Proof.
  unfold _send_response_with_feedback. by destruct (_ || _).
Qed.

Lemma deliver_state result bot :
  conversations (deliver result bot) = conversations bot /\
  wire (deliver result bot) = wire bot.
Proof.
  unfold deliver. destruct (negb (truthy result)); [done|].
  destruct (py_get result "status") as [st|]; [|done].
  destruct (py_eq st (PStr "success")).
  - destruct (exc_bind _ _) as [[[t c] m]|]; [|done].
    apply send_response_with_feedback_state.
  - by destruct (py_get_default result "error" _).
Qed.

Lemma call_state f bot :
  conversations (snd (call f bot)) = conversations bot /\
  wire (snd (call f bot)) = snd (f (wire bot)) /\
  fst (call f bot) = fst (f (wire bot)).
Proof. unfold call. by destruct (f (wire bot)). Qed.

Lemma handle_feedback_conversations self fd bot :
  conversations (_handle_feedback self fd bot) = conversations bot.
Proof.
  unfold _handle_feedback.
  destruct (exc_bind _ _) as [[[rt c] m]|]; [|done].
  destruct (negb _); [done|].
  destruct (call _ bot) as [result bot'] eqn:Hc.
  pose proof (call_state (send_feedback self c m rt) bot) as (H & _).
  rewrite Hc in H. cbn [snd] in H. rewrite <- H.
  destruct (py_get result "status") as [st|]; [|done].
  by destruct (py_eq st (PStr "success")).
Qed.

(** The routing of a message on a bound conversation. *)
Lemma route_message_bound self cid q bot rid :
  bound_conversation bot cid = Some rid ->
  conversations (route_message self cid q bot) = conversations bot /\
  wire (route_message self cid q bot) =
    snd (continue_conversation self rid q (wire bot)).
Proof.
  intros Hb. unfold route_message. rewrite Hb.
  destruct (call _ bot) as [result bot'] eqn:Hc.
  pose proof (call_state (continue_conversation self rid q) bot) as (H1 & H2 & _).
  rewrite Hc in H1, H2. cbn [snd] in H1, H2.
  destruct (deliver_state result bot') as [-> ->]. by rewrite H1, H2.
Qed.

(** The routing of a message on an unbound conversation. *)
Lemma route_message_unbound self cid q bot result n' :
  bound_conversation bot cid = None ->
  ask_question self q (wire bot) = (result, n') ->
  wire (route_message self cid q bot) = n' /\
  conversations (route_message self cid q bot) =
    match py_get result "conversation_id" with
    | Ok stored =>
        if truthy result && truthy stored
        then <[cid := stored]> (conversations bot)
        else conversations bot
    | Raise _ => conversations bot
    end.
Proof.
  intros Hb Ha. unfold route_message. rewrite Hb.
  unfold call. rewrite Ha.
  destruct (truthy result) eqn:Ht; cbn [negb andb].
  - destruct (py_get result "conversation_id") as [stored|e]; [|done].
    destruct (truthy stored).
    + by destruct (deliver_state result
                    (bind_conversation cid stored
                       {| conversations := conversations bot; wire := n';
                          outbox := outbox bot |})) as [-> ->].
    + by destruct (deliver_state result
                    {| conversations := conversations bot; wire := n';
                       outbox := outbox bot |}) as [-> ->].
  - destruct (deliver_state result
                {| conversations := conversations bot; wire := n';
                   outbox := outbox bot |}) as [-> ->].
    by destruct (py_get result "conversation_id").
Qed.

Lemma on_message_routes self order activity bot q :
  feedback_of activity = None ->
  _extract_user_message order activity = Ok q ->
  q <> "" ->
  _on_message_activity self order activity bot =
  route_message self (local_conversation_id activity) q (send_activity Typing bot).
Proof.
  intros Hf Hq Hne. unfold _on_message_activity. rewrite Hf, Hq.
  by destruct q.
Qed.

Lemma route_message_truthy self cid q bot :
  bindings_truthy bot -> bindings_truthy (route_message self cid q bot).
Proof.
  intros Hinv cid' rid.
  destruct (bound_conversation bot cid) as [r|] eqn:Hb.
  - destruct (route_message_bound self cid q bot r Hb) as [-> _]. apply Hinv.
  - destruct (ask_question self q (wire bot)) as [result n'] eqn:Ha.
    destruct (route_message_unbound self cid q bot result n' Hb Ha) as [_ ->].
    destruct (py_get result "conversation_id") as [stored|]; [|apply Hinv].
    destruct (truthy result); cbn [andb]; [|apply Hinv].
    destruct (truthy stored) eqn:Hs; [|apply Hinv].
    destruct (decide (cid = cid')) as [->|Hne].
    + rewrite lookup_insert_eq. by intros [= <-].
    + rewrite lookup_insert_ne by done. apply Hinv.
Qed.

Lemma reachable_truthy bot : reachable bot -> bindings_truthy bot.
Proof.
  induction 1 as [script|script bot _ IH|self order activity bot _ IH].
  - intros cid rid. cbn. by rewrite lookup_empty.
  - exact IH.
  - unfold _on_message_activity.
    destruct (feedback_of activity) as [fd|].
    { intros cid rid. rewrite handle_feedback_conversations. apply IH. }
    destruct (_extract_user_message order activity) as [[|c q]|]; try exact IH.
    by apply route_message_truthy.
Qed.

Lemma reachable_bound bot cid rid :
  reachable bot ->
  conversations bot !! cid = Some rid ->
  bound_conversation bot cid = Some rid.
Proof.
  intros Hr Hl. unfold bound_conversation. rewrite Hl.
  by rewrite (reachable_truthy bot Hr cid rid Hl).
Qed.

(** C3.  A message on a local conversation id that has a binding continues
    the bound remote conversation: the request is the create-message call on
    the stored remote id, no start-conversation call is made and the bindings
    stay as they are.  Without a binding the handler starts a conversation,
    and when the start succeeds it binds the local id to the remote id of the
    result. *)
Theorem bound_conversation_continues self order activity bot q :
  reachable bot ->
  feedback_of activity = None ->
  _extract_user_message order activity = Ok q ->
  q <> "" ->
  let cid := local_conversation_id activity in
  let bot' := _on_message_activity self order activity bot in
  (forall rid,
      conversations bot !! cid = Some rid ->
      conversations bot' = conversations bot /\
      exists evs,
        log (wire bot') =
          (log (wire bot) ++ Sent (CreateMessage (py_str rid) q) :: evs)%list /\
        ~ starts (Sent (CreateMessage (py_str rid) q) :: evs)) /\
  (conversations bot !! cid = None ->
      (exists evs,
          log (wire bot') =
            (log (wire bot) ++ Sent (StartConversation q) :: evs)%list) /\
      forall result n',
        ask_question self q (wire bot) = (result, n') ->
        py_get result "status" = Ok (PStr "success") ->
        exists conv,
          py_get result "conversation_id" = Ok conv /\
          conversations bot' = <[cid := conv]> (conversations bot)).
Proof.
  intros Hr Hf Hq Hne cid bot'. subst bot'.
  rewrite (on_message_routes _ _ _ _ _ Hf Hq Hne). fold cid.
  split.
  - intros rid Hl.
    assert (Hb : bound_conversation (send_activity Typing bot) cid = Some rid)
      by (by apply (reachable_bound bot)).
    destruct (route_message_bound self cid q _ rid Hb) as [-> ->].
    split; [done|].
    destruct (continue_conversation_log self rid q (wire bot)) as (evs & Hl' & HF).
    exists evs. split; [done|].
    intros [c Hin]. apply elem_of_cons in Hin as [[=]|Hin].
    by apply (polling_not_starts evs HF); exists c.
  - intros Hl.
    assert (Hb : bound_conversation (send_activity Typing bot) cid = None).
    { unfold bound_conversation. cbn [send_activity conversations]. by rewrite Hl. }
    split.
    + destruct (ask_question self q (wire bot)) as [result n'] eqn:Ha.
      destruct (route_message_unbound self cid q _ result n' Hb Ha) as [-> _].
      destruct (ask_question_log self q (wire bot)) as (evs & Hl' & _).
      rewrite Ha in Hl'. by exists evs.
    + intros result n' Ha Hst.
      destruct (route_message_unbound self cid q _ result n' Hb Ha) as [_ ->].
      destruct (ask_question_result _ _ _ _ _ Ha)
        as [(e & t & ->)|(conv & msg & t & Hc & Hm & ->)]; [done|].
      exists conv. split; [done|].
      change (py_get (success_result conv msg t) "conversation_id") with (Ok conv).
      change (truthy (success_result conv msg t)) with true.
      cbn [andb send_activity conversations]. by rewrite Hc.
Qed.

Lemma bound_conversation_continues_witness :
  let bot := supply second_script after_first_message in
  let bot' := _on_message_activity genie remove_dups
                (question "thread-1" "and the costs?") bot in
  conversations bot' = conversations bot /\
  exists evs,
    log (wire bot') =
      (log (wire bot) ++ Sent (CreateMessage "c1" "and the costs?") :: evs)%list /\
    ~ starts (Sent (CreateMessage "c1" "and the costs?") :: evs).
Proof.
  assert (Hr : reachable (supply second_script after_first_message))
    by (apply reachable_supply, reachable_message, reachable_new).
  refine (proj1 (bound_conversation_continues genie remove_dups
                   (question "thread-1" "and the costs?")
                   (supply second_script after_first_message)
                   "and the costs?" Hr _ _ _) (PStr "c1") _).
  - reflexivity.
  - vm_compute. reflexivity.
  - discriminate.
  - vm_compute. reflexivity.
Defined.

(** C4.  When the start-conversation call of a message on an unbound
    conversation errors (the request fails, the answer is an HTTP error, or it
    lacks a usable id), the bindings are unchanged, and a later message on the
    same conversation starts afresh. *)
Theorem failed_start_leaves_bindings self order activity bot q :
  feedback_of activity = None ->
  _extract_user_message order activity = Ok q ->
  q <> "" ->
  conversations bot !! local_conversation_id activity = None ->
  start_errors (pending (wire bot)) = true ->
  let bot' := _on_message_activity self order activity bot in
  conversations bot' = conversations bot /\
  (exists evs,
      log (wire bot') =
        (log (wire bot) ++ Sent (StartConversation q) :: evs)%list) /\
  forall self' order' activity' q' script,
    feedback_of activity' = None ->
    _extract_user_message order' activity' = Ok q' ->
    q' <> "" ->
    local_conversation_id activity' = local_conversation_id activity ->
    exists evs,
      log (wire (_on_message_activity self' order' activity' (supply script bot')))
      = (log (wire bot') ++ Sent (StartConversation q') :: evs)%list.
Proof.
  intros Hf Hq Hne Hl He bot'.
  assert (Hsame : conversations bot' = conversations bot).
  { subst bot'. rewrite (on_message_routes _ _ _ _ _ Hf Hq Hne).
    assert (Hb : bound_conversation (send_activity Typing bot)
                   (local_conversation_id activity) = None).
    { unfold bound_conversation. cbn [send_activity conversations]. by rewrite Hl. }
    pose proof (ask_question_start_errors self q (wire bot) He) as Herr.
    destruct (ask_question self q (wire bot)) as [result n'] eqn:Ha.
    destruct (route_message_unbound self _ q _ result n' Hb Ha) as [_ ->].
    cbn [fst] in Herr. by destruct Herr as (e & t & ->). }
  split; [done|]. split.
  - subst bot'. rewrite (on_message_routes _ _ _ _ _ Hf Hq Hne).
    assert (Hb : bound_conversation (send_activity Typing bot)
                   (local_conversation_id activity) = None).
    { unfold bound_conversation. cbn [send_activity conversations]. by rewrite Hl. }
    destruct (ask_question self q (wire bot)) as [result n'] eqn:Ha.
    destruct (route_message_unbound self _ q _ result n' Hb Ha) as [-> _].
    destruct (ask_question_log self q (wire bot)) as (evs & Hl' & _).
    rewrite Ha in Hl'. by exists evs.
  - intros self' order' activity' q' script Hf' Hq' Hne' Hid.
    rewrite (on_message_routes _ _ _ _ _ Hf' Hq' Hne'). rewrite Hid.
    set (b := send_activity Typing (supply script bot')).
    assert (Hb : bound_conversation b (local_conversation_id activity) = None).
    { unfold bound_conversation. subst b.
      cbn [send_activity supply conversations]. by rewrite Hsame, Hl. }
    destruct (ask_question self' q' (wire b)) as [result n'] eqn:Ha.
    destruct (route_message_unbound self' _ q' _ result n' Hb Ha) as [-> _].
    destruct (ask_question_log self' q' (wire b)) as (evs & Hl' & _).
    rewrite Ha in Hl'. by exists evs.
Qed.

Lemma failed_start_leaves_bindings_witness :
  let bot := new_bot [rejected 403] in
  let bot' := _on_message_activity genie remove_dups
                (question "thread-1" "what is revenue?") bot in
  conversations bot' = conversations bot /\
  exists evs,
    log (wire bot') =
      (log (wire bot) ++ Sent (StartConversation "what is revenue?") :: evs)%list.
Proof.
  pose proof (failed_start_leaves_bindings genie remove_dups
                (question "thread-1" "what is revenue?")
                (new_bot [rejected 403]) "what is revenue?") as H.
  cbv zeta in *.
  destruct H as (H1 & H2 & _).
  - reflexivity.
  - vm_compute. reflexivity.
  - discriminate.
  - reflexivity.
  - reflexivity.
  - split; [exact H1|exact H2].
Defined.

(** C10, as amended.  When the start-conversation call returns both ids and
    polling returns a text (the assembled answer, the remote-failure message
    or the timeout message), [ask_question] returns a success result with that
    text, and the handler binds the conversation and sends the text with the
    feedback card.  When polling raises instead, [ask_question] returns an
    error result without a conversation id, the handler binds nothing and
    sends the error message, without a feedback card. *)
Theorem answered_start_is_success self order activity bot q a rest conv msg :
  feedback_of activity = None ->
  _extract_user_message order activity = Ok q ->
  q <> "" ->
  conversations bot !! local_conversation_id activity = None ->
  pending (wire bot) = Answer a :: rest ->
  starts_with a conv msg ->
  let bot' := _on_message_activity self order activity bot in
  (forall t n1,
      _poll_for_response self conv msg default_max_attempts
        (answered (StartConversation q) rest (log (wire bot))) = (Ok t, n1) ->
      ask_question self q (wire bot) = (success_result conv msg t, n1) /\
      conversations bot' =
        <[local_conversation_id activity := conv]> (conversations bot) /\
      outbox bot' =
        (outbox bot ++ [Typing; Message (PStr t); FeedbackCard conv msg])%list) /\
  (forall e n1,
      _poll_for_response self conv msg default_max_attempts
        (answered (StartConversation q) rest (log (wire bot))) = (Raise e, n1) ->
      ask_question self q (wire bot) = (ask_question_failed e, n1) /\
      py_get (ask_question_failed e) "status" = Ok (PStr "error") /\
      py_get (ask_question_failed e) "conversation_id" = Ok PNone /\
      conversations bot' = conversations bot /\
      exists error,
        py_get (ask_question_failed e) "error" = Ok (PStr error) /\
        outbox bot' =
          (outbox bot
           ++ [Typing;
               Message (PStr ("Sorry, I encountered an error: " +:+ error
                              +:+ nl +:+ nl
                              +:+ "Please make sure your Databricks Genie Space is properly configured."))])%list).
Proof.
  intros Hf Hq Hne Hl Hp Hs. cbv zeta. split.
  - intros t n1 Hpoll.
    assert (Ha : ask_question self q (wire bot) = (success_result conv msg t, n1)).
    { destruct (wire bot) as [pend lg] eqn:Hw. cbn [pending log] in *. subst pend.
      by rewrite (ask_question_started _ _ _ _ _ _ _ Hs), Hpoll. }
    split; [done|].
    rewrite (on_message_routes _ _ _ _ _ Hf Hq Hne).
    unfold route_message, bound_conversation.
    cbn [send_activity conversations]. rewrite Hl.
    unfold call. cbn [send_activity wire]. rewrite Ha.
    destruct Hs as (_ & _ & _ & _ & _ & Htc & Htm).
    change (truthy (success_result conv msg t)) with true.
    change (py_get (success_result conv msg t) "conversation_id") with (Ok conv).
    cbn [negb]. rewrite Htc.
    unfold deliver.
    change (truthy (success_result conv msg t)) with true.
    change (py_get (success_result conv msg t) "status") with (Ok (PStr "success")).
    cbn [negb]. change (py_eq (PStr "success") (PStr "success")) with true.
    cbv iota.
    change (py_get_default (success_result conv msg t) "response" _)
      with (Ok (PStr t)).
    change (py_get (success_result conv msg t) "conversation_id") with (Ok conv).
    change (py_get (success_result conv msg t) "message_id") with (Ok msg).
    cbn [exc_bind]. unfold _send_response_with_feedback. rewrite Htc, Htm.
    cbn [negb orb send_activity bind_conversation conversations outbox].
    split; [done|]. by rewrite <- !app_assoc.
  - intros e n1 Hpoll.
    assert (Ha : ask_question self q (wire bot) = (ask_question_failed e, n1)).
    { destruct (wire bot) as [pend lg] eqn:Hw. cbn [pending log] in *. subst pend.
      by rewrite (ask_question_started _ _ _ _ _ _ _ Hs), Hpoll. }
    split; [done|].
    rewrite (on_message_routes _ _ _ _ _ Hf Hq Hne).
    unfold route_message, bound_conversation.
    cbn [send_activity conversations]. rewrite Hl.
    unfold call. cbn [send_activity wire]. rewrite Ha.
    destruct e as [[[st m]|] t]; cbn [ask_question_failed];
      (split; [reflexivity|]); (split; [reflexivity|]);
      (split; [reflexivity|]); eexists; (split; [reflexivity|]);
      unfold error_result, deliver, say;
      cbn [truthy negb py_get py_get_default dict_get String.eqb Ascii.eqb
           Bool.eqb default py_eq py_str send_activity outbox];
      by rewrite <- app_assoc.
Qed.

Lemma answered_start_is_success_witness :
  (conversations (_on_message_activity genie remove_dups
                    (question "thread-1" "what is revenue?") slow_bot)
   = <["thread-1" := PStr "c1"]> (conversations slow_bot) /\
   outbox (_on_message_activity genie remove_dups
             (question "thread-1" "what is revenue?") slow_bot)
   = [Typing;
      Message (PStr "Sorry, Genie is taking too long to respond. Please try again.");
      FeedbackCard (PStr "c1") (PStr "m1")]) /\
  (py_get (fst (ask_question genie "what is revenue?" (wire unreachable_bot)))
          "status" = Ok (PStr "error") /\
   conversations (_on_message_activity genie remove_dups
                    (question "thread-1" "what is revenue?") unreachable_bot)
   = conversations unreachable_bot /\
   outbox (_on_message_activity genie remove_dups
             (question "thread-1" "what is revenue?") unreachable_bot)
   = [Typing;
      Message (PStr ("Sorry, I encountered an error: Connection reset by peer"
                     +:+ nl +:+ nl
                     +:+ "Please make sure your Databricks Genie Space is properly configured."))]).
Proof.
  assert (Hs : starts_with started_c1_response (PStr "c1") (PStr "m1")).
  { split; [vm_compute; reflexivity|].
    exists (PDict [("conversation_id", PStr "c1"); ("message_id", PStr "m1")]).
    repeat split; reflexivity. }
  split.
  - destruct (answered_start_is_success genie remove_dups
                (question "thread-1" "what is revenue?") slow_bot
                "what is revenue?" started_c1_response
                (repeat still_running 30) (PStr "c1") (PStr "m1"))
      as [Hok _];
      [reflexivity|vm_compute; reflexivity|discriminate|reflexivity
      |reflexivity|exact Hs|].
    destruct (Hok "Sorry, Genie is taking too long to respond. Please try again."
                (snd (_poll_for_response genie (PStr "c1") (PStr "m1")
                        default_max_attempts
                        (answered (StartConversation "what is revenue?")
                           (repeat still_running 30) (log (wire slow_bot))))))
      as (_ & -> & ->); [vm_compute; reflexivity|].
    split; reflexivity.
  - destruct (answered_start_is_success genie remove_dups
                (question "thread-1" "what is revenue?") unreachable_bot
                "what is revenue?" started_c1_response
                (repeat connection_reset 30) (PStr "c1") (PStr "m1"))
      as [_ Hraise];
      [reflexivity|vm_compute; reflexivity|discriminate|reflexivity
      |reflexivity|exact Hs|].
    destruct (Hraise (Exn None "Connection reset by peer")
                (snd (_poll_for_response genie (PStr "c1") (PStr "m1")
                        default_max_attempts
                        (answered (StartConversation "what is revenue?")
                           (repeat connection_reset 30)
                           (log (wire unreachable_bot))))))
      as (-> & Hst & _ & -> & error & Herr & ->); [vm_compute; reflexivity|].
    injection Herr as <-.
    split; [exact Hst|]. split; reflexivity.
Defined.

(** The start call returns both ids, every poll fails: the result is an
    error, nothing is bound and no feedback card is sent. *)
Lemma poll_raise_is_error :
  let bot' := _on_message_activity genie remove_dups
                (question "thread-1" "what is revenue?") unreachable_bot in
  starts_with started_c1_response (PStr "c1") (PStr "m1") /\
  py_get (fst (ask_question genie "what is revenue?" (wire unreachable_bot)))
         "status" = Ok (PStr "error") /\
  conversations bot' !! "thread-1" = None /\
  outbox bot' =
    [Typing;
     Message (PStr ("Sorry, I encountered an error: Connection reset by peer"
                    +:+ nl +:+ nl
                    +:+ "Please make sure your Databricks Genie Space is properly configured."))].
Proof.
  cbv zeta. split.
  { split; [vm_compute; reflexivity|].
    exists (PDict [("conversation_id", PStr "c1"); ("message_id", PStr "m1")]).
    repeat split; reflexivity. }
  split; [vm_compute; reflexivity|].
  split; vm_compute; reflexivity.
Qed.

(** ** Feedback *)

Lemma upper_char_not_lower c : is_lower (upper_char c) = false.
Proof.
  unfold upper_char, is_lower.
  destruct ((97 <=? nat_of_ascii c) && (nat_of_ascii c <=? 122)) eqn:H.
  - apply andb_true_iff in H as [H1%Nat.leb_le H2%Nat.leb_le].
    rewrite nat_ascii_embedding by lia.
    apply andb_false_iff. left. apply Nat.leb_gt. lia.
  - done.
Qed.

Lemma upper_not_lower s :
  Forall (fun c => is_lower c = false) (list_ascii_of_string (upper s)).
Proof.
  induction s as [|c s IH]; cbn [upper list_ascii_of_string];
    constructor; [apply upper_char_not_lower|done].
Qed.

Lemma upper_char_capital c : upper_char c = capital c.
Proof.
  destruct c as [[] [] [] [] [] [] [] []]; reflexivity.
Qed.

Lemma upper_capitals t : upper t = capitals t.
Proof.
  unfold capitals. induction t as [|c t IH]; [done|].
  cbn [upper list_ascii_of_string map string_of_list_ascii].
  by rewrite IH, upper_char_capital.
Qed.

(** [send_feedback] sends one request when the rating is a string, none
    otherwise. *)
Lemma send_feedback_log self conv msg rating n :
  log (snd (send_feedback self conv msg rating n)) =
  (log n ++ match rating with
            | PStr s => [Sent (PostFeedback (py_str conv) (py_str msg) (upper s))]
            | _ => []
            end)%list.
Proof.
  unfold send_feedback. rewrite snd_handle.
  destruct rating as [| | |s| |]; cbn [py_upper];
    try (unfold bind, lift; cbn [snd]; by rewrite app_nil_r).
  unfold bind at 1, lift at 1. unfold bind at 1, send.
  destruct (pending n) as [|[e|a] rest]; cbn [snd log]; try done.
  unfold bind, raise_for_status.
  by destruct (400 <=? status a)%Z.
Qed.

Lemma handle_feedback_wire self d bot :
  wire (_handle_feedback self (PDict d) bot) =
  if missing d "rating" || missing d "conversation_id" || missing d "message_id"
  then wire bot
  else snd (send_feedback self (field d "conversation_id")
              (field d "message_id") (field d "rating") (wire bot)).
Proof.
  unfold _handle_feedback, missing, field. cbn [py_get exc_bind].
  destruct (dict_get d "rating") as [rating|]; cbn [default truthy negb andb orb];
    [|done].
  destruct (truthy rating); cbn [negb andb orb]; [|done].
  destruct (dict_get d "conversation_id") as [conv|];
    cbn [default truthy negb andb orb]; [|done].
  destruct (truthy conv); cbn [negb andb orb]; [|done].
  destruct (dict_get d "message_id") as [msg|];
    cbn [default truthy negb andb orb]; [|done].
  destruct (truthy msg); cbn [negb andb orb]; [|done].
  unfold call. destruct (send_feedback self conv msg rating (wire bot)) as [result n'].
  cbn [snd]. destruct (py_get result "status") as [st|]; [|done].
  by destruct (py_eq st (PStr "success")).
Qed.

(** C9.  The feedback handler sends the feedback request only when the
    rating, the conversation id and the message id are all present: when one
    is missing or empty it sends nothing and answers that the feedback could
    not be recorded.  When all three are present it sends exactly one
    request, for that conversation and that message, and the rating it
    carries is the rating of the event in upper case: the same characters,
    every letter replaced by its capital. *)
Theorem feedback_validation self (d : list (string * pyval)) bot :
  let bot' := _handle_feedback self (PDict d) bot in
  log (wire bot') = (log (wire bot) ++ feedback_requests d)%list /\
  (missing d "rating" || missing d "conversation_id" || missing d "message_id"
   = true ->
   feedback_requests d = [] /\
   wire bot' = wire bot /\
   outbox bot' =
     (outbox bot ++ [Message (PStr "Sorry, couldn't record your feedback.")])%list) /\
  (forall conv msg rating,
      Sent (PostFeedback conv msg rating) ∈ feedback_requests d ->
      missing d "rating" = false /\ missing d "conversation_id" = false /\
      missing d "message_id" = false /\
      (exists r, dict_get d "rating" = Some (PStr r) /\ rating = capitals r) /\
      Forall (fun c => is_lower c = false) (list_ascii_of_string rating)) /\
  (forall r conv msg,
      dict_get d "rating" = Some (PStr r) -> r <> "" ->
      dict_get d "conversation_id" = Some conv -> truthy conv = true ->
      dict_get d "message_id" = Some msg -> truthy msg = true ->
      log (wire bot') =
        (log (wire bot)
         ++ [Sent (PostFeedback (py_str conv) (py_str msg) (capitals r))])%list /\
      String.length (capitals r) = String.length r /\
      forall i c, String.get i r = Some c ->
                  String.get i (capitals r) = Some (capital c)).
Proof.
  cbv zeta.
  assert (Hlog : log (wire (_handle_feedback self (PDict d) bot))
                 = (log (wire bot) ++ feedback_requests d)%list).
  { rewrite handle_feedback_wire. unfold missing, feedback_requests, field.
    destruct (dict_get d "rating") as [rating|];
      cbn [orb]; [|by rewrite app_nil_r].
    destruct (dict_get d "conversation_id") as [conv|];
      [|rewrite orb_true_r; cbn [orb]; destruct rating; by rewrite app_nil_r].
    destruct (dict_get d "message_id") as [msg|];
      [|rewrite !orb_true_r; destruct rating; by rewrite app_nil_r].
    rewrite <- !negb_andb.
    destruct (truthy rating && truthy conv && truthy msg) eqn:Hall; cbn [negb].
    + rewrite send_feedback_log.
      destruct rating as [| | |s| |]; try done.
      cbn [truthy] in Hall. by rewrite Hall.
    + destruct rating as [| | |s| |]; cbn [truthy] in Hall;
        rewrite ?Hall, ?app_nil_r; done. }
  split; [exact Hlog|split; [|split]].
  - intros Hm. split; [|split].
    + unfold missing, feedback_requests in *.
      destruct (dict_get d "rating") as [rating|]; [|done].
      destruct (dict_get d "conversation_id") as [conv|]; [|by destruct rating].
      destruct (dict_get d "message_id") as [msg|]; [|by destruct rating].
      rewrite <- !negb_andb in Hm. apply negb_true_iff in Hm.
      destruct rating as [| | |s| |]; try done.
      cbn [truthy] in Hm. by rewrite Hm.
    + by rewrite handle_feedback_wire, Hm.
    + unfold _handle_feedback, missing in *. cbn [py_get exc_bind].
      destruct (dict_get d "rating") as [rating|]; cbn [truthy andb negb];
        [|done].
      destruct (dict_get d "conversation_id") as [conv|]; cbn [truthy andb negb];
        [|by rewrite andb_false_r].
      destruct (dict_get d "message_id") as [msg|]; cbn [truthy andb negb];
        [|by rewrite !andb_false_r].
      rewrite <- !negb_andb in Hm. by rewrite Hm.
  - intros conv msg rating Hin. unfold feedback_requests, missing in *.
    destruct (dict_get d "rating") as [[| | |s| |]|];
      try by apply elem_of_nil in Hin.
    destruct (dict_get d "conversation_id") as [c|];
      [|by apply elem_of_nil in Hin].
    destruct (dict_get d "message_id") as [m|];
      [|by apply elem_of_nil in Hin].
    destruct (negb (String.eqb s "")) eqn:H1; [|by apply elem_of_nil in Hin].
    destruct (truthy c) eqn:H2; [|by apply elem_of_nil in Hin].
    destruct (truthy m) eqn:H3; [|by apply elem_of_nil in Hin].
    cbn [andb truthy negb] in *. rewrite H1.
    apply list_elem_of_singleton in Hin. injection Hin as -> -> ->.
    repeat split; try done;
      [exists s; by rewrite upper_capitals|apply upper_not_lower].
  - intros r conv msg Hr Hne Hc Htc Hm Htm. split; [|split].
    + rewrite Hlog. unfold feedback_requests. rewrite Hr, Hc, Hm, Htc, Htm.
      apply String.eqb_neq in Hne. rewrite Hne. cbn [negb andb].
      by rewrite upper_capitals.
    + unfold capitals. clear. induction r as [|c r IH]; [done|].
      cbn [list_ascii_of_string map string_of_list_ascii String.length].
      by rewrite IH.
    + unfold capitals. clear. induction r as [|x r IH]; intros i c; [done|].
      cbn [list_ascii_of_string map string_of_list_ascii String.get].
      destruct i as [|i]; [by intros [= ->]|apply IH].
Qed.

Lemma feedback_validation_witness :
  (log (wire (_handle_feedback genie
                (PDict [("action", PStr "feedback"); ("rating", PStr "positive");
                        ("conversation_id", PStr "c1");
                        ("message_id", PStr "m1")])
                (new_bot [Answer (ok_json (PDict []))])))
   = [Sent (PostFeedback "c1" "m1" "POSITIVE")]) /\
  (log (wire (_handle_feedback genie
                (PDict [("action", PStr "feedback"); ("rating", PStr "positive");
                        ("conversation_id", PStr "c1")])
                (new_bot [Answer (ok_json (PDict []))])))
   = [] /\
   outbox (_handle_feedback genie
             (PDict [("action", PStr "feedback"); ("rating", PStr "positive");
                     ("conversation_id", PStr "c1")])
             (new_bot [Answer (ok_json (PDict []))]))
   = [Message (PStr "Sorry, couldn't record your feedback.")]).
Proof.
  split.
  - destruct (feedback_validation genie
                [("action", PStr "feedback"); ("rating", PStr "positive");
                 ("conversation_id", PStr "c1"); ("message_id", PStr "m1")]
                (new_bot [Answer (ok_json (PDict []))]))
      as (_ & _ & _ & Hsent).
    destruct (Hsent "positive" (PStr "c1") (PStr "m1")) as (-> & _);
      [reflexivity|discriminate|reflexivity|reflexivity|reflexivity
      |reflexivity|].
    vm_compute. reflexivity.
  - destruct (feedback_validation genie
                [("action", PStr "feedback"); ("rating", PStr "positive");
                 ("conversation_id", PStr "c1")]
                (new_bot [Answer (ok_json (PDict []))]))
      as (Hlog & Hmissing & _).
    destruct (Hmissing eq_refl) as (Hnone & _ & ->).
    rewrite Hlog, Hnone. split; reflexivity.
Defined.

(** ** Text normalisation *)

Lemma match_name_same name : forall shown rest before,
  same_letters name shown ->
  match_name name (shown +:+ rest) before = Some (last_char shown before, rest).
Proof.
  induction name as [|c name IH]; intros [|d shown] rest before H; try done.
  injection H as Hc H. rewrite append_cons. cbn [match_name last_char].
  rewrite Hc, Ascii.eqb_refl. by apply IH.
Qed.

Lemma word_not_space c : is_word c = true -> is_space c = false.
Proof. by destruct c as [[] [] [] [] [] [] [] []]. Qed.

Lemma match_at_name_word name c s :
  is_word c = true ->
  match_at_name name (String c s) = match_name_tail name (String c s).
Proof. by destruct c as [[] [] [] [] [] [] [] []]. Qed.

Lemma match_pattern_leading name spaces : forall s rest,
  Forall (fun c => is_space c = true) (list_ascii_of_string spaces) ->
  match_pattern name s = Some rest ->
  match_pattern name (spaces +:+ s) = Some rest.
Proof.
  induction spaces as [|c spaces IH]; intros s rest HF Hm; [done|].
  cbn [list_ascii_of_string] in HF. apply Forall_cons in HF as [Hc HF].
  rewrite append_cons. cbn [match_pattern]. rewrite Hc.
  by rewrite (IH s rest HF Hm).
Qed.

(** A name at the start, after whitespace and in any case, is replaced by a
    space together with the punctuation that follows it. *)
Lemma sub_name_leading name shown rest spaces c shown' :
  shown = String c shown' ->
  is_word c = true ->
  same_letters name shown ->
  Forall (fun c => is_space c = true) (list_ascii_of_string spaces) ->
  word_boundary (last_char shown None) rest = true ->
  sub_name name (spaces +:+ shown +:+ rest) = " " +:+ skip_punctuation rest.
Proof.
  intros -> Hc Hsame HF Hb. unfold sub_name.
  rewrite (match_pattern_leading name spaces _ (skip_punctuation rest) HF); [done|].
  rewrite append_cons. cbn [match_pattern].
  rewrite (word_not_space c Hc), (match_at_name_word _ _ _ Hc).
  unfold match_name_tail. rewrite <- append_cons.
  by rewrite (match_name_same _ _ _ _ Hsame), Hb.
Qed.

Lemma set_order_singleton order (x : string) l :
  set_order order -> remove_dups l = [x] -> order l = [x].
Proof.
  intros Ho Hl. specialize (Ho l). rewrite Hl in Ho.
  by apply Permutation_singleton_r in Ho.
Qed.

Lemma collect_mentions_deserialized ents texts names :
  Forall (fun entity => exists type properties, entity = Entity type properties)
         ents ->
  collect_mentions ents texts names = (texts, names).
Proof. by intros [|e ents' (ty & props & ->) _]. Qed.

Lemma replace_scan_absent old new : forall s,
  contains old s = false -> replace_scan old new s 0 = s.
Proof.
  induction s as [|c s IH]; [done|]. cbn [contains replace_scan].
  intros [Hp Hc]%orb_false_iff. by rewrite Hp, IH.
Qed.

Lemma replace_absent old new s :
  old <> "" -> contains old s = false -> replace old new s = s.
Proof.
  intros Hold Hc. destruct old as [|c old]; [done|].
  by apply replace_scan_absent.
Qed.

(** On a deserialized activity the loop over the entities collects nothing. *)
Lemma extract_user_message_deserialized order activity raw :
  deserialized activity ->
  activity_text activity = Some raw ->
  raw <> "" ->
  _extract_user_message order activity =
  Ok (strip (strip_names (order (recipient_names activity))
               (replace "<at>Databricks Genie</at>" "" raw))).
Proof.
  intros Hd Ht Hraw. unfold _extract_user_message, recipient_names.
  rewrite Ht. destruct raw as [|c raw]; [done|].
  rewrite (collect_mentions_deserialized _ [] [] Hd).
  cbn [remove_mentions exc_bind str_names app].
  by destruct (recipient_name activity) as [[|d r]|].
Qed.

(** C8.  On an activity as the handler receives it, the mention markup is not
    removed: the entities are objects without [get], the loop that collects
    markup and names ends at the first of them with nothing collected, and
    the example comes back with its markup.  What is removed is the fixed text
    [<at>Databricks Genie</at>] and a leading occurrence of the recipient's
    name: a message that begins with the name, whitespace before it and
    punctuation after it, gives the rest of the message, trimmed. *)
Theorem mention_markup_survives order :
  set_order order ->
  _extract_user_message order revenue_activity
    = Ok "<at>Bot</at> what is revenue?" /\
  (forall activity raw,
      deserialized activity ->
      activity_text activity = Some raw ->
      raw <> "" ->
      _extract_user_message order activity =
      Ok (strip (strip_names (order (recipient_names activity))
                   (replace "<at>Databricks Genie</at>" "" raw)))) /\
  (forall activity name shown rest spaces c shown',
      deserialized activity ->
      activity_text activity = Some (spaces +:+ shown +:+ rest) ->
      recipient_name activity = Some name ->
      contains "<at>Databricks Genie</at>" (spaces +:+ shown +:+ rest) = false ->
      shown = String c shown' ->
      is_word c = true ->
      same_letters name shown ->
      Forall (fun c => is_space c = true) (list_ascii_of_string spaces) ->
      word_boundary (last_char shown None) rest = true ->
      _extract_user_message order activity
        = Ok (strip (" " +:+ skip_punctuation rest))) /\
  _extract_user_message order named_activity = Ok "what is revenue?".
Proof.
  intros Ho.
  assert (Hname : forall activity name shown rest spaces c shown',
    deserialized activity ->
    activity_text activity = Some (spaces +:+ shown +:+ rest) ->
    recipient_name activity = Some name ->
    contains "<at>Databricks Genie</at>" (spaces +:+ shown +:+ rest) = false ->
    shown = String c shown' ->
    is_word c = true ->
    same_letters name shown ->
    Forall (fun c => is_space c = true) (list_ascii_of_string spaces) ->
    word_boundary (last_char shown None) rest = true ->
    _extract_user_message order activity
      = Ok (strip (" " +:+ skip_punctuation rest))).
  { intros activity name shown rest spaces c shown' Hd Ht Hr Hc Hs Hw Hsame HF Hb.
    assert (Hne : name <> "").
    { intros ->. subst shown. by destruct c. }
    rewrite (extract_user_message_deserialized order activity _ Hd Ht).
    2:{ subst shown. destruct spaces; by rewrite ?append_cons. }
    rewrite replace_absent by done.
    unfold recipient_names. rewrite Hr.
    destruct name as [|d name]; [done|].
    rewrite (set_order_singleton order (String d name) _ Ho) by reflexivity.
    cbn [strip_names String.eqb].
    by rewrite (sub_name_leading _ _ _ _ _ _ Hs Hw Hsame HF Hb). }
  split; [|split; [|split]].
  - rewrite (extract_user_message_deserialized order revenue_activity
               "<at>Bot</at> what is revenue?"); try done.
    + rewrite (set_order_singleton order "Bot" _ Ho) by reflexivity.
      vm_compute. reflexivity.
    + repeat constructor. by eexists _, _.
  - intros activity raw. apply extract_user_message_deserialized.
  - exact Hname.
  - rewrite (Hname named_activity "Bot" "Bot" ": what is revenue?" ""
               "B"%char "ot")
      by first [done | constructor | vm_compute; reflexivity].
    vm_compute. reflexivity.
Qed.

Lemma mention_markup_survives_witness :
  set_order remove_dups /\
  _extract_user_message remove_dups revenue_activity
    = Ok "<at>Bot</at> what is revenue?".
Proof.
  assert (Ho : set_order remove_dups) by (intros l; reflexivity).
  split; [exact Ho|].
  exact (proj1 (mention_markup_survives remove_dups Ho)).
Defined.

(** The loop does remove the markup of an entity that is a mapping: the same
    activity built by hand gives the text without the mention. *)
Remark mapping_entities_are_stripped :
  _extract_user_message remove_dups revenue_activity_by_hand
    = Ok "what is revenue?".
Proof. vm_compute. reflexivity. Qed.

(** * Further properties *)

(** ** Tables, line by line *)

Lemma format_table_fenced columns rows t :
  format_table columns rows = Ok t ->
  exists tail, t = nl +:+ "```" +:+ nl +:+ tail.
Proof.
  unfold format_table.
  destruct (match columns with [] => _ | _ => _ end) as [columns'|]; [|done].
  cbn [exc_bind].
  destruct (py_take 10 rows) as [shown|]; [|done]. cbn [exc_bind].
  destruct (py_iter shown) as [shown'|]; [|done]. cbn [exc_bind].
  destruct (widen shown' _) as [ws|]; [|done]. cbn [exc_bind].
  destruct (format_rows shown' ws) as [body|]; [|done]. cbn [exc_bind].
  destruct (py_len rows) as [total|]; [|done]. cbn [exc_bind].
  intros [= <-]. cbv zeta. cbn [app].
  eexists. by rewrite append_assoc.
Qed.

Lemma format_query_result_body_rows v t :
  format_query_result_body v = Ok t ->
  t = "" \/
  exists columns rows,
    data_array v = Some rows /\ truthy rows = true /\
    format_table columns rows = Ok t.
Proof.
  unfold format_query_result_body, data_array.
  destruct (py_in "statement_response" v) as [[|]|] eqn:Hin;
    cbn [exc_bind negb]; [|by intros [= <-]; left|done].
  destruct (py_getitem v "statement_response") as [stmt|] eqn:Hstmt;
    cbn [exc_bind]; [|done].
  match goal with
  | |- exc_bind ?c _ = _ -> _ => destruct c as [columns|]
  end; cbn [exc_bind]; [|done].
  destruct (py_in "result" stmt) as [[|]|] eqn:Hres;
    cbn [exc_bind negb]; [|by intros [= <-]; left|done].
  destruct (py_getitem stmt "result") as [result|] eqn:Hresult;
    cbn [exc_bind]; [|done].
  destruct (truthy result); cbn [negb]; [|by intros [= <-]; left].
  destruct (py_in "data_array" result) as [[|]|] eqn:Hda;
    cbn [exc_bind negb]; [|by intros [= <-]; left|done].
  destruct (py_getitem result "data_array") as [rows|] eqn:Hrows;
    cbn [exc_bind]; [|done].
  destruct (truthy rows) eqn:Ht; cbn [negb]; [|by intros [= <-]; left].
  intros Hf. right. exists columns, rows.
  destruct v as [| | | | |d]; try done. cbn [py_getitem] in Hstmt.
  destruct (dict_get d "statement_response") as [stmt'|]; [|done].
  injection Hstmt as ->.
  destruct stmt as [| | | | |s]; try done. cbn [py_getitem] in Hresult.
  destruct (dict_get s "result") as [result'|]; [|done].
  injection Hresult as ->.
  destruct result as [| | | | |r]; try done. cbn [py_getitem] in Hrows.
  destruct (dict_get r "data_array") as [rows'|]; [|done].
  by injection Hrows as ->.
Qed.

(** X1.  A table is rendered only for a payload whose
    [statement_response.result.data_array] is non-empty; every other value
    renders as the empty string, and what is rendered begins with the
    opening fence on a line of its own. *)
Theorem table_only_for_rows (result_data : pyval) :
  _format_query_result result_data = "" \/
  exists rows tail,
    data_array result_data = Some rows /\ truthy rows = true /\
    _format_query_result result_data = nl +:+ "```" +:+ nl +:+ tail.
Proof.
  unfold _format_query_result.
  destruct (format_query_result_body result_data) as [t|] eqn:Hb; [|by left].
  apply format_query_result_body_rows in Hb as [->|(columns & rows & Hd & Ht & Hf)];
    [by left|].
  right. apply format_table_fenced in Hf as [tail ->]. by exists rows, tail.
Qed.

Lemma length_repeat_char c n : String.length (repeat_char c n) = n.
Proof. induction n as [|n IH]; [done|]. cbn. by rewrite IH. Qed.

Lemma ljust_length s w :
  String.length (ljust s w) = Nat.max (String.length s) w.
Proof. unfold ljust. rewrite length_append, length_repeat_char. lia. Qed.

Lemma join_length sep l :
  String.length (join sep l) =
  sum_list (map String.length l) + String.length sep * (length l - 1).
Proof.
  induction l as [|p [|q l] IH]; [cbn; lia|cbn; lia|].
  rewrite join_cons, !length_append, IH. cbn [map sum_list length sum_list_with].
  unfold id. replace (S (S (length l)) - 1) with (S (length l)) by lia.
  replace (S (length l) - 1) with (length l) by lia. lia.
Qed.

Lemma cell_width_text v : cell_width v = String.length (cell_text v).
Proof. by destruct v. Qed.

(** Cells padded to widths they fit in have exactly those widths. *)
Lemma padded_lengths {A} (f : A -> string) xs ws :
  Forall2 (fun x w => String.length (f x) <= w) xs ws ->
  map String.length (zip_with (fun x w => ljust (f x) w) xs ws) = ws.
Proof.
  induction 1 as [|x w xs ws Hle _ IH]; [done|].
  cbn [zip_with map]. rewrite IH, ljust_length. f_equal. lia.
Qed.

Lemma column_width_header i name shown :
  String.length name <= column_width i name shown.
Proof. unfold column_width. lia. Qed.

Lemma column_width_cell i name shown row v :
  row ∈ shown -> row !! i = Some v ->
  cell_width v <= column_width i name shown.
Proof.
  intros Hrow Hv. unfold column_width.
  assert (cell_width v ∈ column_cells i shown) as Hin.
  { unfold column_cells. apply list_elem_of_omap. exists row.
    split; [done|]. by rewrite Hv. }
  apply max_list_elem_of_le in Hin. lia.
Qed.

Lemma table_header_length names shown :
  String.length (table_header names shown)
  = line_length (table_widths names shown).
Proof.
  unfold table_header, line_length. rewrite join_length.
  assert (Hlen : length (table_widths names shown) = length names)
    by (unfold table_widths; by rewrite length_imap).
  assert (map String.length (zip_with ljust names (table_widths names shown))
          = table_widths names shown) as ->.
  { apply (padded_lengths (fun name : string => name)).
    apply Forall2_same_length_lookup_2; [done|].
    intros i name w Hn Hw. unfold table_widths in Hw.
    rewrite list_lookup_imap, Hn in Hw. injection Hw as <-.
    apply column_width_header. }
  by rewrite length_zip_with_r_eq.
Qed.

Lemma table_rule_length names shown :
  String.length (table_rule names shown)
  = line_length (table_widths names shown).
Proof.
  unfold table_rule, line_length. rewrite join_length, map_map, length_map.
  f_equal. f_equal. clear. induction (table_widths names shown) as [|w ws IH];
    [done|]. cbn [map]. by rewrite length_repeat_char, IH.
Qed.

Lemma table_row_length names shown row :
  row ∈ shown -> length row = length names ->
  String.length
    (join " | " (zip_with (fun v w => ljust (cell_text v) w) row
                   (table_widths names shown)))
  = line_length (table_widths names shown).
Proof.
  intros Hin Hlen. unfold line_length. rewrite join_length.
  rewrite (padded_lengths cell_text row (table_widths names shown)).
  - by rewrite length_zip_with_r_eq
      by (unfold table_widths; by rewrite length_imap).
  - apply Forall2_same_length_lookup_2.
    + unfold table_widths. by rewrite length_imap.
    + intros i v w Hv Hw. unfold table_widths in Hw.
      rewrite list_lookup_imap in Hw.
      destruct (names !! i) as [name|]; [|done]. injection Hw as <-.
      rewrite <- cell_width_text. by apply column_width_cell with row.
Qed.

(** X2.  The header line and the rule of a rendered table have the same
    length, and so has the line of every shown row that has one cell per
    column: the table is rectangular. *)
Theorem table_is_rectangular (cols : list string) (rows : list (list pyval)) :
  rows <> [] ->
  Forall (fun row => length row = length (header_names cols rows))
         (firstn 10 rows) ->
  _format_query_result (query_result cols rows) =
    join nl
      ([nl +:+ "```";
        table_header (header_names cols rows) (firstn 10 rows);
        table_rule (header_names cols rows) (firstn 10 rows)]
       ++ table_body (header_names cols rows) (firstn 10 rows)
       ++ ["```"]
       ++ (if 10 <? length rows then [more_rows (length rows - 10)] else []))%list
  /\ String.length (table_header (header_names cols rows) (firstn 10 rows))
     = String.length (table_rule (header_names cols rows) (firstn 10 rows))
  /\ Forall (fun line =>
               String.length line =
               String.length (table_rule (header_names cols rows) (firstn 10 rows)))
            (table_body (header_names cols rows) (firstn 10 rows))
  /\ length (table_body (header_names cols rows) (firstn 10 rows))
     = Nat.min 10 (length rows).
Proof.
  intros Hrows Hlen. split; [by apply format_query_result_rows|].
  split; [by rewrite table_header_length, table_rule_length|].
  split.
  - unfold table_body. apply Forall_forall. intros line Hline.
    apply list_elem_of_fmap in Hline as (row & -> & Hin).
    rewrite table_rule_length. apply table_row_length; [done|].
    by apply (proj1 (Forall_forall _ _) Hlen).
  - unfold table_body. by rewrite length_map, length_take.
Qed.

Lemma table_is_rectangular_witness :
  String.length (table_header (header_names ["id"; "name"]
                                 [[PInt 1; PStr "a"]; [PInt 2; PNone]])
                   (firstn 10 [[PInt 1; PStr "a"]; [PInt 2; PNone]]))
  = String.length (table_rule (header_names ["id"; "name"]
                                 [[PInt 1; PStr "a"]; [PInt 2; PNone]])
                     (firstn 10 [[PInt 1; PStr "a"]; [PInt 2; PNone]])).
Proof.
  refine (proj1 (proj2 (table_is_rectangular ["id"; "name"]
                          [[PInt 1; PStr "a"]; [PInt 2; PNone]] _ _))).
  - discriminate.
  - repeat constructor.
Defined.

Lemma zip_with_take_widths {A B C} (f : A -> B -> C) (ws : list B) :
  forall row, zip_with f (take (length ws) row) ws = zip_with f row ws.
Proof.
  induction ws as [|w ws IH]; intros [|v row]; cbn; try done.
  by rewrite IH.
Qed.

Lemma column_cells_take k i shown :
  i < k -> column_cells i (map (take k) shown) = column_cells i shown.
Proof.
  intros Hi. unfold column_cells.
  induction shown as [|row shown IH]; [done|].
  cbn [map]. unfold omap in *. cbn [list_omap].
  rewrite IH. by rewrite lookup_take_lt.
Qed.

Lemma table_widths_take names shown :
  table_widths names (map (take (length names)) shown)
  = table_widths names shown.
Proof.
  unfold table_widths. apply list_eq. intros i.
  rewrite !list_lookup_imap. destruct (names !! i) as [name|] eqn:Hn; [|done].
  cbn. unfold column_width.
  by rewrite column_cells_take by (by apply lookup_lt_Some in Hn).
Qed.

Lemma rendered_table_take names shown suffix :
  rendered_table names (map (take (length names)) shown) suffix
  = rendered_table names shown suffix.
Proof.
  unfold rendered_table. cbv zeta.
  fold (table_widths names (map (take (length names)) shown)).
  fold (table_widths names shown).
  rewrite table_widths_take, map_map.
  do 3 f_equal. apply map_ext. intros row.
  rewrite <- (zip_with_take_widths _ (table_widths names shown) row).
  replace (length (table_widths names shown)) with (length names); [done|].
  unfold table_widths. by rewrite length_imap.
Qed.

(** X3.  When the schema names the columns, the cells a row has beyond the
    last column never show: the rendering is that of the rows cut to the
    number of columns. *)
Theorem cells_beyond_schema_dropped (cols : list string)
  (rows : list (list pyval)) :
  cols <> [] ->
  _format_query_result (query_result cols rows)
  = _format_query_result (query_result cols (map (firstn (length cols)) rows)).
Proof.
  intros Hcols. destruct rows as [|row rows]; [done|].
  rewrite !format_query_result_rows by done.
  assert (Hnames : forall rs, header_names cols rs = cols)
    by (intros rs; by destruct cols).
  rewrite !Hnames, length_map, firstn_map.
  by rewrite rendered_table_take.
Qed.

Lemma cells_beyond_schema_dropped_witness :
  _format_query_result (query_result ["id"] [[PInt 1; PStr "a"]; [PInt 2; PNone]])
  = _format_query_result
      (query_result ["id"]
         (map (firstn (length ["id"])) [[PInt 1; PStr "a"]; [PInt 2; PNone]])).
Proof.
  apply (cells_beyond_schema_dropped ["id"]
           [[PInt 1; PStr "a"]; [PInt 2; PNone]]).
  discriminate.
Defined.

(** ** Query results in the answer *)

Lemma fetch_query_result_log self conv msg id n :
  log (snd (fetch_query_result self conv msg id n))
  = (log n ++ [query_result_request conv msg id])%list.
Proof.
  unfold fetch_query_result, catch, bind, send, query_result_request.
  destruct (pending n) as [|[e|a] rest]; try done.
  destruct (status a =? 200)%Z; [|done].
  unfold lift. by destruct (json a).
Qed.









Lemma attachments_loop_log self conv msg q atts :
  Forall conforming_attachment atts ->
  forall parts n,
    log (snd (attachments_loop self conv msg q atts parts n))
    = (log n ++ map (query_result_request conv msg) (query_ids atts))%list.
Proof.
  induction 1 as [|att atts Hatt _ IH]; intros parts n.
  { cbn. by rewrite app_nil_r. }
  cbn [attachments_loop]. unfold query_ids. cbn [omap list_omap].
  fold (query_ids atts).
  destruct (is_dict att) eqn:Hd; cbn [negb]; [|apply IH].
  destruct (Hatt Hd) as (v & Hv & Htext).
  destruct (keep_explanation_total v q Htext) as [keep Hk].
  unfold bind at 1, lift at 1. rewrite Hv.
  unfold bind at 1, lift at 1. rewrite Hk.
  destruct att as [| | | | |d]; try done.
  unfold attachment_id. cbn [py_get exc_bind].
  unfold bind at 1, lift at 1. unfold bind at 1.
  set (parts1 := if keep then (parts ++ [v])%list else parts).
  destruct (truthy (match dict_get d "attachment_id" with
                    | Some x => x | None => PNone end)) eqn:H1.
  - unfold ret at 1. rewrite H1. unfold bind at 1.
    pose proof (fetch_query_result_log self conv msg
                  (match dict_get d "attachment_id" with
                   | Some x => x | None => PNone end) n) as Hlog.
    destruct (fetch_query_result_total self conv msg
                (match dict_get d "attachment_id" with
                 | Some x => x | None => PNone end) n) as (l & n' & Hf & _).
    rewrite Hf in *. cbn [snd] in Hlog.
    rewrite IH, Hlog. cbn [map]. by rewrite <- app_assoc.
  - unfold lift at 1. unfold bind at 1.
    destruct (truthy (match dict_get d "id" with
                      | Some x => x | None => PNone end)) eqn:H2.
    + pose proof (fetch_query_result_log self conv msg
                    (match dict_get d "id" with
                     | Some x => x | None => PNone end) n) as Hlog.
      destruct (fetch_query_result_total self conv msg
                  (match dict_get d "id" with
                   | Some x => x | None => PNone end) n) as (l & n' & Hf & _).
      rewrite Hf in *. cbn [snd] in Hlog.
      rewrite IH, Hlog. cbn [map]. by rewrite <- app_assoc.
    + unfold ret at 1. apply IH.
Qed.

(** X6.  On a payload of the data model the assembly sends one query-result
    request for every attachment that has an [attachment_id] or an [id], in
    the order of the attachments, and nothing else, whatever the network
    answers. *)
Theorem one_fetch_per_query self conv msg data n :
  conforming data ->
  log (snd (_extract_response_with_attachments self conv msg data n))
  = (log n ++ map (query_result_request conv msg)
                  (query_ids (attachments_of data)))%list.
Proof.
  intros (d & -> & Hatts). unfold _extract_response_with_attachments, attachments_of.
  cbn [py_get_default py_in py_getitem]. unfold bind at 1, lift at 1.
  unfold bind at 1, lift at 1. unfold bind at 1.
  destruct (dict_get d "attachments") as [atts|]; cbn [negb];
    [|cbn; by rewrite app_nil_r].
  destruct Hatts as (l & -> & HF).
  unfold bind at 1, lift at 1. destruct l as [|att l]; cbn [truthy negb];
    [cbn; by rewrite app_nil_r|].
  unfold bind at 1, lift at 1. cbn [py_iter].
  pose proof (attachments_loop_log self conv msg
                (match dict_get d "content" with Some x => x | None => PStr "" end)
                (att :: l) HF [] n) as Hlog.
  destruct (attachments_loop _ _ _ _ _ _ n) as [[parts|e] n']; [|done].
  cbn [snd] in Hlog. by destruct parts.
Qed.

Lemma one_fetch_per_query_witness :
  log (snd (_extract_response_with_attachments genie (PStr "c1") (PStr "m1")
              (PDict [("attachments",
                       PList [PDict [("text", PStr "Revenue was 10 in total.")];
                              PDict [("id", PStr "a2")];
                              PStr "note";
                              PDict [("attachment_id", PStr "a4")]])])
              {| pending := [connection_reset]; log := [] |}))
  = (log {| pending := [connection_reset]; log := [] |}
     ++ map (query_result_request (PStr "c1") (PStr "m1"))
            (query_ids
               (attachments_of
                  (PDict [("attachments",
                           PList [PDict [("text", PStr "Revenue was 10 in total.")];
                                  PDict [("id", PStr "a2")];
                                  PStr "note";
                                  PDict [("attachment_id", PStr "a4")]])]))))%list.
Proof.
  apply (one_fetch_per_query genie (PStr "c1") (PStr "m1")).
  eexists. split; [reflexivity|]. cbn. eexists. split; [reflexivity|].
  repeat constructor; intros _; eexists; (split; [reflexivity|]);
    solve [by left | right; by eexists].
Defined.

(** ** The budget of the poller *)

Lemma count_events_app f evs1 evs2 :
  count_events f (evs1 ++ evs2) = count_events f evs1 + count_events f evs2.
Proof.
  induction evs1 as [|e evs1 IH]; [done|]. cbn [app count_events].
  rewrite IH. lia.
Qed.

Lemma count_events_none f evs :
  Forall (fun e => f e = false) evs -> count_events f evs = 0.
Proof.
  induction 1 as [|e evs He _ IH]; [done|]. cbn [count_events].
  by rewrite He, IH.
Qed.

Lemma fetching_counts evs :
  Forall fetching evs ->
  count_events is_poll evs = 0 /\ count_events is_sleep evs = 0.
Proof.
  intros HF. split; apply count_events_none;
    (eapply Forall_impl; [exact HF|]); by intros [[]|].
Qed.

(** Response assembly only fetches query results. *)
Lemma emits_fetching_fetch self conv msg att :
  emits fetching (fetch_query_result self conv msg att).
Proof.
  unfold fetch_query_result. apply emits_catch; [|intros; apply emits_ret].
  apply emits_bind; [by apply emits_send|]. intros a.
  destruct (status a =? 200)%Z; [|apply emits_ret].
  apply emits_bind; [apply emits_lift|intros; apply emits_ret].
Qed.

Lemma emits_fetching_loop self conv msg q atts : forall parts,
  emits fetching (attachments_loop self conv msg q atts parts).
Proof.
  induction atts as [|att atts IH]; intros parts; cbn [attachments_loop];
    [apply emits_ret|].
  destruct (negb (is_dict att)); [apply IH|].
  repeat (apply emits_bind; [solve [apply emits_lift]|intros ?]).
  apply emits_bind.
  { destruct (truthy _); [apply emits_ret|apply emits_lift]. }
  intros id. apply emits_bind; [|intros ?; apply IH].
  destruct (truthy id); [apply emits_fetching_fetch|apply emits_ret].
Qed.

Lemma emits_fetching_extract self conv msg data :
  emits fetching (_extract_response_with_attachments self conv msg data).
Proof.
  unfold _extract_response_with_attachments.
  repeat (apply emits_bind; [solve [apply emits_lift]|intros ?]).
  apply emits_bind.
  - destruct (negb _); [apply emits_ret|].
    apply emits_bind; [apply emits_lift|intros ?].
    destruct (negb _); [apply emits_ret|].
    apply emits_bind; [apply emits_lift|intros ?].
    apply emits_fetching_loop.
  - intros [|p ps]; [apply emits_ret|apply emits_lift].
Qed.

(** The events of one attempt: the request, the fetches of the assembly, and
    a sleep exactly when the attempt ends in [continue]. *)
Lemma poll_once_events self conv msg n r n' :
  poll_once self conv msg n = (r, n') ->
  exists evs,
    Forall fetching evs /\
    log n' =
      (log n ++ Sent (get_message conv msg) :: evs
       ++ match r with Ok None => [Slept] | _ => [] end)%list.
Proof.
  unfold poll_once, get_message. cbv zeta.
  unfold bind at 1, send. cbv beta.
  destruct (pending n) as [|[e|a] rest];
    try (intros [= <- <-]; exists []; split; [constructor|done]).
  unfold bind at 1, raise_for_status.
  destruct (400 <=? status a)%Z;
    [intros [= <- <-]; exists []; split; [constructor|done]|].
  unfold ret at 1. unfold bind at 1, lift at 1.
  destruct (json a) as [data|e];
    [|intros [= <- <-]; exists []; split; [constructor|done]].
  unfold bind at 1, lift at 1.
  destruct (py_get_default data "status" (PStr "")) as [st|e];
    [|intros [= <- <-]; exists []; split; [constructor|done]].
  destruct (in_list st success_statuses).
  { unfold bind.
    destruct (emits_fetching_extract self conv msg data
                {| pending := rest;
                   log := (log n ++ [Sent (GetMessage (py_str conv)
                                             (py_str msg))])%list |})
      as (evs & Hl & HF).
    destruct (_extract_response_with_attachments _ _ _ _ _) as [[t|e] n1];
      cbn [fst snd log] in *; intros [= <- <-]; exists evs; (split; [done|]);
      by rewrite Hl, app_nil_r, <- app_assoc. }
  destruct (in_list st failure_statuses).
  { unfold bind at 1, lift at 1.
    destruct (py_get_default data "error" (PDict [])) as [err|e];
      [|intros [= <- <-]; exists []; split; [constructor|done]].
    unfold bind at 1, lift at 1.
    destruct (py_get_default err "message" (PStr "Unknown error"));
      intros [= <- <-]; exists []; (split; [constructor|done]). }
  assert (forall x : M (option string), x = (sleep ;; ret None)%net ->
          x {| pending := rest;
               log := (log n ++ [Sent (GetMessage (py_str conv) (py_str msg))])%list |}
          = (r, n') ->
          exists evs, Forall fetching evs /\
            log n' = (log n ++ Sent (GetMessage (py_str conv) (py_str msg)) :: evs
               ++ match r with Ok None => [Slept] | _ => [] end)%list) as Hs.
  { intros x -> [= <- <-]. exists []. split; [constructor|].
    cbn. by rewrite <- app_assoc. }
  destruct (in_list st progress_statuses); by apply Hs.
Qed.

(** One iteration of the loop sends one polling request and sleeps at most
    once. *)
Lemma iteration_events self conv msg (h : exn -> M (option string)) n r n' :
  (forall e, h e = raise e \/ h e = (sleep ;; ret None)%net) ->
  catch (poll_once self conv msg) h n = (r, n') ->
  exists evs,
    log n' = (log n ++ evs)%list /\
    count_events is_poll evs = 1 /\ count_events is_sleep evs <= 1.
Proof.
  intros Hh. unfold catch.
  destruct (poll_once self conv msg n) as [r1 n1] eqn:E.
  destruct (poll_once_events _ _ _ _ _ _ E) as (evs & HF & Hl).
  destruct (fetching_counts _ HF) as [Hp Hs].
  destruct r1 as [[t|]|e].
  - intros [= <- <-]. exists (Sent (get_message conv msg) :: evs ++ [])%list.
    split; [done|]. cbn [count_events is_poll is_sleep get_message].
    rewrite !count_events_app, Hp, Hs. cbn. lia.
  - intros [= <- <-]. exists (Sent (get_message conv msg) :: evs ++ [Slept])%list.
    split; [done|]. cbn [count_events is_poll is_sleep get_message].
    rewrite !count_events_app, Hp, Hs. cbn. lia.
  - destruct (Hh e) as [-> | ->].
    + intros [= <- <-]. exists (Sent (get_message conv msg) :: evs ++ [])%list.
      split; [done|]. cbn [count_events is_poll is_sleep get_message].
      rewrite !count_events_app, Hp, Hs. cbn. lia.
    + intros [= <- <-].
      exists (Sent (get_message conv msg) :: evs ++ [Slept])%list.
      split; [cbn; rewrite Hl, app_nil_r, <- !app_assoc; done|].
      cbn [count_events is_poll is_sleep get_message].
      rewrite !count_events_app, Hp, Hs. cbn. lia.
Qed.

Lemma poll_loop_budget self conv msg mx : forall rem n,
  exists evs,
    log (snd (poll_loop self conv msg mx rem n)) = (log n ++ evs)%list /\
    count_events is_poll evs <= rem /\ count_events is_sleep evs <= rem.
Proof.
  induction rem as [|rem IH]; intros n.
  { exists []. cbn. by rewrite app_nil_r. }
  cbn [poll_loop]. cbv zeta. unfold bind at 1.
  destruct (catch _ _ n) as [r n1] eqn:E.
  apply iteration_events in E as (evs & Hl & Hp & Hs).
  2:{ intros e. destruct (_ <? _); auto. }
  destruct r as [[t|]|e]; cbn [snd ret];
    try (exists evs; split; [done|lia]).
  destruct (IH n1) as (evs2 & Hl2 & Hp2 & Hs2).
  exists (evs ++ evs2)%list. rewrite Hl2, Hl, app_assoc.
  split; [done|]. rewrite !count_events_app. lia.
Qed.

(** X7.  The poller sends at most [max_attempts] polling requests and sleeps at
    most [max_attempts] times, whatever the network does. *)
Theorem poll_budget self conv msg max_attempts n :
  exists evs,
    log (snd (_poll_for_response self conv msg max_attempts n))
      = (log n ++ evs)%list /\
    count_events is_poll evs <= max_attempts /\
    count_events is_sleep evs <= max_attempts.
Proof. apply poll_loop_budget. Qed.

Lemma attempt_error_transient self r o e :
  attempt_error self r o = Some e -> transient o = true.
Proof.
  destruct o as [e'|a]; [done|]. cbn [attempt_error transient].
  destruct (400 <=? status a)%Z; [done|]. cbn [orb].
  destruct (json a) as [data|]; [|done].
  by destruct (py_get_default data "status" (PStr "")).
Qed.

Lemma poll_once_attempt_error self conv msg o e rest lg :
  attempt_error self (get_message conv msg) o = Some e ->
  poll_once self conv msg {| pending := o :: rest; log := lg |} =
  (Raise e, answered (get_message conv msg) rest lg).
Proof.
  unfold poll_once, answered, get_message.
  destruct o as [e'|a]; [by intros [= ->]|].
  unfold bind at 1, send at 1. cbn [pending log attempt_error].
  unfold bind at 1, raise_for_status.
  destruct (400 <=? status a)%Z; [by intros [= <-]|].
  unfold ret at 1. unfold bind at 1, lift at 1.
  destruct (json a) as [data|e']; [|by intros [= ->]].
  unfold bind at 1, lift at 1.
  by destruct (py_get_default data "status" (PStr "")) as [st|e']; intros [= ->].
Qed.

(** Attempts that are not the last and do not observe a terminal status are
    each followed by a sleep and the next attempt. *)
Lemma poll_loop_keeps_polling self conv msg mx k os : forall rest lg,
  1 <= k ->
  length os + k <= mx ->
  Forall keeps_polling os ->
  poll_loop self conv msg mx (length os + k)
    {| pending := os ++ rest; log := lg |}
  = poll_loop self conv msg mx k
      {| pending := rest;
         log := lg ++ attempts (get_message conv msg) (length os) |}.
Proof.
  induction os as [|o os IH]; intros rest lg Hk Hlen HF.
  { cbn. by rewrite app_nil_r. }
  apply Forall_cons in HF as [Ho HF]. cbn [length] in *.
  assert (Hstep :
    poll_loop self conv msg mx (S (length os + k))
      {| pending := (o :: os) ++ rest; log := lg |} =
    poll_loop self conv msg mx (length os + k)
      (slept (answered (get_message conv msg) (os ++ rest) lg))).
  { unfold keeps_polling in Ho. destruct (non_terminal o) eqn:Hn.
    - apply non_terminal_polled in Hn as (a & data & st & -> & Hp & Hs & Hf).
      by apply poll_loop_retries with data st.
    - cbn [orb] in Ho.
      destruct (poll_once_transient self conv msg o (os ++ rest) lg Ho)
        as [e He].
      cbn [poll_loop]. unfold bind at 1, catch. cbn [app]. rewrite He.
      destruct (Nat.ltb_spec (mx - S (length os + k)) (mx - 1)); [done|lia]. }
  cbn [plus]. rewrite Hstep. unfold slept, answered. cbn [pending log].
  rewrite IH by (done || lia). f_equal. f_equal.
  unfold attempts. cbn [replicate concat].
  by rewrite <- !app_assoc.
Qed.

(** X8.  An exception on an attempt that is not the last is followed by a
    sleep and a new attempt; an exception on the last attempt leaves the
    poller, after the request and without a sleep. *)
Theorem last_attempt_error_propagates self conv msg os o e rest lg :
  Forall keeps_polling os ->
  attempt_error self (get_message conv msg) o = Some e ->
  _poll_for_response self conv msg (S (length os))
    {| pending := (os ++ o :: rest)%list; log := lg |}
  = (Raise e,
     {| pending := rest;
        log := (lg ++ attempts (get_message conv msg) (length os)
                ++ [Sent (get_message conv msg)])%list |}).
Proof.
  intros HF He. unfold _poll_for_response.
  replace (S (length os)) with (length os + 1) at 2 by lia.
  rewrite poll_loop_keeps_polling by (done || lia).
  cbn [poll_loop]. unfold bind at 1, catch.
  rewrite (poll_once_attempt_error _ _ _ _ _ _ _ He).
  destruct (Nat.ltb_spec (S (length os) - 1) (S (length os) - 1)); [lia|].
  unfold raise, answered. by rewrite <- app_assoc.
Qed.

Lemma last_attempt_error_propagates_witness :
  _poll_for_response genie (PStr "c1") (PStr "m1")
    (S (length [connection_reset; still_running]))
    {| pending := ([connection_reset; still_running]
                   ++ NetFail connection_closed :: [still_running])%list;
       log := [] |}
  = (Raise connection_closed,
     {| pending := [still_running];
        log := ([] ++ attempts (get_message (PStr "c1") (PStr "m1"))
                        (length [connection_reset; still_running])
                ++ [Sent (get_message (PStr "c1") (PStr "m1"))])%list |}).
Proof.
  apply (last_attempt_error_propagates genie (PStr "c1") (PStr "m1")
           [connection_reset; still_running] (NetFail connection_closed)
           connection_closed [still_running] []).
  - repeat constructor.
  - reflexivity.
Defined.

(** ** Rejected calls, follow-ups and the reply to feedback *)

Lemma create_message_rejected_error a result :
  create_message_rejected a = Ok result -> is_error_result result.
Proof.
  unfold create_message_rejected, is_error_result.
  destruct (loads a) as [error_json|]; [|intros [= <-]; eauto].
  destruct (py_get_default error_json "message" _) as [m|]; [|done].
  cbn [exc_bind].
  destruct (py_get_default error_json "error_code" _) as [c|]; [|done].
  cbn [exc_bind].
  repeat (destruct (status a =? _)%Z; [intros [= <-]; eauto|]).
  intros [= <-]; eauto.
Qed.

Lemma continue_conversation_failed_error e :
  is_error_result (continue_conversation_failed e).
Proof. unfold continue_conversation_failed, is_error_result. eauto. Qed.

(** X9.  An HTTP error in answer to the first request of [ask_question] or of
    [continue_conversation] gives an error result after that one request:
    nothing is polled and the rest of the network is untouched. *)
Theorem rejected_call_is_one_request self q rid a rest lg :
  (400 <= status a)%Z ->
  (exists e t,
      ask_question self q {| pending := Answer a :: rest; log := lg |}
      = (error_result e t, answered (StartConversation q) rest lg)) /\
  (exists e t,
      continue_conversation self rid q {| pending := Answer a :: rest; log := lg |}
      = (error_result e t, answered (CreateMessage (py_str rid) q) rest lg)).
Proof.
  intros Hs. apply Z.leb_le in Hs. split.
  - unfold ask_question, handle. cbv zeta. unfold bind at 1, send.
    cbn [pending log]. rewrite Hs. unfold lift, answered.
    destruct (start_conversation_rejected self a) as [res|e] eqn:Hr.
    + apply start_conversation_rejected_error in Hr as (e & t & ->). by exists e, t.
    + destruct (ask_question_failed_error e) as (e' & t & ->). by exists e', t.
  - unfold continue_conversation, handle. cbv zeta. unfold bind at 1, send.
    cbn [pending log]. rewrite Hs. unfold lift, answered.
    destruct (create_message_rejected a) as [res|e] eqn:Hr.
    + apply create_message_rejected_error in Hr as (e & t & ->). by exists e, t.
    + destruct (continue_conversation_failed_error e) as (e' & t & ->).
      by exists e', t.
Qed.

Lemma rejected_call_is_one_request_witness :
  exists e t,
    ask_question genie "what is revenue?"
      {| pending := Answer {| status := 503; reason := "Service Unavailable";
                              text := "busy"; loads := None;
                              json := Raise (Exn None "no body") |}
                    :: [still_running];
         log := [] |}
    = (error_result e t,
       answered (StartConversation "what is revenue?") [still_running] []).
Proof.
  refine (proj1 (rejected_call_is_one_request genie "what is revenue?" (PStr "c1")
                   {| status := 503; reason := "Service Unavailable";
                      text := "busy"; loads := None;
                      json := Raise (Exn None "no body") |}
                   [still_running] [] _)).
  simpl. lia.
Defined.

(** X10.  A follow-up whose create-message answer carries no [message_id] is
    polled all the same, with the empty message id, and a text that polling
    returns is a success result on the conversation that was continued; the
    bot then sends the text without a feedback card. *)
Theorem follow_up_without_message_id self rid q a d rest lg :
  (status a < 400)%Z ->
  json a = Ok (PDict d) ->
  dict_get d "message_id" = None ->
  continue_conversation self rid q {| pending := Answer a :: rest; log := lg |}
  = match _poll_for_response self rid (PStr "") default_max_attempts
            (answered (CreateMessage (py_str rid) q) rest lg) with
    | (Ok t, n1) => (success_result rid (PStr "") t, n1)
    | (Raise e, n1) => (continue_conversation_failed e, n1)
    end
  /\ forall t bot,
       deliver (success_result rid (PStr "") t) bot
       = send_activity (Message (PStr t)) bot.
Proof.
  intros Hs Hj Hm. split.
  - unfold continue_conversation, handle. cbv zeta.
    unfold bind at 1, send. cbn [pending log].
    destruct (Z.leb_spec 400 (status a)) as [?|_]; [lia|].
    unfold bind at 1, raise_for_status.
    destruct (Z.leb_spec 400 (status a)) as [?|_]; [lia|].
    unfold ret at 1. unfold bind at 1, lift at 1. rewrite Hj.
    unfold bind at 1, lift at 1. cbn [py_get_default]. rewrite Hm.
    unfold bind, answered.
    by destruct (_poll_for_response _ _ _ _ _) as [[t|e] n1].
  - intros t bot. unfold deliver, success_result.
    cbn [truthy negb py_get py_get_default dict_get String.eqb Ascii.eqb
         Bool.eqb py_eq exc_bind].
    unfold _send_response_with_feedback. cbn [truthy String.eqb negb].
    by rewrite orb_true_r.
Qed.

Lemma follow_up_without_message_id_witness :
  continue_conversation genie (PStr "c1") "and the costs?"
    {| pending := Answer (ok_json (PDict [])) :: [connection_reset]; log := [] |}
  = match _poll_for_response genie (PStr "c1") (PStr "") default_max_attempts
            (answered (CreateMessage (py_str (PStr "c1")) "and the costs?")
               [connection_reset] []) with
    | (Ok t, n1) => (success_result (PStr "c1") (PStr "") t, n1)
    | (Raise e, n1) => (continue_conversation_failed e, n1)
    end.
Proof.
  refine (proj1 (follow_up_without_message_id genie (PStr "c1") "and the costs?"
                   (ok_json (PDict [])) [] [connection_reset] [] _ _ _)).
  - simpl. lia.
  - reflexivity.
  - reflexivity.
Defined.

Lemma send_feedback_result self conv msg rating n :
  fst (send_feedback self conv msg (PStr rating) n)
  = match pending n with
    | [] => PDict [("status", PStr "error");
                   ("error", PStr (exn_text connection_closed))]
    | NetFail e :: _ =>
        PDict [("status", PStr "error"); ("error", PStr (exn_text e))]
    | Answer a :: _ =>
        if (400 <=? status a)%Z
        then PDict [("status", PStr "error");
                    ("error",
                     PStr (exn_text
                             (client_response_error self
                                (PostFeedback (py_str conv) (py_str msg)
                                   (upper rating)) a)))]
        else PDict [("status", PStr "success")]
    end.
Proof.
  unfold send_feedback, handle. cbn [py_upper].
  unfold bind at 1, lift at 1. cbv zeta. unfold bind at 1, send.
  destruct (pending n) as [|[e|a] rest]; try done.
  unfold bind, raise_for_status.
  by destruct (400 <=? status a)%Z.
Qed.

(** X11.  The feedback handler answers with exactly one message, and thanks
    the user exactly when the feedback request was sent and answered
    without an HTTP error. *)
Theorem feedback_reply self (d : list (string * pyval)) bot :
  exists reply,
    outbox (_handle_feedback self (PDict d) bot)
    = (outbox bot ++ [Message (PStr reply)])%list /\
    (reply = "Thanks for your feedback!"
     <-> feedback_accepted d (pending (wire bot))) /\
    (reply = "Thanks for your feedback!" \/
     reply = "Sorry, couldn't record your feedback." \/
     reply = "Sorry, couldn't record feedback.").
Proof.
  unfold _handle_feedback, feedback_accepted, feedback_requests.
  cbn [py_get exc_bind].
  assert (Hno : forall s : list outcome,
             ~ (([] : list event) <> [] /\
                exists a rest, s = Answer a :: rest /\ (status a < 400)%Z))
    by (by intros s [H _]).
  destruct (dict_get d "rating") as [rating|]; cbn [truthy andb negb];
    [|eexists; split; [done|]; split; [split; [done|by intros ?%Hno]|auto]].
  destruct (dict_get d "conversation_id") as [conv|]; cbn [truthy andb negb];
    [|rewrite andb_false_r; eexists; split; [done|];
      split; [split; [done|destruct rating; by intros ?%Hno]|auto]].
  destruct (dict_get d "message_id") as [msg|]; cbn [truthy andb negb];
    [|rewrite !andb_false_r; eexists; split; [done|];
      split; [split; [done|destruct rating; by intros ?%Hno]|auto]].
  destruct (truthy rating && truthy conv && truthy msg) eqn:Hall; cbn [negb].
  2:{ eexists; split; [done|]. split; [|auto]. split; [done|].
      destruct rating as [| | |s| |]; try by intros ?%Hno.
      cbn [truthy] in Hall. rewrite Hall. by intros ?%Hno. }
  apply andb_true_iff in Hall as [[Hr Hc]%andb_true_iff Hm].
  unfold call.
  destruct rating as [| |z|s| |].
  1,2,3,5,6:
    (eexists; split; [reflexivity|]; split; [|auto];
     split; [done|by intros ?%Hno]).
  pose proof (send_feedback_result self conv msg s (wire bot)) as Hres.
  destruct (send_feedback self conv msg (PStr s) (wire bot)) as [result n'].
  cbn [fst] in Hres. subst result. cbn [truthy] in Hr. rewrite Hr, Hc, Hm.
  cbn [andb].
  destruct (pending (wire bot)) as [|[e|a] rest].
  - eexists. split; [reflexivity|]. split; [|auto]. split; [done|].
    by intros (_ & a & rest & [=] & _).
  - eexists. split; [reflexivity|]. split; [|auto]. split; [done|].
    by intros (_ & a & rest' & [=] & _).
  - destruct (Z.leb_spec 400 (status a)).
    + eexists. split; [reflexivity|]. split; [|auto]. split; [done|].
      intros (_ & a' & rest' & [= <- _] & ?). lia.
    + eexists. split; [reflexivity|]. split; [|auto]. split; [|done].
      intros _. split; [done|]. by exists a, rest.
Qed.

(** ** Replies and runs of the bot *)

Lemma deliver_error_result e t bot :
  deliver (error_result e t) bot = send_activity (error_reply e) bot.
Proof. reflexivity. Qed.

(** X12.  When the call a question leads to returns an error result, the user
    reads its [error] field in the reply, whatever the [response] field of
    the result says; the bindings stay as they are, on a bound conversation
    too. *)
Theorem error_result_reply self order activity bot q e t n' :
  feedback_of activity = None ->
  _extract_user_message order activity = Ok q ->
  q <> "" ->
  question_call self bot (local_conversation_id activity) q
    = (error_result e t, n') ->
  _on_message_activity self order activity bot
  = {| conversations := conversations bot;
       wire := n';
       outbox := (outbox bot ++ [Typing; error_reply e])%list |}.
Proof.
  intros Hf Hq Hne Hcall.
  rewrite (on_message_routes _ _ _ _ _ Hf Hq Hne).
  unfold question_call in Hcall. unfold route_message.
  change (bound_conversation (send_activity Typing bot)
            (local_conversation_id activity))
    with (bound_conversation bot (local_conversation_id activity)).
  destruct (bound_conversation bot (local_conversation_id activity)) as [rid|];
    unfold call; cbn [send_activity wire]; rewrite Hcall.
  - rewrite deliver_error_result. unfold send_activity. cbn.
    by rewrite <- app_assoc.
  - change (truthy (error_result e t)) with true. cbn [negb].
    change (py_get (error_result e t) "conversation_id") with (Ok PNone).
    cbn [truthy]. rewrite deliver_error_result. unfold send_activity. cbn.
    by rewrite <- app_assoc.
Qed.

Lemma error_result_reply_witness :
  _on_message_activity genie remove_dups (question "thread-1" "what is revenue?")
    (new_bot [connection_reset])
  = {| conversations := conversations (new_bot [connection_reset]);
       wire := {| pending := [];
                  log := [Sent (StartConversation "what is revenue?")] |};
       outbox := (outbox (new_bot [connection_reset])
                  ++ [Typing; error_reply "Connection reset by peer"])%list |}.
Proof.
  apply (error_result_reply genie remove_dups
           (question "thread-1" "what is revenue?") (new_bot [connection_reset])
           "what is revenue?" "Connection reset by peer"
           "Sorry, I encountered an error: Connection reset by peer").
  - reflexivity.
  - vm_compute. reflexivity.
  - discriminate.
  - vm_compute. reflexivity.
Defined.

Lemma on_message_other_binding self order activity bot cid :
  cid <> local_conversation_id activity ->
  conversations (_on_message_activity self order activity bot) !! cid
  = conversations bot !! cid.
Proof.
  intros Hne. unfold _on_message_activity.
  destruct (feedback_of activity) as [fd|];
    [by rewrite handle_feedback_conversations|].
  destruct (_extract_user_message order activity) as [[|c q]|]; try done.
  set (b := send_activity Typing bot).
  destruct (bound_conversation b (local_conversation_id activity)) as [r|] eqn:Hb.
  - by destruct (route_message_bound self _ (String c q) b r Hb) as [-> _].
  - destruct (ask_question self (String c q) (wire b)) as [result n'] eqn:Ha.
    destruct (route_message_unbound self _ (String c q) b result n' Hb Ha)
      as [_ ->].
    destruct (py_get result "conversation_id") as [stored|]; [|done].
    destruct (truthy result && truthy stored); [|done].
    by rewrite lookup_insert_ne.
Qed.

(** A handler that is not interrupted is an arrival and the return of its
    call. *)
Lemma route_message_resume self cid q bot :
  route_message self cid q bot = resume (await_call self cid q bot) bot.
Proof.
  unfold route_message, await_call.
  by destruct (bound_conversation bot cid).
Qed.

Lemma asks_question order activity q :
  asks order activity = Some q <->
  feedback_of activity = None /\ _extract_user_message order activity = Ok q /\
  q <> "".
Proof.
  unfold asks. destruct (feedback_of activity) as [fd|].
  { split; [done|by intros [? _]]. }
  destruct (_extract_user_message order activity) as [[|c t]|e].
  - split; [done|]. by intros (_ & [= <-] & ?).
  - split; [by intros [= <-]|]. by intros (_ & [= <-] & _).
  - split; [done|by intros (_ & ? & _)].
Qed.

Lemma on_message_resume self order activity bot q :
  asks order activity = Some q ->
  _on_message_activity self order activity bot =
  resume (await_call self (local_conversation_id activity) q
            (send_activity Typing bot))
         (send_activity Typing bot).
Proof.
  intros (Hf & Hq & Hne)%asks_question.
  rewrite (on_message_routes _ _ _ _ _ Hf Hq Hne). apply route_message_resume.
Qed.

(** The runs in which every handler ends before the next one begins are
    interleaved runs. *)
Lemma interleaved_message self order activity bot flights bot' flights' :
  interleaved bot flights bot' flights' ->
  interleaved bot flights (_on_message_activity self order activity bot')
    flights'.
Proof.
  intros Hrun. destruct (asks order activity) as [q|] eqn:Hq;
    [|by apply interleaved_other].
  rewrite (on_message_resume _ _ _ _ _ Hq).
  pose proof (interleaved_arrive _ _ self order activity q _ _ Hrun Hq) as Harr.
  apply (interleaved_resume _ _ _ flights' []) in Harr.
  by rewrite app_nil_r in Harr.
Qed.

Lemma interleaved_flights bot flights bot' flights1 flights2 :
  interleaved bot flights bot' flights1 -> flights1 = flights2 ->
  interleaved bot flights bot' flights2.
Proof. by intros ? <-. Qed.

Lemma on_message_other_conversations self order activity bot :
  asks order activity = None ->
  conversations (_on_message_activity self order activity bot)
  = conversations bot.
Proof.
  unfold asks, _on_message_activity.
  destruct (feedback_of activity) as [fd|];
    [intros _; apply handle_feedback_conversations|].
  by destruct (_extract_user_message order activity) as [[|c q]|].
Qed.

Lemma resume_continuing self cid rid q bot :
  conversations (resume (Continuing self cid rid q) bot) = conversations bot /\
  wire (resume (Continuing self cid rid q) bot)
  = snd (continue_conversation self rid q (wire bot)).
Proof.
  cbn [resume].
  destruct (call _ bot) as [result bot'] eqn:Hc.
  pose proof (call_state (continue_conversation self rid q) bot) as (H1 & H2 & _).
  rewrite Hc in H1, H2. cbn [snd] in H1, H2.
  destruct (deliver_state result bot') as [-> ->]. by rewrite H1, H2.
Qed.

Lemma resume_starting self cid q bot result n' :
  ask_question self q (wire bot) = (result, n') ->
  conversations (resume (Starting self cid q) bot) =
    match py_get result "conversation_id" with
    | Ok stored =>
        if truthy result && truthy stored
        then <[cid := stored]> (conversations bot)
        else conversations bot
    | Raise _ => conversations bot
    end.
Proof.
  intros Ha. cbn [resume]. unfold call. rewrite Ha.
  destruct (truthy result) eqn:Ht; cbn [negb andb].
  - destruct (py_get result "conversation_id") as [stored|e]; [|done].
    destruct (truthy stored).
    + by destruct (deliver_state result
                    (bind_conversation cid stored
                       {| conversations := conversations bot; wire := n';
                          outbox := outbox bot |})) as [-> _].
    + by destruct (deliver_state result
                    {| conversations := conversations bot; wire := n';
                       outbox := outbox bot |}) as [-> _].
  - destruct (deliver_state result
                {| conversations := conversations bot; wire := n';
                   outbox := outbox bot |}) as [-> _].
    by destruct (py_get result "conversation_id").
Qed.

(** The return of a call leaves the binding of [cid] as it is, unless it is
    the return of a start on [cid]. *)
Lemma resume_other_binding f bot cid :
  starting f <> Some cid ->
  conversations (resume f bot) !! cid = conversations bot !! cid.
Proof.
  destruct f as [self cid' q|self cid' rid q]; intros Hne.
  - destruct (ask_question self q (wire bot)) as [result n'] eqn:Ha.
    rewrite (resume_starting _ _ _ _ _ _ Ha).
    destruct (py_get result "conversation_id") as [stored|]; [|done].
    destruct (truthy result && truthy stored); [|done].
    rewrite lookup_insert_ne; [done|]. intros ->. by apply Hne.
  - by destruct (resume_continuing self cid' rid q bot) as [-> _].
Qed.

Lemma resume_truthy f bot : bindings_truthy bot -> bindings_truthy (resume f bot).
Proof.
  intros Hinv cid rid. destruct f as [self cid' q|self cid' r q].
  - destruct (ask_question self q (wire bot)) as [result n'] eqn:Ha.
    rewrite (resume_starting _ _ _ _ _ _ Ha).
    destruct (py_get result "conversation_id") as [stored|]; [|apply Hinv].
    destruct (truthy result); cbn [andb]; [|apply Hinv].
    destruct (truthy stored) eqn:Hs; [|apply Hinv].
    destruct (decide (cid' = cid)) as [->|Hne].
    + rewrite lookup_insert_eq. by intros [= <-].
    + rewrite lookup_insert_ne by done. apply Hinv.
  - destruct (resume_continuing self cid' r q bot) as [-> _]. apply Hinv.
Qed.

(** Every binding of an interleaved run holds a truthy remote id. *)
Lemma interleaved_truthy bot flights bot' flights' :
  bindings_truthy bot -> interleaved bot flights bot' flights' ->
  bindings_truthy bot'.
Proof.
  intros Hinv. induction 1 as [|script bot' fl' _ IH
    |self order activity q bot' fl' _ IH Hq|f fl1 fl2 bot' _ IH
    |self order activity bot' fl' _ IH Hq]; try done.
  - by apply resume_truthy.
  - intros cid rid. rewrite on_message_other_conversations by done. apply IH.
Qed.

Lemma interleaved_binding_kept bot flights bot' flights' cid rid :
  interleaved bot flights bot' flights' ->
  truthy rid = true ->
  conversations bot !! cid = Some rid ->
  none_starting cid flights ->
  conversations bot' !! cid = Some rid /\ none_starting cid flights'.
Proof.
  intros Hrun Hrid Hl Hfl. induction Hrun as [|script bot' fl' _ IH
    |self order activity q bot' fl' _ IH Hq|f fl1 fl2 bot' _ IH
    |self order activity bot' fl' _ IH Hq]; try done.
  - destruct IH as [IH1 IH2]. split; [done|].
    apply Forall_app. split; [done|]. constructor; [|constructor].
    unfold await_call, bound_conversation. cbn [send_activity conversations].
    destruct (decide (local_conversation_id activity = cid)) as [->|Hne].
    + by rewrite IH1, Hrid.
    + destruct (conversations bot' !! local_conversation_id activity)
        as [r|]; [destruct (truthy r)|]; cbn [starting]; congruence.
  - destruct IH as [IH1 IH2].
    apply Forall_app in IH2 as [H1 H2]. apply Forall_cons in H2 as [Hf H2].
    split; [by rewrite resume_other_binding|]. by apply Forall_app.
  - destruct IH as [IH1 IH2]. split; [|done].
    by rewrite on_message_other_conversations.
Qed.

(** X13.  A binding is permanent once no start is in flight for its local
    id: in every interleaved run of the handlers, no later message, feedback
    event or failure changes or removes the binding, and no start goes in
    flight for that id again.  (A start that is already in flight for the id
    replaces the binding when it returns: [start_in_flight_replaces].) *)
Theorem bindings_are_permanent bot flights bot' flights' cid rid :
  interleaved bot flights bot' flights' ->
  truthy rid = true ->
  conversations bot !! cid = Some rid ->
  none_starting cid flights ->
  conversations bot' !! cid = Some rid /\ none_starting cid flights'.
Proof. apply interleaved_binding_kept. Qed.

Lemma bindings_are_permanent_witness :
  conversations
    (resume (Continuing genie "thread-1" (PStr "c1") "and the costs?")
       (supply [rejected 404]
          (resume (Starting genie "thread-2" "what are the costs?")
             (supply other_script
                (send_activity Typing
                   (send_activity Typing after_first_message))))))
    !! "thread-1"
  = Some (PStr "c1").
Proof.
  apply (bindings_are_permanent after_first_message []
           (resume (Continuing genie "thread-1" (PStr "c1") "and the costs?")
              (supply [rejected 404]
                 (resume (Starting genie "thread-2" "what are the costs?")
                    (supply other_script
                       (send_activity Typing
                          (send_activity Typing after_first_message))))))
           [] "thread-1" (PStr "c1")).
  - apply (interleaved_resume _ _
             (Continuing genie "thread-1" (PStr "c1") "and the costs?") [] []).
    apply interleaved_supply.
    apply (interleaved_resume _ _
             (Starting genie "thread-2" "what are the costs?") []
             [Continuing genie "thread-1" (PStr "c1") "and the costs?"]).
    apply interleaved_supply.
    eapply interleaved_flights;
      [apply (interleaved_arrive _ _ genie remove_dups
                (question "thread-1" "and the costs?") "and the costs?"
                (send_activity Typing after_first_message)
                [Starting genie "thread-2" "what are the costs?"]);
         [|vm_compute; reflexivity]
      |vm_compute; reflexivity].
    eapply interleaved_flights;
      [apply (interleaved_arrive _ _ genie remove_dups
                (question "thread-2" "what are the costs?")
                "what are the costs?" after_first_message []);
         [|vm_compute; reflexivity]
      |vm_compute; reflexivity].
    apply interleaved_refl.
  - reflexivity.
  - vm_compute. reflexivity.
  - constructor.
Defined.

(** Two questions on one local id arrive before the first start returns:
    both start a conversation, and the start that returns last replaces the
    binding of the other. *)
Remark start_in_flight_replaces :
  interleaved (new_bot [started_c1; completed "Revenue was 10 in total."]) []
    (resume (Starting genie "thread-1" "what is revenue?")
       (send_activity Typing
          (send_activity Typing
             (new_bot [started_c1; completed "Revenue was 10 in total."]))))
    [Starting genie "thread-1" "and the costs?"] /\
  conversations
    (resume (Starting genie "thread-1" "what is revenue?")
       (send_activity Typing
          (send_activity Typing
             (new_bot [started_c1; completed "Revenue was 10 in total."]))))
    !! "thread-1" = Some (PStr "c1") /\
  conversations
    (resume (Starting genie "thread-1" "and the costs?")
       (supply other_script
          (resume (Starting genie "thread-1" "what is revenue?")
             (send_activity Typing
                (send_activity Typing
                   (new_bot [started_c1;
                             completed "Revenue was 10 in total."]))))))
    !! "thread-1" = Some (PStr "c2").
Proof.
  split; [|split; vm_compute; reflexivity].
  apply (interleaved_resume _ _
           (Starting genie "thread-1" "what is revenue?") []
           [Starting genie "thread-1" "and the costs?"]).
  eapply interleaved_flights;
    [apply (interleaved_arrive _ _ genie remove_dups
              (question "thread-1" "and the costs?") "and the costs?"
              (send_activity Typing
                 (new_bot [started_c1; completed "Revenue was 10 in total."]))
              [Starting genie "thread-1" "what is revenue?"]);
       [|vm_compute; reflexivity]
    |vm_compute; reflexivity].
  eapply interleaved_flights;
    [apply (interleaved_arrive _ _ genie remove_dups
              (question "thread-1" "what is revenue?") "what is revenue?"
              (new_bot [started_c1; completed "Revenue was 10 in total."]) []);
       [|vm_compute; reflexivity]
    |vm_compute; reflexivity].
  apply interleaved_refl.
Qed.

(** X14.  A message activity leaves the bindings of all other local
    conversation ids as they are. *)
Theorem other_conversations_untouched self order activity bot cid :
  cid <> local_conversation_id activity ->
  conversations (_on_message_activity self order activity bot) !! cid
  = conversations bot !! cid.
Proof. apply on_message_other_binding. Qed.

Lemma other_conversations_untouched_witness :
  conversations
    (_on_message_activity genie remove_dups (question "thread-2" "and the costs?")
       after_first_message) !! "thread-1"
  = conversations after_first_message !! "thread-1".
Proof.
  apply (other_conversations_untouched genie remove_dups
           (question "thread-2" "and the costs?") after_first_message "thread-1").
  vm_compute. discriminate.
Defined.

Lemma deliver_outbox result bot :
  exists news,
    outbox (deliver result bot) = (outbox bot ++ news)%list /\
    (exists t, Message t ∈ news) /\ length news <= 2.
Proof.
  assert (Hsay : forall t b,
    exists news, outbox (say t b) = (outbox b ++ news)%list /\
                 (exists t, Message t ∈ news) /\ length news <= 2).
  { intros t b. exists [Message (PStr t)]. split; [done|].
    split; [eexists; apply list_elem_of_here|cbn; lia]. }
  unfold deliver. destruct (negb (truthy result)); [apply Hsay|].
  destruct (py_get result "status") as [st|]; [|apply Hsay].
  destruct (py_eq st (PStr "success")).
  - destruct (exc_bind _ _) as [[[t c] m]|]; [|apply Hsay].
    unfold _send_response_with_feedback. destruct (_ || _).
    + exists [Message t]. split; [done|].
      split; [eexists; apply list_elem_of_here|cbn; lia].
    + exists [Message t; FeedbackCard c m]. cbn. rewrite <- app_assoc.
      split; [done|]. split; [eexists; apply list_elem_of_here|lia].
  - destruct (py_get_default result "error" _); apply Hsay.
Qed.

Lemma handle_feedback_outbox self fd bot :
  exists t, outbox (_handle_feedback self fd bot)
            = (outbox bot ++ [Message t])%list.
Proof.
  unfold _handle_feedback.
  destruct (exc_bind _ _) as [[[rt c] m]|]; [|by eexists].
  destruct (negb _); [by eexists|].
  unfold call. destruct (send_feedback self c m rt (wire bot)) as [result n'].
  destruct (py_get result "status") as [st|]; [|by eexists].
  destruct (py_eq st (PStr "success")); by eexists.
Qed.

(** X15.  Every message activity is answered: the bot sends at least one
    message and at most three activities, after what it had sent before. *)
Theorem always_replies self order activity bot :
  exists news,
    outbox (_on_message_activity self order activity bot)
    = (outbox bot ++ news)%list /\
    (exists t, Message t ∈ news) /\
    length news <= 3.
Proof.
  unfold _on_message_activity.
  destruct (feedback_of activity) as [fd|].
  { destruct (handle_feedback_outbox self fd bot) as [t ->].
    exists [Message t]. split; [done|].
    split; [eexists; apply list_elem_of_here|cbn; lia]. }
  assert (Hsay : forall t,
    exists news, outbox (say t bot) = (outbox bot ++ news)%list /\
                 (exists t, Message t ∈ news) /\ length news <= 3).
  { intros t. exists [Message (PStr t)]. split; [done|].
    split; [eexists; apply list_elem_of_here|cbn; lia]. }
  destruct (_extract_user_message order activity) as [[|c q]|];
    try apply Hsay.
  assert (Hdel : forall result b,
    outbox b = (outbox bot ++ [Typing])%list ->
    exists news, outbox (deliver result b) = (outbox bot ++ news)%list /\
                 (exists t, Message t ∈ news) /\ length news <= 3).
  { intros result b Hb.
    destruct (deliver_outbox result b) as (news & -> & [t Ht] & Hlen).
    exists (Typing :: news). rewrite Hb, <- app_assoc. split; [done|].
    split; [exists t; by apply list_elem_of_further|cbn; lia]. }
  unfold route_message.
  destruct (bound_conversation _ _) as [rid|]; unfold call;
    cbn [send_activity wire conversations outbox].
  - destruct (continue_conversation _ _ _ _) as [result n']. by apply Hdel.
  - destruct (ask_question _ _ _) as [result n'].
    destruct (negb (truthy result)); [by apply Hdel|].
    destruct (py_get result "conversation_id") as [stored|].
    + destruct (truthy stored); by apply Hdel.
    + eexists [Typing; Message _].
      cbn. rewrite <- app_assoc. split; [done|].
      split; [eexists; apply list_elem_of_further, list_elem_of_here|lia].
Qed.

(** X16.  A follow-up continues the conversation that the first question
    started: after a start on a local id returns a success result, with no
    other start in flight for that id, a later question with the same local
    id, whatever was handled in between in an interleaved run, awaits the
    continuation of the remote conversation the start returned; when that
    call returns it has sent the create-message request on that remote id
    and then only polled, and the bindings stay as they are.  So does the
    handler that is not interrupted. *)
Theorem follow_up_continues_started_conversation
  self cid q bot flights conv msg t n1 bot2 flights2 self2 order2 activity2 q2 :
  none_starting cid flights ->
  ask_question self q (wire bot) = (success_result conv msg t, n1) ->
  interleaved (resume (Starting self cid q) bot) flights bot2 flights2 ->
  asks order2 activity2 = Some q2 ->
  local_conversation_id activity2 = cid ->
  await_call self2 cid q2 (send_activity Typing bot2)
  = Continuing self2 cid conv q2 /\
  (forall bot3,
      conversations (resume (Continuing self2 cid conv q2) bot3)
      = conversations bot3 /\
      exists evs,
        log (wire (resume (Continuing self2 cid conv q2) bot3))
        = (log (wire bot3) ++ Sent (CreateMessage (py_str conv) q2) :: evs)%list /\
        Forall polling evs) /\
  conversations (_on_message_activity self2 order2 activity2 bot2)
  = conversations bot2 /\
  exists evs,
    log (wire (_on_message_activity self2 order2 activity2 bot2))
    = (log (wire bot2) ++ Sent (CreateMessage (py_str conv) q2) :: evs)%list /\
    Forall polling evs.
Proof.
  intros Hfl Ha Hrun Hq2 Hid.
  assert (Hconv : truthy conv = true).
  { destruct (ask_question_result _ _ _ _ _ Ha)
      as [(e & t' & [=])|(conv' & msg' & t' & Hc & _ & [= -> _ _])]; done. }
  assert (H1 : conversations (resume (Starting self cid q) bot) !! cid
               = Some conv).
  { rewrite (resume_starting _ _ _ _ _ _ Ha).
    change (py_get (success_result conv msg t) "conversation_id") with (Ok conv).
    change (truthy (success_result conv msg t)) with true.
    cbn [andb]. rewrite Hconv. apply lookup_insert_eq. }
  destruct (interleaved_binding_kept _ _ _ _ _ _ Hrun Hconv H1 Hfl) as [H2 _].
  assert (Hflight : await_call self2 cid q2 (send_activity Typing bot2)
                    = Continuing self2 cid conv q2).
  { unfold await_call, bound_conversation. cbn [send_activity conversations].
    by rewrite H2, Hconv. }
  assert (Hres : forall bot3,
    conversations (resume (Continuing self2 cid conv q2) bot3)
    = conversations bot3 /\
    exists evs,
      log (wire (resume (Continuing self2 cid conv q2) bot3))
      = (log (wire bot3) ++ Sent (CreateMessage (py_str conv) q2) :: evs)%list /\
      Forall polling evs).
  { intros bot3. destruct (resume_continuing self2 cid conv q2 bot3) as [-> ->].
    split; [done|]. apply continue_conversation_log. }
  split; [done|]. split; [done|].
  rewrite (on_message_resume _ _ _ _ _ Hq2), Hid, Hflight.
  destruct (Hres (send_activity Typing bot2)) as [-> Hlog]. by split.
Qed.

Lemma follow_up_continues_started_conversation_witness :
  await_call genie "thread-1" "and the costs?"
    (send_activity Typing both_returned)
  = Continuing genie "thread-1" (PStr "c1") "and the costs?" /\
  exists evs,
    log (wire
           (_on_message_activity genie remove_dups
              (question "thread-1" "and the costs?") both_returned))
    = (log (wire both_returned)
       ++ Sent (CreateMessage "c1" "and the costs?") :: evs)%list /\
    Forall polling evs.
Proof.
  destruct (follow_up_continues_started_conversation genie "thread-1"
              "what is revenue?"
              (send_activity Typing
                 (new_bot [started_c1; completed "Revenue was 10 in total."]))
              [] (PStr "c1") (PStr "m1") "Revenue was 10 in total."
              (snd (ask_question genie "what is revenue?"
                      (wire (new_bot [started_c1;
                                      completed "Revenue was 10 in total."]))))
              both_returned
              [] genie remove_dups (question "thread-1" "and the costs?")
              "and the costs?") as (Hflight & _ & _ & Hlog).
  - constructor.
  - vm_compute. reflexivity.
  - apply interleaved_supply.
    apply (interleaved_resume _ _
             (Starting genie "thread-2" "what are the costs?") [] []).
    apply interleaved_supply.
    eapply interleaved_flights;
      [apply (interleaved_arrive _ _ genie remove_dups
                (question "thread-2" "what are the costs?")
                "what are the costs?" first_returned []);
         [|vm_compute; reflexivity]
      |vm_compute; reflexivity].
    apply interleaved_refl.
  - vm_compute. reflexivity.
  - reflexivity.
  - split; [exact Hflight|exact Hlog].
Defined.

Lemma deliver_cards result bot :
  exists news,
    outbox (deliver result bot) = (outbox bot ++ news)%list /\
    Forall card_has_ids news.
Proof.
  assert (Hsay : forall t b,
    exists news, outbox (say t b) = (outbox b ++ news)%list /\
                 Forall card_has_ids news).
  { intros t b. exists [Message (PStr t)]. by repeat constructor. }
  unfold deliver. destruct (negb (truthy result)); [apply Hsay|].
  destruct (py_get result "status") as [st|]; [|apply Hsay].
  destruct (py_eq st (PStr "success")).
  - destruct (exc_bind _ _) as [[[t c] m]|]; [|apply Hsay].
    unfold _send_response_with_feedback.
    destruct (truthy c) eqn:Hc, (truthy m) eqn:Hm; cbn [negb orb];
      try (exists [Message t]; by repeat constructor).
    exists [Message t; FeedbackCard c m]. cbn. rewrite <- app_assoc.
    split; [done|]. by repeat constructor.
  - destruct (py_get_default result "error" _); apply Hsay.
Qed.

Lemma handle_feedback_cards self fd bot :
  exists news,
    outbox (_handle_feedback self fd bot) = (outbox bot ++ news)%list /\
    Forall card_has_ids news.
Proof.
  destruct (handle_feedback_outbox self fd bot) as [t ->].
  exists [Message t]. by repeat constructor.
Qed.

Lemma on_message_cards self order activity bot :
  exists news,
    outbox (_on_message_activity self order activity bot)
    = (outbox bot ++ news)%list /\
    Forall card_has_ids news.
Proof.
  unfold _on_message_activity.
  destruct (feedback_of activity) as [fd|]; [apply handle_feedback_cards|].
  assert (Hsay : forall t,
    exists news, outbox (say t bot) = (outbox bot ++ news)%list /\
                 Forall card_has_ids news).
  { intros t. exists [Message (PStr t)]. by repeat constructor. }
  destruct (_extract_user_message order activity) as [[|c q]|];
    try apply Hsay.
  assert (Hdel : forall result b,
    outbox b = (outbox bot ++ [Typing])%list ->
    exists news, outbox (deliver result b) = (outbox bot ++ news)%list /\
                 Forall card_has_ids news).
  { intros result b Hb.
    destruct (deliver_cards result b) as (news & -> & HF).
    exists (Typing :: news). rewrite Hb, <- app_assoc. split; [done|].
    by constructor. }
  unfold route_message.
  destruct (bound_conversation _ _) as [rid|]; unfold call;
    cbn [send_activity wire conversations outbox].
  - destruct (continue_conversation _ _ _ _) as [result n']. by apply Hdel.
  - destruct (ask_question _ _ _) as [result n'].
    destruct (negb (truthy result)); [by apply Hdel|].
    destruct (py_get result "conversation_id") as [stored|].
    + destruct (truthy stored); by apply Hdel.
    + eexists [Typing; Message _]. cbn. rewrite <- app_assoc.
      split; [done|]. by repeat constructor.
Qed.

Lemma reachable_cards bot : reachable bot -> Forall card_has_ids (outbox bot).
Proof.
  induction 1 as [script|script bot _ IH|self order activity bot _ IH];
    [constructor|exact IH|].
  destruct (on_message_cards self order activity bot) as (news & -> & HF).
  by apply Forall_app.
Qed.

Lemma feedback_of_click activity rating c m :
  clicks activity (button_value rating c m) ->
  feedback_of activity = Some (button_value rating c m).
Proof.
  intros [_ [Hv|(s & Hv & Hs & Hl)]]; unfold feedback_of; rewrite Hv.
  - reflexivity.
  - cbn [truthy]. apply String.eqb_neq in Hs. rewrite Hs. cbn [negb].
    by rewrite Hl.
Qed.

(** X17.  The feedback card and the feedback handler fit together: a click on
    a button of a card that the bot has sent is a feedback event, and it
    sends exactly one feedback request, for the conversation and the message
    of that card, with the rating of the button in upper case (every letter
    replaced by its capital); the bindings stay as they are. *)
Theorem feedback_button_round_trip self order activity bot rating c m :
  reachable bot ->
  FeedbackCard c m ∈ outbox bot ->
  rating <> "" ->
  clicks activity (button_value rating c m) ->
  log (wire (_on_message_activity self order activity bot))
  = (log (wire bot)
     ++ [Sent (PostFeedback (py_str c) (py_str m) (capitals rating))])%list
  /\ conversations (_on_message_activity self order activity bot)
     = conversations bot.
Proof.
  intros Hr Hin Hne Hclick.
  unfold _on_message_activity. rewrite (feedback_of_click _ _ _ _ Hclick).
  pose proof (reachable_cards bot Hr) as HF.
  rewrite Forall_forall in HF. destruct (HF _ Hin) as [Hc Hm].
  split; [|apply handle_feedback_conversations].
  unfold button_value. rewrite handle_feedback_wire.
  unfold missing, field.
  cbn [dict_get String.eqb Ascii.eqb Bool.eqb truthy].
  apply String.eqb_neq in Hne. rewrite Hne, Hc, Hm. cbn [negb orb].
  rewrite <- upper_capitals. apply send_feedback_log.
Qed.

Lemma feedback_button_round_trip_witness :
  log (wire (_on_message_activity genie remove_dups
               {| activity_text := Some "Thanks for the feedback!";
                  entities := [];
                  recipient_name := Some "Bot";
                  conversation := Some "thread-1";
                  value := PStr "{json}";
                  value_loads :=
                    Some (button_value "positive" (PStr "c1") (PStr "m1")) |}
               (supply [Answer (ok_json (PDict []))] after_first_message)))
  = (log (wire after_first_message)
     ++ [Sent (PostFeedback "c1" "m1" "POSITIVE")])%list
  /\ conversations
       (_on_message_activity genie remove_dups
          {| activity_text := Some "Thanks for the feedback!";
             entities := [];
             recipient_name := Some "Bot";
             conversation := Some "thread-1";
             value := PStr "{json}";
             value_loads :=
               Some (button_value "positive" (PStr "c1") (PStr "m1")) |}
          (supply [Answer (ok_json (PDict []))] after_first_message))
     = conversations after_first_message.
Proof.
  destruct (feedback_button_round_trip genie remove_dups
              {| activity_text := Some "Thanks for the feedback!";
                 entities := [];
                 recipient_name := Some "Bot";
                 conversation := Some "thread-1";
                 value := PStr "{json}";
                 value_loads :=
                   Some (button_value "positive" (PStr "c1") (PStr "m1")) |}
              (supply [Answer (ok_json (PDict []))] after_first_message)
              "positive" (PStr "c1") (PStr "m1")) as [-> ->].
  - apply reachable_supply, reachable_message, reachable_new.
  - vm_compute. apply list_elem_of_further, list_elem_of_further, list_elem_of_here.
  - discriminate.
  - split; [reflexivity|]. right. exists "{json}".
    split; [reflexivity|]. split; [discriminate|reflexivity].
  - split; reflexivity.
Defined.

(** ** Blank messages and whole words *)

Lemma blank_append a b : blank a -> blank b -> blank (a +:+ b).
Proof.
  unfold blank. induction a as [|c a IH]; intros Ha Hb; [done|].
  rewrite append_cons. cbn [list_ascii_of_string] in *.
  apply Forall_cons in Ha as [Hc Ha]. constructor; [done|by apply IH].
Qed.

Lemma blank_tail c s : blank (String c s) -> is_space c = true /\ blank s.
Proof. unfold blank. cbn [list_ascii_of_string]. by intros ?%Forall_cons. Qed.

Lemma blank_replace_scan old new : blank new ->
  forall s k, blank s -> blank (replace_scan old new s k).
Proof.
  intros Hnew. induction s as [|c s IH]; intros k Hs; [done|].
  apply blank_tail in Hs as [Hc Hs]. cbn [replace_scan].
  destruct k as [|k]; [|by apply IH].
  destruct (String.prefix old (String c s)).
  - apply blank_append; [done|by apply IH].
  - unfold blank. cbn [list_ascii_of_string]. constructor; [done|by apply IH].
Qed.

Lemma blank_replace_empty new : blank new ->
  forall s, blank s -> blank (join "" (map (fun c => c +:+ new) (chars s))).
Proof.
  intros Hnew. induction s as [|c s IH]; intros Hs; [constructor|].
  apply blank_tail in Hs as [Hc Hs]. cbn [chars map].
  destruct (map (fun c => c +:+ new) (chars s)) as [|p ps] eqn:Hm.
  - cbn [join]. apply blank_append; [|done]. by repeat constructor.
  - rewrite join_cons. apply blank_append.
    + apply blank_append; [|done]. by repeat constructor.
    + apply blank_append; [constructor|by apply IH].
Qed.

Lemma blank_replace old new s : blank new -> blank s -> blank (replace old new s).
Proof.
  intros Hnew Hs. unfold replace. destruct old as [|c old].
  - apply blank_append; [done|by apply blank_replace_empty].
  - by apply blank_replace_scan.
Qed.

Lemma blank_remove_mentions texts : forall s s',
  blank s -> remove_mentions texts s = Ok s' -> blank s'.
Proof.
  induction texts as [|v texts IH]; intros s s' Hs; cbn [remove_mentions].
  - by intros [= <-].
  - destruct v as [| | |old| |]; try done. cbn [py_replace exc_bind].
    apply IH. apply blank_replace; [|done]. by repeat constructor.
Qed.

Lemma blank_match_name name : forall s last p rest,
  blank s -> match_name name s last = Some (p, rest) -> blank rest.
Proof.
  induction name as [|c name IH]; intros s last p rest Hs; cbn [match_name].
  - by intros [= _ <-].
  - destruct s as [|d s]; [done|]. apply blank_tail in Hs as [_ Hs].
    destruct (Ascii.eqb _ _); [|done]. by apply IH.
Qed.

Lemma blank_skip_punctuation s : blank s -> blank (skip_punctuation s).
Proof.
  induction s as [|c s IH]; intros Hs; [done|]. cbn [skip_punctuation].
  destruct (_ || _); [|done]. apply blank_tail in Hs as [_ Hs]. by apply IH.
Qed.

Lemma blank_match_name_tail name s rest :
  blank s -> match_name_tail name s = Some rest -> blank rest.
Proof.
  intros Hs. unfold match_name_tail.
  destruct (match_name name s None) as [[p r]|] eqn:Hm; [|done].
  destruct (word_boundary p r); [|done]. intros [= <-].
  apply blank_skip_punctuation. by apply blank_match_name in Hm.
Qed.

Lemma blank_match_at_name name s rest :
  blank s -> match_at_name name s = Some rest -> blank rest.
Proof.
  intros Hs. unfold match_at_name.
  assert (Hdirect : match_name_tail name s = Some rest -> blank rest)
    by (by apply blank_match_name_tail).
  destruct s as [|c s]; [done|].
  destruct (Ascii.eqb c "@") eqn:Hc.
  - apply Ascii.eqb_eq in Hc as ->. by apply blank_tail in Hs as [? _].
  - assert (match_at_name name (String c s) = match_name_tail name (String c s))
      as Heq.
    { unfold match_at_name.
      destruct c as [[] [] [] [] [] [] [] []]; try done. }
    unfold match_at_name in Heq. by rewrite Heq.
Qed.

Lemma blank_match_pattern name : forall s rest,
  blank s -> match_pattern name s = Some rest -> blank rest.
Proof.
  induction s as [|c s IH]; intros rest Hs; cbn [match_pattern].
  - by apply blank_match_at_name.
  - destruct (is_space c); [|by apply blank_match_at_name].
    destruct (match_pattern name s) as [r|] eqn:Hm.
    + intros [= <-]. apply blank_tail in Hs as [_ Hs]. by apply IH.
    + by apply blank_match_at_name.
Qed.

Lemma blank_sub_name name s : blank s -> blank (sub_name name s).
Proof.
  intros Hs. unfold sub_name.
  destruct (match_pattern name s) as [rest|] eqn:Hm; [|done].
  apply blank_append; [by repeat constructor|].
  by apply blank_match_pattern in Hm.
Qed.

Lemma blank_strip_names names : forall s, blank s -> blank (strip_names names s).
Proof.
  induction names as [|name names IH]; intros s Hs; [done|].
  cbn [strip_names]. apply IH. destruct (String.eqb name ""); [done|].
  by apply blank_sub_name.
Qed.

Lemma blank_strip s : blank s -> strip s = "".
Proof.
  intros Hs. unfold strip.
  assert (lstrip s = "") as ->; [|done].
  induction s as [|c s IH]; [done|]. apply blank_tail in Hs as [Hc Hs].
  cbn [lstrip]. rewrite Hc. by apply IH.
Qed.

Lemma blank_user_message order activity t :
  blank_text activity ->
  _extract_user_message order activity = Ok t -> t = "".
Proof.
  unfold blank_text, _extract_user_message.
  destruct (activity_text activity) as [raw|]; [|by intros _ [= <-]].
  destruct raw as [|c raw]; [by intros _ [= <-]|]. intros Hb.
  destruct (collect_mentions _ _ _) as [texts names].
  destruct (remove_mentions texts (String c raw)) as [m|] eqn:Hm; [|done].
  cbn [exc_bind]. destruct (str_names names) as [ns|]; [|done].
  cbn [exc_bind]. intros [= <-]. apply blank_strip, blank_strip_names.
  apply (blank_replace "<at>Databricks Genie</at>" "" m); [constructor|].
  by apply blank_remove_mentions in Hm.
Qed.

(** X18.  An activity that is no feedback event and has no text, or a text of
    whitespace only, is no question: the bot asks for one, or reports an
    unexpected error when the mention entities are malformed, and in both
    cases sends no request, no typing indicator and binds nothing. *)
Theorem blank_text_is_no_question self order activity bot :
  blank_text activity ->
  feedback_of activity = None ->
  (_extract_user_message order activity = Ok "" /\
   _on_message_activity self order activity bot = say prompt bot)
  \/
  (exists e, _extract_user_message order activity = Raise e /\
   _on_message_activity self order activity bot = message_failed bot).
Proof.
  intros Hb Hf. unfold _on_message_activity. rewrite Hf.
  destruct (_extract_user_message order activity) as [t|e] eqn:Ht.
  - apply blank_user_message in Ht as ->; [|done]. by left.
  - right. by exists e.
Qed.

Lemma blank_text_is_no_question_witness :
  (_extract_user_message remove_dups (question "thread-1" "   ") = Ok "" /\
   _on_message_activity genie remove_dups (question "thread-1" "   ")
     (new_bot [started_c1])
   = say prompt (new_bot [started_c1]))
  \/
  (exists e,
      _extract_user_message remove_dups (question "thread-1" "   ") = Raise e /\
      _on_message_activity genie remove_dups (question "thread-1" "   ")
        (new_bot [started_c1])
      = message_failed (new_bot [started_c1])).
Proof.
  apply (blank_text_is_no_question genie remove_dups (question "thread-1" "   ")
           (new_bot [started_c1])).
  - repeat constructor.
  - reflexivity.
Defined.

(** X19.  The bot's name is stripped from the start of a message only as a
    whole word: when the name is followed by another word character the
    message is left as it is. *)
Theorem name_inside_word_is_kept name shown first shown' final c rest :
  same_letters name shown ->
  shown = String first shown' ->
  is_word first = true ->
  last_char shown None = Some final ->
  is_word final = true ->
  is_word c = true ->
  sub_name name (shown +:+ String c rest) = shown +:+ String c rest.
Proof.
  intros Hsame -> Hfirst Hlast Hfinal Hc. unfold sub_name.
  rewrite append_cons. cbn [match_pattern].
  rewrite (word_not_space first Hfirst), (match_at_name_word _ _ _ Hfirst).
  unfold match_name_tail. rewrite <- append_cons.
  rewrite (match_name_same _ _ _ _ Hsame), Hlast.
  unfold word_boundary. by rewrite Hfinal, Hc.
Qed.

Lemma name_inside_word_is_kept_witness :
  sub_name "Bot" ("bot" +:+ String "a" "ny is fun") = "bot" +:+ String "a" "ny is fun".
Proof.
  apply (name_inside_word_is_kept "Bot" "bot" "b" "ot" "t" "a" "ny is fun");
    reflexivity.
Defined.

(** ** Configuration and the client *)

Lemma missing_names_nil required :
  missing_names required = [] <-> Forall (fun nv => nv.2 <> "") required.
Proof.
  induction required as [|[name value] required IH]; [done|].
  cbn [missing_names]. destruct (String.eqb_spec value "") as [->|Hne].
  - split; [done|]. by intros [? _]%Forall_cons.
  - rewrite IH. split; [by constructor|by intros [_ ?]%Forall_cons].
Qed.

Lemma missing_names_elem required name :
  name ∈ missing_names required <-> (name, "") ∈ required.
Proof.
  induction required as [|[n v] required IH]; [by rewrite !elem_of_nil|].
  cbn [missing_names]. rewrite elem_of_cons.
  destruct (String.eqb_spec v "") as [->|Hne].
  - rewrite elem_of_cons, IH. split; intros [?|?]; auto; left; congruence.
  - rewrite IH. split; [auto|]. intros [[= _ ?]|?]; done.
Qed.

(** X20.  Validation succeeds exactly when the seven required settings are
    all non-empty; otherwise it raises a [ValueError] whose message lists the
    names of the settings that are empty, and only those.  The tenant id of
    the app and the log level are not required. *)
Theorem validate_reports_missing (cls : Config) :
  (validate cls = inr true <-> Forall (fun nv => nv.2 <> "") (required cls)) /\
  (validate cls <> inr true ->
   exists names,
     validate cls =
       inl (ValueError ("Missing required configuration: " ++ join ", " names)) /\
     names <> [] /\
     forall name, name ∈ names <-> (name, "") ∈ required cls) /\
  (forall tenant level,
     validate {| DATABRICKS_HOST := DATABRICKS_HOST cls;
                 DATABRICKS_CLIENT_ID := DATABRICKS_CLIENT_ID cls;
                 DATABRICKS_CLIENT_SECRET := DATABRICKS_CLIENT_SECRET cls;
                 DATABRICKS_TENANT_ID := DATABRICKS_TENANT_ID cls;
                 DATABRICKS_GENIE_SPACE_ID := DATABRICKS_GENIE_SPACE_ID cls;
                 MICROSOFT_APP_ID := MICROSOFT_APP_ID cls;
                 MICROSOFT_APP_PASSWORD := MICROSOFT_APP_PASSWORD cls;
                 MICROSOFT_APP_TENANT_ID := tenant;
                 LOG_LEVEL := level |}
     = validate cls).
Proof.
  split; [|split].
  - rewrite <- missing_names_nil. unfold validate.
    destruct (missing_names (required cls)); split; done.
  - unfold validate. intros Hv.
    pose proof (missing_names_elem (required cls)) as Hin.
    destruct (missing_names (required cls)) as [|n ns]; [done|].
    by exists (n :: ns).
  - done.
Qed.

Lemma validate_reports_missing_witness :
  exists names,
    validate {| DATABRICKS_HOST := "";
                DATABRICKS_CLIENT_ID := "app-1";
                DATABRICKS_CLIENT_SECRET := "secret";
                DATABRICKS_TENANT_ID := "tenant";
                DATABRICKS_GENIE_SPACE_ID := "sales";
                MICROSOFT_APP_ID := "bot-1";
                MICROSOFT_APP_PASSWORD := "";
                MICROSOFT_APP_TENANT_ID := "";
                LOG_LEVEL := "INFO" |} =
      inl (ValueError ("Missing required configuration: " ++ join ", " names)) /\
    names <> [] /\
    forall name,
      name ∈ names <->
      (name, "") ∈ required {| DATABRICKS_HOST := "";
                               DATABRICKS_CLIENT_ID := "app-1";
                               DATABRICKS_CLIENT_SECRET := "secret";
                               DATABRICKS_TENANT_ID := "tenant";
                               DATABRICKS_GENIE_SPACE_ID := "sales";
                               MICROSOFT_APP_ID := "bot-1";
                               MICROSOFT_APP_PASSWORD := "";
                               MICROSOFT_APP_TENANT_ID := "";
                               LOG_LEVEL := "INFO" |}.
Proof.
  apply (proj1 (proj2 (validate_reports_missing
                         {| DATABRICKS_HOST := "";
                            DATABRICKS_CLIENT_ID := "app-1";
                            DATABRICKS_CLIENT_SECRET := "secret";
                            DATABRICKS_TENANT_ID := "tenant";
                            DATABRICKS_GENIE_SPACE_ID := "sales";
                            MICROSOFT_APP_ID := "bot-1";
                            MICROSOFT_APP_PASSWORD := "";
                            MICROSOFT_APP_TENANT_ID := "";
                            LOG_LEVEL := "INFO" |}))).
  vm_compute. discriminate.
Defined.

Lemma rstrip_slash_slashes k : rstrip_slash (repeat_char "/" k) = "".
Proof. induction k as [|k IH]; [done|]. cbn. by rewrite IH. Qed.

Lemma rstrip_slash_append h : forall k,
  rstrip_slash (h +:+ repeat_char "/" k) = rstrip_slash h.
Proof.
  induction h as [|c h IH]; intros k.
  - apply rstrip_slash_slashes.
  - rewrite append_cons. cbn [rstrip_slash]. by rewrite IH.
Qed.

Lemma rstrip_slash_last h :
  last_char (rstrip_slash h) None <> Some "/"%char.
Proof.
  induction h as [|c h IH]; [done|]. cbn [rstrip_slash].
  destruct (rstrip_slash h) as [|d t].
  - destruct (Ascii.eqb_spec c "/"); [done|]. cbn. congruence.
  - exact IH.
Qed.

(** X21.  The client stores the host without trailing slashes, so the
    requests go to the same URLs whether the configured host ends in slashes
    or not. *)
Theorem trailing_slashes_are_dropped configured k client_id space_id r :
  url (new_client (configured +:+ repeat_char "/" k) client_id space_id) r
  = url (new_client configured client_id space_id) r
  /\ last_char (host (new_client configured client_id space_id)) None
     <> Some "/"%char
  /\ exists j,
       configured = host (new_client configured client_id space_id)
                    +:+ repeat_char "/" j.
Proof.
  split; [|split].
  - unfold new_client, url. cbn [host].
    by rewrite rstrip_slash_append.
  - apply rstrip_slash_last.
  - unfold new_client. cbn [host]. clear.
    induction configured as [|c h [j IH]]; [by exists 0|].
    cbn [rstrip_slash]. destruct (rstrip_slash h) as [|d t] eqn:Hr.
    + destruct (Ascii.eqb_spec c "/") as [->|Hne].
      * exists (S j). cbn. by rewrite IH at 1.
      * exists j. rewrite append_cons. by rewrite IH at 1.
    + exists j. rewrite append_cons. by rewrite IH at 1.
Qed.

(** ** Turns *)

Lemma welcome_loop_state members recipient : forall bot,
  welcome_loop members recipient bot
  = {| conversations := conversations bot;
       wire := wire bot;
       outbox := (outbox bot
                  ++ map (fun _ => Message (PStr welcome))
                         (filter (fun member => member <> recipient) members))%list |}.
Proof.
  induction members as [|member members IH]; intros bot.
  { cbn. rewrite app_nil_r. by destruct bot. }
  cbn [welcome_loop]. rewrite IH, filter_cons.
  destruct (decide (member = recipient)) as [->|Hne].
  - by rewrite decide_False by (by intros ?).
  - rewrite decide_True by done. cbn. by rewrite <- app_assoc.
Qed.

Lemma on_conversation_update_state turn bot :
  _on_conversation_update turn bot
  = {| conversations := conversations bot;
       wire := wire bot;
       outbox := (outbox bot
                  ++ map (fun _ => Message (PStr welcome)) (newcomers turn))%list |}.
Proof.
  unfold _on_conversation_update, newcomers.
  destruct (recipient_id turn) as [recipient|].
  - destruct (members_added turn) as [|member members] eqn:Hm.
    + cbn. rewrite app_nil_r. by destruct bot.
    + apply welcome_loop_state.
  - cbn. rewrite app_nil_r. destruct bot. by destruct (members_added turn).
Qed.

(** X22.  A conversation update is answered with one welcome message for
    every member added other than the bot itself, and with nothing when the
    bot alone was added or the activity has no recipient; it sends no request
    and binds nothing. *)
Theorem conversation_update_welcomes self order turn bot :
  turn_type turn = ConversationUpdateType ->
  _on_turn self order turn bot
  = {| conversations := conversations bot;
       wire := wire bot;
       outbox := (outbox bot
                  ++ map (fun _ => Message (PStr welcome)) (newcomers turn))%list |}
  /\ (forall recipient member,
        recipient_id turn = Some recipient ->
        member ∈ newcomers turn <->
        member ∈ members_added turn /\ member <> recipient)
  /\ (recipient_id turn = None -> newcomers turn = []).
Proof.
  intros Ht. split; [|split].
  - unfold _on_turn. rewrite Ht. apply on_conversation_update_state.
  - unfold newcomers. intros recipient member ->.
    rewrite list_elem_of_filter. tauto.
  - unfold newcomers. by intros ->.
Qed.

Lemma conversation_update_welcomes_witness :
  _on_turn genie remove_dups
    {| turn_type := ConversationUpdateType;
       turn_activity := question "thread-1" "";
       members_added := [Some "28:bot"; Some "29:ann"; Some "29:bob"];
       recipient_id := Some (Some "28:bot");
       channel_id := Some "msteams" |}
    after_first_message
  = {| conversations := conversations after_first_message;
       wire := wire after_first_message;
       outbox := (outbox after_first_message
                  ++ map (fun _ => Message (PStr welcome))
                       (newcomers
                          {| turn_type := ConversationUpdateType;
                             turn_activity := question "thread-1" "";
                             members_added :=
                               [Some "28:bot"; Some "29:ann"; Some "29:bob"];
                             recipient_id := Some (Some "28:bot");
                             channel_id := Some "msteams" |}))%list |}.
Proof.
  refine (proj1 (conversation_update_welcomes genie remove_dups
                   {| turn_type := ConversationUpdateType;
                      turn_activity := question "thread-1" "";
                      members_added := [Some "28:bot"; Some "29:ann"; Some "29:bob"];
                      recipient_id := Some (Some "28:bot");
                      channel_id := Some "msteams" |}
                   after_first_message _)).
  reflexivity.
Defined.

(** X23.  Only message activities reach the remote service and the bindings:
    a turn of any other type leaves the network and the bindings as they
    are, and a turn that is neither a message nor a conversation update
    leaves the bot as it is. *)
Theorem only_messages_reach_genie self order turn bot :
  turn_type turn <> MessageType ->
  wire (_on_turn self order turn bot) = wire bot /\
  conversations (_on_turn self order turn bot) = conversations bot /\
  (turn_type turn <> ConversationUpdateType ->
   _on_turn self order turn bot = bot).
Proof.
  intros Ht. unfold _on_turn.
  destruct (turn_type turn) as [| |name] eqn:Hty; [done| |done].
  by rewrite on_conversation_update_state.
Qed.

Lemma only_messages_reach_genie_witness :
  wire (_on_turn genie remove_dups
          {| turn_type := OtherType "typing";
             turn_activity := question "thread-1" "what is revenue?";
             members_added := [];
             recipient_id := Some (Some "28:bot");
             channel_id := Some "msteams" |}
          (new_bot [started_c1]))
  = wire (new_bot [started_c1]).
Proof.
  refine (proj1 (only_messages_reach_genie genie remove_dups
                   {| turn_type := OtherType "typing";
                      turn_activity := question "thread-1" "what is revenue?";
                      members_added := [];
                      recipient_id := Some (Some "28:bot");
                      channel_id := Some "msteams" |}
                   (new_bot [started_c1]) _)).
  discriminate.
Defined.

(** ** Requests and entry points *)

(** X24.  When the adapter refuses an activity with a [KeyError] that names
    [access_token], the handler runs the bot's logic all the same if the
    activity names the channel [emulator] or [webchat], and reports success;
    on every other channel the logic does not run and the result is the
    authentication error with the exception text as details. *)
Theorem unauthenticated_test_channels self order adapter req_body auth_header
  bot turn m :
  deserialize adapter req_body = inr turn ->
  process_activity adapter turn auth_header
    = {| runs_logic := false; raises := Some (KeyError m) |} ->
  contains "access_token" m = true ->
  handle_request self order adapter req_body auth_header bot
  = if test_channel turn
    then (activity_processed, _on_turn self order turn bot)
    else (PDict [("status", PStr "error");
                 ("error",
                  PStr ("Bot authentication failed. Please verify your "
                        ++ "MICROSOFT_APP_ID and MICROSOFT_APP_PASSWORD are correct."));
                 ("details", PStr m)],
          bot).
Proof.
  intros Hd Hp Hc. unfold handle_request. rewrite Hd, Hp. cbn [runs_logic raises].
  rewrite Hc. destruct (test_channel turn); [done|].
  unfold request_failed. cbn [raised_text]. by rewrite Hc.
Qed.

Lemma unauthenticated_test_channels_witness :
  handle_request genie remove_dups no_token_adapter (PDict []) ""
    (new_bot [connection_reset])
  = if test_channel webchat_question
    then (activity_processed,
          _on_turn genie remove_dups webchat_question (new_bot [connection_reset]))
    else (PDict [("status", PStr "error");
                 ("error",
                  PStr ("Bot authentication failed. Please verify your "
                        ++ "MICROSOFT_APP_ID and MICROSOFT_APP_PASSWORD are correct."));
                 ("details", PStr "'access_token'")],
          new_bot [connection_reset]).
Proof.
  apply (unauthenticated_test_channels genie remove_dups no_token_adapter
           (PDict []) "" (new_bot [connection_reset]) webchat_question
           "'access_token'").
  - reflexivity.
  - reflexivity.
  - vm_compute. reflexivity.
Defined.

Lemma handle_request_status self order adapter req_body auth_header bot :
  py_get (fst (handle_request self order adapter req_body auth_header bot))
         "status" = Ok (PStr "ok") \/
  py_get (fst (handle_request self order adapter req_body auth_header bot))
         "status" = Ok (PStr "error").
Proof.
  assert (Hf : forall e, py_get (request_failed e) "status" = Ok (PStr "error")).
  { intros e. unfold request_failed. cbv zeta. by destruct (_ || _). }
  unfold handle_request. destruct (deserialize adapter req_body) as [e|turn];
    [right; apply Hf|].
  cbv zeta. destruct (raises _) as [[m|m|m]|]; cbn [fst]; auto.
  destruct (contains "access_token" m); [|cbn [fst]; auto].
  destruct (test_channel turn); cbn [fst]; auto.
Qed.

(** X25.  With an incomplete configuration every request with a JSON body is
    answered with HTTP 400 and the names of the missing settings, by both
    entry points, and no bot is created: the next request validates the
    configuration again. *)
Theorem incomplete_configuration_is_bad_request cls order adapter script
  req_body auth_header :
  validate cls <> inr true ->
  exists names,
    names <> [] /\
    (forall name, name ∈ names <-> (name, "") ∈ required cls) /\
    function_app_messages cls order adapter script (inr req_body) auth_header None
    = ({| status_code := 400;
          content :=
            PDict [("error", PStr "Invalid request");
                   ("details",
                    PStr ("Missing required configuration: "
                          ++ join ", " names))] |}, None) /\
    containerapp_messages cls order adapter script (inr req_body) auth_header None
    = function_app_messages cls order adapter script (inr req_body) auth_header
        None.
Proof.
  intros Hv. unfold function_app_messages, containerapp_messages, get_bot, validate in *.
  pose proof (missing_names_elem (required cls)) as Hin.
  destruct (missing_names (required cls)) as [|n ns]; [done|].
  by exists (n :: ns).
Qed.

Lemma incomplete_configuration_is_bad_request_witness :
  exists names,
    names <> [] /\
    (forall name, name ∈ names <-> (name, "") ∈ required incomplete_config) /\
    function_app_messages incomplete_config remove_dups no_token_adapter []
      (inr (PDict [])) "" None
    = ({| status_code := 400;
          content :=
            PDict [("error", PStr "Invalid request");
                   ("details",
                    PStr ("Missing required configuration: "
                          ++ join ", " names))] |}, None) /\
    containerapp_messages incomplete_config remove_dups no_token_adapter []
      (inr (PDict [])) "" None
    = function_app_messages incomplete_config remove_dups no_token_adapter []
        (inr (PDict [])) "" None.
Proof.
  apply (incomplete_configuration_is_bad_request incomplete_config remove_dups
           no_token_adapter [] (PDict []) "").
  vm_compute. discriminate.
Defined.

(** X26.  Once the configuration is complete, a request with a JSON body is
    answered with HTTP 200 by both entry points, whatever the adapter, the
    network and the bot do: the result of the handler, [ok] or [error], is in
    the body, and the bot of the process exists afterwards. *)
Theorem handled_requests_are_http_200 cls order adapter script req_body
  auth_header server :
  validate cls = inr true ->
  exists result state,
    function_app_messages cls order adapter script (inr req_body) auth_header
      server
    = (ok_response result, Some state) /\
    containerapp_messages cls order adapter script (inr req_body) auth_header
      server
    = (ok_response result, Some state) /\
    (py_get result "status" = Ok (PStr "ok") \/
     py_get result "status" = Ok (PStr "error")).
Proof.
  intros Hv. unfold function_app_messages, containerapp_messages, get_bot.
  rewrite Hv.
  assert (H : forall genie bot,
    exists result state,
      (let '(result, bot) :=
         handle_request genie order adapter req_body auth_header
           (supply script bot) in
       (ok_response result, Some (genie, bot)))
      = (ok_response result, Some state) /\
      (let '(result, bot) :=
         handle_request genie order adapter req_body auth_header
           (supply script bot) in
       (ok_response result, Some (genie, bot)))
      = (ok_response result, Some state) /\
      (py_get result "status" = Ok (PStr "ok") \/
       py_get result "status" = Ok (PStr "error"))).
  { intros genie bot.
    pose proof (handle_request_status genie order adapter req_body auth_header
                  (supply script bot)) as Hs.
    destruct (handle_request _ _ _ _ _ _) as [result bot'].
    by exists result, (genie, bot'). }
  destruct server as [[genie bot]|]; apply H.
Qed.

Lemma handled_requests_are_http_200_witness :
  exists result state,
    function_app_messages complete_config remove_dups no_token_adapter
      [connection_reset] (inr (PDict [])) "" None
    = (ok_response result, Some state) /\
    containerapp_messages complete_config remove_dups no_token_adapter
      [connection_reset] (inr (PDict [])) "" None
    = (ok_response result, Some state) /\
    (py_get result "status" = Ok (PStr "ok") \/
     py_get result "status" = Ok (PStr "error")).
Proof.
  apply (handled_requests_are_http_200 complete_config remove_dups
           no_token_adapter [connection_reset] (PDict []) "" None).
  reflexivity.
Defined.

(** X27.  The entry points differ in the order of their checks.  When the
    body is no JSON and the configuration is incomplete, the Function App
    reports the configuration and the Container App reports the body; when
    the body is no JSON and the configuration is complete, both report the
    body, but the Function App has created the bot and the Container App has
    not. *)
Theorem entry_points_check_in_different_order cls order adapter script
  auth_header (e : raised) :
  (forall m,
     validate cls = inl m ->
     function_app_messages cls order adapter script (inl e) auth_header None
     = (error_response m, None) /\
     containerapp_messages cls order adapter script (inl e) auth_header None
     = (error_response e, None)) /\
  (validate cls = inr true ->
   function_app_messages cls order adapter script (inl e) auth_header None
   = (error_response e,
      Some (new_client (DATABRICKS_HOST cls) (DATABRICKS_CLIENT_ID cls)
                       (DATABRICKS_GENIE_SPACE_ID cls),
            new_bot [])) /\
   containerapp_messages cls order adapter script (inl e) auth_header None
   = (error_response e, None)).
Proof.
  unfold function_app_messages, containerapp_messages, get_bot.
  split; [intros m Hv|intros Hv]; by rewrite Hv.
Qed.
